(** * intent-prompts: the refinement core, embedded and verified

    A shallow embedding of the parts of the extension that the
    specification's testable properties talk about:

    - [Js]               strings, JSON values, errors and promises as results;
    - [Providers]        the static provider table ([providers.ts]);
    - [ApiAdapter]       the unified chat client ([chatCompletion] and its
                         three provider adapters);
    - [ProviderStorage]  the credential store reads ([providerStorage.ts]);
    - [Storage]          prompts and labels ([storage.ts]);
    - [Messaging]        the responses exchanged with the service worker;
    - [RefinePrompt]     the orchestrator's first operation;
    - [Background]       the message handlers of the service worker;
    - [ClarificationChat] the conversation driver;
    - [PromptEditor]     the editor's archival of the pre-refinement text.

    Asynchronous functions are modelled by what their promise settles to:
    [Ok v] for a resolved promise, [Throw e] for a rejected one.  The outside
    world (the network, [chrome.storage], the user) is an explicit argument. *)

From Stdlib Require Import ZArith QArith String Ascii List Bool Lia DecimalString.
From stdpp Require Import base list strings gmap.

Open Scope string_scope.
Open Scope list_scope.
Open Scope Z_scope.

(* ===================================================================== *)
(** ** JavaScript values                                                  *)
(* ===================================================================== *)

Module Js.

(** A string is a sequence of code units; the embedding covers the code
    units U+0000..U+00FF, one [ascii] each. *)

(** White space as [String.prototype.trim] sees it, within that range:
    TAB, LF, VT, FF, CR, SPACE and NO-BREAK SPACE. *)
Definition is_white_space (c : ascii) : bool :=
  let n := nat_of_ascii c in
  (Nat.eqb n 9 || Nat.eqb n 10 || Nat.eqb n 11 || Nat.eqb n 12
   || Nat.eqb n 13 || Nat.eqb n 32 || Nat.eqb n 160)%bool.

Definition is_empty (s : string) : bool :=
  match s with EmptyString => true | String _ _ => false end.

Fixpoint trimStart (s : string) : string :=
  match s with
  | EmptyString => EmptyString
  | String c r => if is_white_space c then trimStart r else s
  end.

Fixpoint trimEnd (s : string) : string :=
  match s with
  | EmptyString => EmptyString
  | String c r =>
      let r' := trimEnd r in
      if (is_white_space c && is_empty r')%bool then EmptyString
      else String c r'
  end.

Definition trim (s : string) : string := trimEnd (trimStart s).

(** Truthiness of a string: every string but the empty one. *)
Definition truthy (s : string) : bool := negb (is_empty s).

(** [s.slice(0, n)] for [0 <= n]. *)
Definition slice0 (n : nat) (s : string) : string := substring 0 n s.

(** [`"${s}"`]: the text between double quotes. *)
Definition quoted (s : string) : string :=
  String (ascii_of_nat 34) (s +:+ String (ascii_of_nat 34) EmptyString).

(** [`${n}`] for an integer. *)
Definition string_of_Z (n : Z) : string :=
  NilZero.string_of_int (Z.to_int n).

(** What [JSON.parse] yields and [JSON.stringify] consumes.  The fields of
    an object are kept in insertion order. *)
#[local] Unset Elimination Schemes.
Inductive json : Type :=
| JNull
| JBool (b : bool)
| JNum (q : Q)
| JStr (s : string)
| JArr (items : list json)
| JObj (fields : list (string * json)).
#[local] Set Elimination Schemes.

Fixpoint assoc {A} (k : string) (fs : list (string * A)) : option A :=
  match fs with
  | [] => None
  | (k', v) :: rest => if String.eqb k k' then Some v else assoc k rest
  end.

(** An [Error] object: the constructor's name and the message. *)
Record JsError : Type := mkError { err_name : string; err_message : string }.

(** [new Error(m)] *)
Definition Error (m : string) : JsError :=
  {| err_name := "Error"; err_message := m |}.

(** The engine's error for calling something that is no function. *)
Definition TypeError (m : string) : JsError :=
  {| err_name := "TypeError"; err_message := m |}.

(** The settled state of a promise, or the outcome of a block that may
    throw. *)
Inductive Result (A : Type) : Type :=
| Ok (a : A)
| Throw (e : JsError).
Arguments Ok {A} a.
Arguments Throw {A} e.

Definition bind {A B} (r : Result A) (k : A -> Result B) : Result B :=
  match r with
  | Ok a => k a
  | Throw e => Throw e
  end.

(** [undefined] is [None]; a JSON value is [Some v]. *)
Definition jsval : Type := option json.

(** [v.k] on a value that is neither [null] nor [undefined], for a
    property name [k] that is not a member of any prototype (true of
    every name the adapters read: choices, message, content, candidates,
    parts, text). *)
Definition get (v : json) (k : string) : jsval :=
  match v with
  | JObj fs => assoc k fs
  | _ => None
  end.

(** [v[0]] on a value that is neither [null] nor [undefined]. *)
Definition get0 (v : json) : jsval :=
  match v with
  | JArr (x :: _) => Some x
  | JStr (String c _) => Some (JStr (String c EmptyString))
  | JObj fs => assoc "0" fs
  | _ => None
  end.

(** [r?.k] and [r?.[0]]: [undefined] when the receiver is nullish. *)
Definition opt_get (r : jsval) (k : string) : jsval :=
  match r with
  | None | Some JNull => None
  | Some v => get v k
  end.

Definition opt_get0 (r : jsval) : jsval :=
  match r with
  | None | Some JNull => None
  | Some v => get0 v
  end.

(** [data.k] with no [?.]: a [null] receiver throws. *)
Definition get_strict (data : json) (k : string)
  : Result jsval :=
  match data with
  | JNull =>
      Throw (TypeError ("Cannot read properties of null (reading '"
                        +:+ k +:+ "')"))
  | v => Ok (get v k)
  end.

(** [r?.trim()]: [undefined] on a nullish receiver, the trimmed string on
    a string, and a [TypeError] on anything else, whose [trim] is either
    missing or a JSON value, and in both cases no function. *)
Definition opt_trim (path : string) (r : jsval) : Result (option string) :=
  match r with
  | None | Some JNull => Ok None
  | Some (JStr s) => Ok (Some (trim s))
  | Some _ => Throw (TypeError (path +:+ ".trim is not a function"))
  end.

End Js.
Import Js.

(* ===================================================================== *)
(** ** providers.ts                                                       *)
(* ===================================================================== *)

Module Providers.

Record ProviderConfig : Type := {
  id : string;
  name : string;
  apiBaseUrl : string;
  defaultModel : string;
  models : list string;
  apiKeyHeader : string;
}.

Definition openai : ProviderConfig := {|
  id := "openai";
  name := "OpenAI";
  apiBaseUrl := "https://api.openai.com/v1";
  defaultModel := "gpt-4";
  models := ["gpt-3.5-turbo"; "gpt-4"; "gpt-4-turbo-preview"];
  apiKeyHeader := "Authorization";
|}.

Definition anthropic : ProviderConfig := {|
  id := "anthropic";
  name := "Anthropic (Claude)";
  apiBaseUrl := "https://api.anthropic.com/v1";
  defaultModel := "claude-3-5-sonnet-20241022";
  models := ["claude-3-5-sonnet-20241022"; "claude-3-5-haiku-20241022";
             "claude-3-opus-20240229"];
  apiKeyHeader := "x-api-key";
|}.

Definition google : ProviderConfig := {|
  id := "google";
  name := "Google (Gemini)";
  apiBaseUrl := "https://generativelanguage.googleapis.com/v1";
  defaultModel := "gemini-1.5-flash";
  models := ["gemini-1.5-flash"; "gemini-1.5-pro"; "gemini-pro"];
  apiKeyHeader := "x-goog-api-key";
|}.

(** [Object.values(PROVIDERS)] *)
Definition getAllProviders : list ProviderConfig :=
  [openai; anthropic; google].

(** The type [ProviderId]: the three keys of [PROVIDERS]. *)
Inductive ProviderId : Type := OpenAI | Anthropic | Google.

(** The string that a [ProviderId] is. *)
Definition id_text (providerId : ProviderId) : string :=
  match providerId with
  | OpenAI => "openai"
  | Anthropic => "anthropic"
  | Google => "google"
  end.

(** [PROVIDERS[id]] for an [id] of the type [ProviderId].  The function is
    typed to these three keys; a lookup under any other string (which
    would also reach the members that an object inherits) is no call of
    it. *)
Definition getProvider (providerId : ProviderId) : ProviderConfig :=
  match providerId with
  | OpenAI => openai
  | Anthropic => anthropic
  | Google => google
  end.

End Providers.

(* ===================================================================== *)
(** ** The unified chat client                                            *)
(* ===================================================================== *)

Module ApiAdapter.
Import Providers.

Inductive Role : Type := system | user | assistant.

Definition role_eqb (a b : Role) : bool :=
  match a, b with
  | system, system | user, user | assistant, assistant => true
  | _, _ => false
  end.

Definition role_name (r : Role) : string :=
  match r with
  | system => "system"
  | user => "user"
  | assistant => "assistant"
  end.

Record ChatMessage : Type := { role : Role; content : string }.

Record ChatCompletionRequest : Type := {
  model : string;
  messages : list ChatMessage;
  temperature : option Q;
  maxTokens : option Z;
}.

Record ChatCompletionResponse : Type := { resp_content : string }.

(** What [fetch] is given.  [req_body] is the value handed to
    [JSON.stringify]. *)
Record HttpRequest : Type := {
  req_url : string;
  req_method : string;
  req_headers : list (string * string);
  req_body : json;
}.

(** What [fetch] resolves to: the status line, and what [text()] and
    [json()] settle to when the adapter reads the body. *)
Record HttpResponse : Type := {
  status : Z;
  statusText : string;
  text : Result string;
  json_body : Result json;
}.

(** [response.ok] *)
Definition ok (r : HttpResponse) : bool :=
  ((200 <=? status r) && (status r <=? 299))%bool.

(** The network: the settled state of [fetch(url, init)]. *)
Definition Fetch : Type := HttpRequest -> Result HttpResponse.

(** [await response.text().catch(() => response.statusText)] *)
Definition error_text (r : HttpResponse) : string :=
  match text r with
  | Ok t => t
  | Throw _ => statusText r
  end.

(** [`${who} API error (${response.status}): ${errText}`] *)
Definition api_error (who : string) (r : HttpResponse) : JsError :=
  Error (who +:+ " API error (" +:+ string_of_Z (status r) +:+ "): "
         +:+ error_text r).

Definition no_content (who : string) : JsError :=
  Error (who +:+ " API returned no content").

(** The common tail of the three adapters:
    [if (!content) throw ...; return { content }]. *)
Definition require_content (who : string) (c : option string)
  : Result ChatCompletionResponse :=
  match c with
  | Some s => if truthy s then Ok {| resp_content := s |}
              else Throw (no_content who)
  | None => Throw (no_content who)
  end.

(** *** OpenAI *)

Definition message_json (m : ChatMessage) : json :=
  JObj [("role", JStr (role_name (role m))); ("content", JStr (content m))].

Definition openAIRequest (apiKey baseUrl model : string)
  (messages : list ChatMessage) (temperature : Q) : HttpRequest := {|
  req_url := baseUrl +:+ "/chat/completions";
  req_method := "POST";
  req_headers := [("Content-Type", "application/json");
                  ("Authorization", "Bearer " +:+ apiKey)];
  req_body := JObj [("model", JStr model);
                    ("messages", JArr (map message_json messages));
                    ("temperature", JNum temperature)];
|}.

(** [data.choices?.[0]?.message?.content?.trim()] *)
Definition openAIContent (data : json) : Result (option string) :=
  let path := "data.choices?.[0]?.message?.content?" in
  bind (get_strict data "choices") (fun choices =>
  opt_trim path (opt_get (opt_get (opt_get0 choices) "message") "content")).

Definition openAIChatCompletion (fetch : Fetch)
  (apiKey baseUrl model : string) (messages : list ChatMessage)
  (temperature : Q) : Result ChatCompletionResponse :=
  bind (fetch (openAIRequest apiKey baseUrl model messages temperature))
    (fun response =>
  if negb (ok response) then Throw (api_error "OpenAI" response)
  else
    bind (json_body response) (fun data =>
    bind (openAIContent data) (fun content =>
    require_content "OpenAI" content))).

(** *** Anthropic *)

Definition is_system (m : ChatMessage) : bool := role_eqb (role m) system.

(** [messages.find((m) => m.role === "system")] *)
Definition find_system (messages : list ChatMessage) : option ChatMessage :=
  List.find is_system messages.

(** [messages.filter((m) => m.role !== "system")] *)
Definition conversationMessages (messages : list ChatMessage)
  : list ChatMessage :=
  List.filter (fun m => negb (is_system m)) messages.

Definition anthropic_message (m : ChatMessage) : json :=
  JObj [("role", JStr (if role_eqb (role m) assistant then "assistant"
                       else "user"));
        ("content", JStr (content m))].

Definition anthropicBody (model : string) (messages : list ChatMessage)
  (temperature : Q) : json :=
  let body :=
    [("model", JStr model);
     ("max_tokens", JNum (4096 # 1));
     ("temperature", JNum temperature);
     ("messages",
      JArr (map anthropic_message (conversationMessages messages)))] in
  match find_system messages with
  | Some systemMessage =>
      JObj (body ++ [("system", JStr (content systemMessage))])
  | None => JObj body
  end.

Definition anthropicRequest (apiKey baseUrl model : string)
  (messages : list ChatMessage) (temperature : Q) : HttpRequest := {|
  req_url := baseUrl +:+ "/messages";
  req_method := "POST";
  req_headers := [("Content-Type", "application/json");
                  ("x-api-key", apiKey);
                  ("anthropic-version", "2023-06-01")];
  req_body := anthropicBody model messages temperature;
|}.

(** [data.content?.[0]?.text?.trim()] *)
Definition anthropicContent (data : json) : Result (option string) :=
  let path := "data.content?.[0]?.text?" in
  bind (get_strict data "content") (fun blocks =>
  opt_trim path (opt_get (opt_get0 blocks) "text")).

Definition anthropicChatCompletion (fetch : Fetch)
  (apiKey baseUrl model : string) (messages : list ChatMessage)
  (temperature : Q) : Result ChatCompletionResponse :=
  bind (fetch (anthropicRequest apiKey baseUrl model messages temperature))
    (fun response =>
  if negb (ok response) then Throw (api_error "Anthropic" response)
  else
    bind (json_body response) (fun data =>
    bind (anthropicContent data) (fun content =>
    require_content "Anthropic" content))).

(** *** Google *)

Definition parts_of (t : string) : json := JArr [JObj [("text", JStr t)]].

Definition google_content (m : ChatMessage) : json :=
  JObj [("role", JStr (if role_eqb (role m) assistant then "model"
                       else "user"));
        ("parts", parts_of (content m))].

Definition googleBody (messages : list ChatMessage) (temperature : Q)
  : json :=
  let body :=
    [("contents",
      JArr (map google_content (conversationMessages messages)));
     ("generationConfig", JObj [("temperature", JNum temperature)])] in
  match find_system messages with
  | Some systemInstruction =>
      JObj (body ++ [("systemInstruction",
                      JObj [("parts", parts_of (content systemInstruction))])])
  | None => JObj body
  end.

Definition googleRequest (apiKey baseUrl model : string)
  (messages : list ChatMessage) (temperature : Q) : HttpRequest := {|
  req_url := baseUrl +:+ "/" +:+ model +:+ ":generateContent?key=" +:+ apiKey;
  req_method := "POST";
  req_headers := [("Content-Type", "application/json")];
  req_body := googleBody messages temperature;
|}.

(** [data.candidates?.[0]?.content?.parts?.[0]?.text?.trim()] *)
Definition googleContent (data : json) : Result (option string) :=
  let path := "data.candidates?.[0]?.content?.parts?.[0]?.text?" in
  bind (get_strict data "candidates") (fun candidates =>
  opt_trim path
    (opt_get (opt_get0 (opt_get (opt_get (opt_get0 candidates) "content")
                                "parts")) "text")).

Definition googleChatCompletion (fetch : Fetch)
  (apiKey baseUrl model : string) (messages : list ChatMessage)
  (temperature : Q) : Result ChatCompletionResponse :=
  bind (fetch (googleRequest apiKey baseUrl model messages temperature))
    (fun response =>
  if negb (ok response) then Throw (api_error "Google" response)
  else
    bind (json_body response) (fun data =>
    bind (googleContent data) (fun content =>
    require_content "Google" content))).

(** *** chatCompletion *)

(** The three records written to the console. *)
Inductive LogEntry : Type :=
| LLM_REQUEST (provider model : string) (temperature : Q)
              (messages : list ChatMessage)
| LLM_RESPONSE (provider model contentPreview : string)
| LLM_ERROR (provider model : string) (temperature : Q)
            (messages : list ChatMessage) (error : string).

(** The provider dispatch inside the [try]. *)
Definition dispatch (fetch : Fetch) (provider : ProviderConfig)
  (apiKey model : string) (messages : list ChatMessage) (temperature : Q)
  : Result ChatCompletionResponse :=
  if String.eqb (id provider) "openai" then
    openAIChatCompletion fetch apiKey (apiBaseUrl provider) model messages
      temperature
  else if String.eqb (id provider) "anthropic" then
    anthropicChatCompletion fetch apiKey (apiBaseUrl provider) model
      messages temperature
  else if String.eqb (id provider) "google" then
    googleChatCompletion fetch apiKey (apiBaseUrl provider) model messages
      temperature
  else Throw (Error ("Unsupported provider: " +:+ id provider)).

(** The console output, in order, and what the promise settles to. *)
Definition chatCompletion (fetch : Fetch) (provider : ProviderConfig)
  (apiKey : string) (request : ChatCompletionRequest)
  : list LogEntry * Result ChatCompletionResponse :=
  let temperature := default (7 # 10)%Q (temperature request) in
  let requested :=
    LLM_REQUEST (id provider) (model request) temperature
      (messages request) in
  match dispatch fetch provider apiKey (model request) (messages request)
          temperature with
  | Ok response =>
      ([requested;
        LLM_RESPONSE (id provider) (model request)
          (slice0 500 (resp_content response))],
       Ok response)
  | Throw err =>
      ([requested;
        LLM_ERROR (id provider) (model request) temperature
          (messages request) (err_message err)],
       Throw err)
  end.

End ApiAdapter.

(* ===================================================================== *)
(** ** providerStorage.ts                                                 *)
(* ===================================================================== *)

Module ProviderStorage.

Definition PROVIDER_API_KEYS : string := "provider_api_keys".
Definition SELECTED_PROVIDER : string := "selected_provider".

(** How a call of [chrome.storage.local.get] can go wrong: the call itself
    throws, or the callback runs with [chrome.runtime.lastError] set. *)
Inductive Fault : Type :=
| Thrown (e : JsError)
| LastError (message : string).

(** The storage area as the credential store meets it: the stored items
    and the fault, if any, that a read runs into. *)
Record Chrome : Type := {
  items : gmap string json;
  read_fault : option Fault;
}.

(** [storage.get(key)]: the promise around [chrome.storage.local.get]. *)
Definition storage_get (c : Chrome) (key : string)
  : Result (gmap string json) :=
  match read_fault c with
  | Some (LastError m) => Throw (Error ("Storage get error: " +:+ m))
  | Some (Thrown e) =>
      Throw (Error ("Storage get failed: " +:+ err_message e))
  | None => Ok (filter (fun kv => kv.1 = key) (items c))
  end.

(** Truthiness of a stored value, for [data[KEY] || {}]. *)
Definition json_truthy (v : json) : bool :=
  match v with
  | JNull => false
  | JBool b => b
  | JNum q => negb (Qeq_bool q 0)
  | JStr s => truthy s
  | JArr _ | JObj _ => true
  end.

Definition or_empty_object (v : jsval) : json :=
  match v with
  | Some j => if json_truthy j then j else JObj []
  | None => JObj []
  end.

(** [try { ... } catch (error) { console.error(...); return undefined; }] *)
Definition try_catch {A} (body : Result A) (handler : JsError -> Result A)
  : Result A :=
  match body with
  | Ok a => Ok a
  | Throw e => handler e
  end.

Definition getProviderApiKey (c : Chrome) (providerId : string)
  : Result jsval :=
  try_catch
    (bind (storage_get c PROVIDER_API_KEYS) (fun data =>
     let keys := or_empty_object (data !! PROVIDER_API_KEYS) in
     Ok (get keys providerId)))
    (fun _ => Ok None).

Definition getSelectedProvider (c : Chrome) : Result jsval :=
  try_catch
    (bind (storage_get c SELECTED_PROVIDER) (fun data =>
     Ok (data !! SELECTED_PROVIDER)))
    (fun _ => Ok None).

(** The storage area as the writes meet it: what the reads see, and the
    fault, if any, that a write runs into. *)
Record Area : Type := {
  area : Chrome;
  write_fault : option Fault;
}.

(** [storage.set({ [key]: value })]: the other keys stay as they are. *)
Definition storage_set (a : Area) (key : string) (value : json)
  : Result unit * Area :=
  match write_fault a with
  | Some (LastError m) => (Throw (Error ("Storage set error: " +:+ m)), a)
  | Some (Thrown e) =>
      (Throw (Error ("Storage set failed: " +:+ err_message e)), a)
  | None =>
      (Ok tt,
       {| area := {| items := <[key := value]> (items (area a));
                     read_fault := read_fault (area a) |};
          write_fault := write_fault a |})
  end.

(** [fields[k] = v] on the fields of an object: an existing property keeps
    its place, a new one goes last (for a name that is no array index, as
    the provider ids are). *)
Fixpoint set_field (k : string) (v : json) (fields : list (string * json))
  : list (string * json) :=
  match fields with
  | [] => [(k, v)]
  | (k', v') :: rest =>
      if String.eqb k k' then (k, v) :: rest
      else (k', v') :: set_field k v rest
  end.

(** [delete fields[k]] *)
Fixpoint remove_field (k : string) (fields : list (string * json))
  : list (string * json) :=
  match fields with
  | [] => []
  | (k', v') :: rest =>
      if String.eqb k k' then remove_field k rest
      else (k', v') :: remove_field k rest
  end.

(** The digits after the decimal point of [r / d], for [0 <= r < d]. *)
Fixpoint fraction_digits (fuel : nat) (r d : Z) : string :=
  match fuel with
  | O => EmptyString
  | S fuel' =>
      if (r =? 0)%Z then EmptyString
      else String (ascii_of_nat (48 + Z.to_nat (10 * r / d)))
             (fraction_digits fuel' (10 * r mod d) d)
  end.

(** [String(n)] for a number as JSON writes it: the digits of a decimal
    literal of at most 17 significant digits, of a size for which the
    engine uses no exponent. *)
Definition number_text (q : Q) : string :=
  let d := Zpos (Qden q) in
  let magnitude := Z.abs (Qnum q) in
  (if (Qnum q <? 0)%Z then "-" else "")
  +:+ string_of_Z (magnitude / d)
  +:+ (if (magnitude mod d =? 0)%Z then ""
       else "." +:+ fraction_digits 17 (magnitude mod d) d).

(** [keys[k] = v] followed by the write of [keys], for a truthy [keys] and
    a [k] of the type [ProviderId] (no member of a prototype, and not
    [__proto__]).  On an object the property is set.  On an array the
    property is set on the array object and lost when the storage
    serialises the array.  On a string, number or boolean the assignment
    throws, the module being strict code; on [null], which no truthy
    [keys] is, it throws as well. *)
Definition assign (keys : json) (k : string) (v : json) : Result json :=
  let cannot_create kind shown :=
    Throw (TypeError ("Cannot create property '" +:+ k +:+ "' on " +:+ kind
                      +:+ " '" +:+ shown +:+ "'")) in
  match keys with
  | JObj fields => Ok (JObj (set_field k v fields))
  | JArr elements => Ok (JArr elements)
  | JStr s => cannot_create "string" s
  | JNum q => cannot_create "number" (number_text q)
  | JBool b => cannot_create "boolean" (if b then "true" else "false")
  | JNull =>
      Throw (TypeError ("Cannot set properties of null (setting '" +:+ k
                        +:+ "')"))
  end.

(** [delete keys[k]]: nothing to delete but on an object. *)
Definition unassign (keys : json) (k : string) : json :=
  match keys with
  | JObj fields => JObj (remove_field k fields)
  | other => other
  end.

Definition setProviderApiKey (a : Area) (providerId apiKey : string)
  : Result unit * Area :=
  let failed e :=
    Error ("Failed to set API key for provider " +:+ providerId +:+ ": "
           +:+ err_message e) in
  match storage_get (area a) PROVIDER_API_KEYS with
  | Throw e => (Throw (failed e), a)
  | Ok data =>
      match assign (or_empty_object (data !! PROVIDER_API_KEYS)) providerId
              (JStr apiKey) with
      | Throw e => (Throw (failed e), a)
      | Ok keys =>
          match storage_set a PROVIDER_API_KEYS keys with
          | (Ok _, a') => (Ok tt, a')
          | (Throw e, a') => (Throw (failed e), a')
          end
      end
  end.

Definition deleteProviderApiKey (a : Area) (providerId : string)
  : Result unit * Area :=
  let failed e :=
    Error ("Failed to delete API key for provider " +:+ providerId +:+ ": "
           +:+ err_message e) in
  match storage_get (area a) PROVIDER_API_KEYS with
  | Throw e => (Throw (failed e), a)
  | Ok data =>
      let keys :=
        unassign (or_empty_object (data !! PROVIDER_API_KEYS)) providerId in
      match storage_set a PROVIDER_API_KEYS keys with
      | (Ok _, a') => (Ok tt, a')
      | (Throw e, a') => (Throw (failed e), a')
      end
  end.

Definition getAllProviderApiKeys (c : Chrome) : Result json :=
  try_catch
    (bind (storage_get c PROVIDER_API_KEYS) (fun data =>
     Ok (or_empty_object (data !! PROVIDER_API_KEYS))))
    (fun _ => Ok (JObj [])).

Definition setSelectedProvider (a : Area) (providerId : string)
  : Result unit * Area :=
  match storage_set a SELECTED_PROVIDER (JStr providerId) with
  | (Ok _, a') => (Ok tt, a')
  | (Throw e, a') =>
      (Throw (Error ("Failed to set selected provider: " +:+ err_message e)),
       a')
  end.

End ProviderStorage.

(* ===================================================================== *)
(** ** storage.ts: prompts and labels                                     *)
(* ===================================================================== *)

Module Storage.

Record Prompt : Type := {
  name : string;
  content : string;
  labels : list string;
  originalContent : option string;
}.

Record Label : Type := {
  label_name : string;
  context : string;
  icon : option string;
  color : option string;
}.

Record StorageData : Type := {
  prompts : list Prompt;
  stored_labels : list Label;
}.

Inductive Fault : Type :=
| Thrown (e : JsError)
| LastError (message : string).

(** [chrome.storage.local] as this module meets it.  An item is [None]
    when the key is absent or holds something that is no array. *)
Record World : Type := {
  prompts_item : option (list Prompt);
  labels_item : option (list Label);
  get_fault : option Fault;
  set_fault : option Fault;
}.

Definition storage_get_fault (f : Fault) : JsError :=
  match f with
  | LastError m => Error ("Storage get error: " +:+ m)
  | Thrown e => Error ("Storage get failed: " +:+ err_message e)
  end.

Definition storage_set_fault (f : Fault) : JsError :=
  match f with
  | LastError m => Error ("Storage set error: " +:+ m)
  | Thrown e => Error ("Storage set failed: " +:+ err_message e)
  end.

(** [Array.isArray(x) ? x : []] on both keys. *)
Definition getStorageData (w : World) : Result StorageData :=
  match get_fault w with
  | Some f => Throw (storage_get_fault f)
  | None => Ok {| prompts := default [] (prompts_item w);
                  stored_labels := default [] (labels_item w) |}
  end.

Definition saveStorageData (w : World) (data : StorageData)
  : Result unit * World :=
  match set_fault w with
  | Some f => (Throw (storage_set_fault f), w)
  | None => (Ok tt, {| prompts_item := Some (prompts data);
                       labels_item := Some (stored_labels data);
                       get_fault := get_fault w;
                       set_fault := set_fault w |})
  end.

(** [e => new Error(`${what}: ${e.message}`)], the wrapper every exported
    function puts around its body. *)
Definition wrap (what : string) (e : JsError) : JsError :=
  Error (what +:+ ": " +:+ err_message e).

Definition getAllPrompts (w : World) : Result (list Prompt) :=
  match getStorageData w with
  | Ok data => Ok (prompts data)
  | Throw e => Throw (wrap "Failed to get all prompts" e)
  end.

Definition getPrompt (w : World) (n : string) : Result (option Prompt) :=
  match getAllPrompts w with
  | Ok ps => Ok (List.find (fun p => String.eqb (name p) n) ps)
  | Throw e => Throw (wrap ("Failed to get prompt " +:+ quoted n) e)
  end.

(** [l.findIndex(p)], with [None] for -1. *)
Fixpoint findIndex {A} (p : A -> bool) (l : list A) : option nat :=
  match l with
  | [] => None
  | x :: r => if p x then Some 0%nat else S <$> findIndex p r
  end.

Definition blank (s : string) : bool :=
  (is_empty s || is_empty (trim s))%bool.

Definition savePrompt (w : World) (prompt : Prompt) : Result unit * World :=
  if blank (name prompt) then
    (Throw (Error "Prompt name cannot be empty"), w)
  else
    let failed e :=
      wrap ("Failed to save prompt " +:+ quoted (name prompt)) e in
    match getStorageData w with
    | Throw e => (Throw (failed e), w)
    | Ok data =>
        let ps :=
          match findIndex (fun p => String.eqb (name p) (name prompt))
                  (prompts data) with
          | Some existingIndex => <[existingIndex := prompt]> (prompts data)
          | None => prompts data ++ [prompt]
          end in
        match saveStorageData w {| prompts := ps;
                                   stored_labels := stored_labels data |} with
        | (Ok _, w') => (Ok tt, w')
        | (Throw e, w') => (Throw (failed e), w')
        end
    end.

Definition getAllLabels (w : World) : Result (list Label) :=
  match getStorageData w with
  | Ok data => Ok (stored_labels data)
  | Throw e => Throw (wrap "Failed to get all labels" e)
  end.

(** [labelName === oldName ? label.name : labelName] *)
Definition renamed (oldName newName labelName : string) : string :=
  if String.eqb labelName oldName then newName else labelName.

Definition rename_in (oldName newName : string) (p : Prompt) : Prompt := {|
  name := name p;
  content := content p;
  labels := map (renamed oldName newName) (labels p);
  originalContent := originalContent p;
|}.

(** The rename branch of [saveLabel], [oldName] being defined and
    different from [label.name]. *)
Definition rename_label (w : World) (data : StorageData) (label : Label)
  (oldName : string) : Result unit * World :=
  match findIndex (fun l => String.eqb (label_name l) oldName)
          (stored_labels data) with
  | None =>
      (Throw (Error ("Cannot rename label " +:+ quoted oldName
                     +:+ ": label not found")), w)
  | Some oldLabelIndex =>
      match List.find
              (fun l => (String.eqb (label_name l) (label_name label)
                         && negb (String.eqb (label_name l) oldName))%bool)
              (stored_labels data) with
      | Some conflictingLabel =>
          (Throw (Error ("Cannot rename label " +:+ quoted oldName
                         +:+ " to " +:+ quoted (label_name label)
                         +:+ ": a label with that name already exists")),
           w)
      | None =>
          saveStorageData w
            {| prompts := map (rename_in oldName (label_name label))
                            (prompts data);
               stored_labels :=
                 <[oldLabelIndex := label]> (stored_labels data) |}
      end
  end.

(** The other branch: create the label, or update the one of that name. *)
Definition upsert_label (w : World) (data : StorageData) (label : Label)
  : Result unit * World :=
  let same l := String.eqb (label_name l) (label_name label) in
  match findIndex same (stored_labels data) with
  | Some existingIndex =>
      saveStorageData w
        {| prompts := prompts data;
           stored_labels := <[existingIndex := label]> (stored_labels data) |}
  | None =>
      match List.find same (stored_labels data) with
      | Some duplicate =>
          (Throw (Error ("Label with name " +:+ quoted (label_name label)
                         +:+ " already exists")), w)
      | None =>
          saveStorageData w
            {| prompts := prompts data;
               stored_labels := stored_labels data ++ [label] |}
      end
  end.

(** The body of the [try] in [saveLabel]. *)
Definition saveLabel_body (w : World) (label : Label)
  (oldName : option string) : Result unit * World :=
  match getStorageData w with
  | Throw e => (Throw e, w)
  | Ok data =>
      match oldName with
      | Some o =>
          if negb (String.eqb o (label_name label))
          then rename_label w data label o
          else upsert_label w data label
      | None => upsert_label w data label
      end
  end.


(** [m.startsWith(p)] *)
Definition startsWith (p m : string) : bool := String.prefix p m.

Definition saveLabel (w : World) (label : Label) (oldName : option string)
  : Result unit * World :=
  if blank (label_name label) then
    (Throw (Error "Label name cannot be empty"), w)
  else
    match saveLabel_body w label oldName with
    | (Ok _, w') => (Ok tt, w')
    | (Throw error, w') =>
        if (startsWith "Cannot rename" (err_message error)
            || startsWith "Label with name" (err_message error))%bool
        then (Throw error, w')
        else (Throw (wrap ("Failed to save label "
                           +:+ quoted (label_name label)) error), w')
    end.

(** [prompt.labels.includes(name)] *)
Definition includes (n : string) (l : list string) : bool :=
  existsb (String.eqb n) l.

Definition without (n : string) (p : Prompt) : Prompt :=
  if includes n (labels p) then
    {| name := name p;
       content := content p;
       labels := List.filter (fun labelName => negb (String.eqb labelName n))
                   (labels p);
       originalContent := originalContent p |}
  else p.

Definition deleteLabel (w : World) (n : string) : Result unit * World :=
  let failed e := wrap ("Failed to delete label " +:+ quoted n) e in
  match getStorageData w with
  | Throw e => (Throw (failed e), w)
  | Ok data =>
      let initialLabelLength := length (stored_labels data) in
      let labels' :=
        List.filter (fun l => negb (String.eqb (label_name l) n))
          (stored_labels data) in
      let promptsChanged :=
        existsb (fun p => includes n (labels p)) (prompts data) in
      let prompts' := map (without n) (prompts data) in
      if ((length labels' <? initialLabelLength)%nat || promptsChanged)%bool
      then
        match saveStorageData w {| prompts := prompts';
                                   stored_labels := labels' |} with
        | (Ok _, w') => (Ok tt, w')
        | (Throw e, w') => (Throw (failed e), w')
        end
      else (Ok tt, w)
  end.

Definition deletePrompt (w : World) (n : string) : Result unit * World :=
  let failed e := wrap ("Failed to delete prompt " +:+ quoted n) e in
  match getStorageData w with
  | Throw e => (Throw (failed e), w)
  | Ok data =>
      let initialLength := length (prompts data) in
      let kept :=
        List.filter (fun p => negb (String.eqb (name p) n)) (prompts data) in
      if (length kept <? initialLength)%nat then
        match saveStorageData w {| prompts := kept;
                                   stored_labels := stored_labels data |} with
        | (Ok _, w') => (Ok tt, w')
        | (Throw e, w') => (Throw (failed e), w')
        end
      else (Ok tt, w)
  end.

End Storage.

(* ===================================================================== *)
(** ** The messages between the side panel and the service worker         *)
(* ===================================================================== *)

Module Messaging.

Inductive Role : Type := user | assistant.

Record ConversationMessage : Type := { role : Role; content : string }.

(** The fields of a response that the refinement flow reads. *)
Record Response : Type := {
  success : bool;
  error : option string;
  questions : option (list string);
  missing : option (list string);
  importanceScore : option Z;
  refinedText : option string;
}.

Definition failure (message : string) : Response := {|
  success := false; error := Some message; questions := None;
  missing := None; importanceScore := None; refinedText := None;
|}.

(** [x || fallback] on an optional string. *)
Definition or_else (x : option string) (fallback : string) : string :=
  match x with
  | Some s => if truthy s then s else fallback
  | None => fallback
  end.

End Messaging.

(* ===================================================================== *)
(** ** refinePrompt.ts, first operation                                   *)
(* ===================================================================== *)

Module RefinePrompt.
Import Providers.

(** The result of [generateClarifyingQuestions], with the three fields
    that background.ts reads from it. *)
Record ClarificationResult : Type := {
  questions : list string;
  missing : list string;
  importanceScore : Z;
}.

(** Modelled from the spec: the failure of step 1 of Operation A, raised
    for an empty prompt text; refinePrompt.ts is not among the sources. *)
Definition InvalidInputError : JsError :=
  {| err_name := "InvalidInputError";
     err_message := "Prompt text must not be empty" |}.

(** Modelled from the spec: the failure of step 6 of Operation A, the
    wrapper around an error of the chat client; it keeps the message of
    its cause. *)
Definition RefinementProviderError (cause : JsError) : JsError :=
  {| err_name := "RefinementProviderError";
     err_message := err_message cause |}.

Section OperationA.

(** Step 2: the active provider and its key for the selected id, or the
    failure that says none is configured. *)
Variable resolve : jsval -> Result (ProviderConfig * string).
(** Step 3: the single request built from the three texts. *)
Variable build : ProviderConfig -> string -> string -> string
                 -> ApiAdapter.ChatCompletionRequest.
(** Step 4: the model's structured output, read from its text. *)
Variable parse : string -> Result ClarificationResult.
Variable fetch : ApiAdapter.Fetch.

(** Modelled from the spec: [generateClarifyingQuestions] of
    refinePrompt.ts, a file of this repository that is not among the
    sources; only its import and its call in background.ts are.  The
    definition follows the six steps of Operation A: validate the prompt
    text, resolve provider and key, make one call of the chat client,
    parse, keep at most the first three questions in the model's order,
    and wrap a failure of the chat client. *)
Definition generateClarifyingQuestions
  (promptText contextText labelHint : string) (providerId : jsval)
  : Result ClarificationResult :=
  if is_empty promptText then Throw InvalidInputError
  else
    bind (resolve providerId) (fun active =>
    match (ApiAdapter.chatCompletion fetch active.1 active.2
             (build active.1 promptText contextText labelHint)).2 with
    | Throw e => Throw (RefinementProviderError e)
    | Ok reply =>
        bind (parse (ApiAdapter.resp_content reply)) (fun proposed =>
        Ok {| questions := take 3 (questions proposed);
              missing := missing proposed;
              importanceScore := importanceScore proposed |})
    end).

End OperationA.

End RefinePrompt.

(* ===================================================================== *)
(** ** background.ts: the handlers of the refinement flow                 *)
(* ===================================================================== *)

Module Background.
Import Messaging.

Record GenerateClarifyingQuestionsMessage : Type := {
  promptContent : option string;
  labelContext : option string;
  label : option string;
}.

(** [!message.promptContent || message.promptContent.trim() === ""] *)
Definition missing_prompt (p : option string) : bool :=
  match p with
  | None => true
  | Some s => (is_empty s || is_empty (trim s))%bool
  end.

(** The handler's [catch]: [error.message] becomes the response's
    [error]. *)
Definition caught (e : JsError) : Response := failure (err_message e).

(** [generate] is the imported [generateClarifyingQuestions]. *)
Definition handleGenerateClarifyingQuestions
  (getSelectedProvider : Result jsval)
  (generate : string -> string -> string -> jsval
              -> Result RefinePrompt.ClarificationResult)
  (message : GenerateClarifyingQuestionsMessage) : Response :=
  match promptContent message with
  | None => failure "Prompt content is required"
  | Some content =>
      if missing_prompt (Some content) then
        failure "Prompt content is required"
      else
        let labelContext := or_else (labelContext message) "" in
        let label := or_else (label message) "" in
        match getSelectedProvider with
        | Throw e => caught e
        | Ok providerId =>
            match generate content labelContext label providerId with
            | Throw e => caught e
            | Ok result =>
                {| success := true;
                   error := None;
                   questions := Some (RefinePrompt.questions result);
                   missing := Some (RefinePrompt.missing result);
                   importanceScore :=
                     Some (RefinePrompt.importanceScore result);
                   refinedText := None |}
            end
        end
  end.

(** What the imported [generateFinalRefinedPrompt] resolves to, as far as
    the handler reads it. *)
Record RefinementResult : Type := {
  refinedPrompt : string;
  refinement_importanceScore : Z;
}.

Record GenerateFinalRefinedPromptMessage : Type := {
  final_promptContent : option string;
  final_labelContext : option string;
  final_label : option string;
  conversationHistory : option (list ConversationMessage);
}.

(** [generateFinal] is the imported [generateFinalRefinedPrompt].  An empty
    array passes the test on [conversationHistory]. *)
Definition handleGenerateFinalRefinedPrompt
  (getSelectedProvider : Result jsval)
  (generateFinal : string -> string -> string -> list ConversationMessage
                   -> jsval -> Result RefinementResult)
  (message : GenerateFinalRefinedPromptMessage) : Response :=
  match final_promptContent message with
  | None => failure "Prompt content is required"
  | Some content =>
      if missing_prompt (Some content) then
        failure "Prompt content is required"
      else
        match conversationHistory message with
        | None => failure "Conversation history is required"
        | Some history =>
            let labelContext := or_else (final_labelContext message) "" in
            let label := or_else (final_label message) "" in
            match getSelectedProvider with
            | Throw e => caught e
            | Ok providerId =>
                match generateFinal content labelContext label history
                        providerId with
                | Throw e => caught e
                | Ok result =>
                    {| success := true;
                       error := None;
                       questions := None;
                       missing := None;
                       importanceScore :=
                         Some (refinement_importanceScore result);
                       refinedText := Some (refinedPrompt result) |}
                end
            end
        end
  end.

(** [handleConnectionMessage] rebuilds the posted message field by field,
    [...(message.f && { f: message.f })]: a field reaches the handler only
    when it is truthy.  An array, empty or not, is. *)
Definition forwarded (field : string) : option string :=
  if truthy field then Some field else None.

Definition received_final (promptContent labelContext label : string)
  (history : list ConversationMessage) : GenerateFinalRefinedPromptMessage := {|
  final_promptContent := forwarded promptContent;
  final_labelContext := forwarded labelContext;
  final_label := forwarded label;
  conversationHistory := Some history;
|}.

(** *** The handlers of the store *)

(** The fields of a response that the handlers of prompts and labels set. *)
Record StoreResponse : Type := {
  store_success : bool;
  store_error : option string;
  prompts : option (list Storage.Prompt);
  labels : option (list Storage.Label);
}.

Definition store_failure (message : string) : StoreResponse := {|
  store_success := false; store_error := Some message;
  prompts := None; labels := None;
|}.

Definition handleGetPrompts (w : Storage.World) : StoreResponse :=
  match Storage.getAllPrompts w with
  | Ok ps => {| store_success := true; store_error := None;
                prompts := Some ps; labels := None |}
  | Throw e => store_failure (err_message e)
  end.

Definition handleGetLabels (w : Storage.World) : StoreResponse :=
  match Storage.getAllLabels w with
  | Ok ls => {| store_success := true; store_error := None;
                prompts := None; labels := Some ls |}
  | Throw e => store_failure (err_message e)
  end.

(** [Promise.all([getAllLabels(), getAllPrompts()])] and the response
    built from the two lists. *)
Definition labels_and_prompts (w : Storage.World) : StoreResponse :=
  match Storage.getAllLabels w with
  | Throw e => store_failure (err_message e)
  | Ok ls =>
      match Storage.getAllPrompts w with
      | Throw e => store_failure (err_message e)
      | Ok ps => {| store_success := true; store_error := None;
                    prompts := Some ps; labels := Some ls |}
      end
  end.

Definition handleSavePrompt (w : Storage.World)
  (prompt : option Storage.Prompt) : StoreResponse * Storage.World :=
  match prompt with
  | None => (store_failure "Prompt object is required", w)
  | Some prompt =>
      if Storage.blank (Storage.name prompt) then
        (store_failure "Prompt name cannot be empty", w)
      else
        match Storage.savePrompt w prompt with
        | (Throw e, w') => (store_failure (err_message e), w')
        | (Ok _, w') => (handleGetPrompts w', w')
        end
  end.

(** [!message.name || message.name.trim() === ""] *)
Definition missing_name (n : option string) : bool :=
  match n with
  | None => true
  | Some s => Storage.blank s
  end.

Definition handleDeletePrompt (w : Storage.World) (n : option string)
  : StoreResponse * Storage.World :=
  match n with
  | None => (store_failure "Prompt name is required", w)
  | Some n =>
      if missing_name (Some n) then
        (store_failure "Prompt name is required", w)
      else
        match Storage.deletePrompt w n with
        | (Throw e, w') => (store_failure (err_message e), w')
        | (Ok _, w') => (handleGetPrompts w', w')
        end
  end.

Definition handleSaveLabel (w : Storage.World)
  (label : option Storage.Label) (oldName : option string)
  : StoreResponse * Storage.World :=
  match label with
  | None => (store_failure "Label object is required", w)
  | Some label =>
      if Storage.blank (Storage.label_name label) then
        (store_failure "Label name cannot be empty", w)
      else
        match Storage.saveLabel w label oldName with
        | (Throw e, w') => (store_failure (err_message e), w')
        | (Ok _, w') => (labels_and_prompts w', w')
        end
  end.

Definition handleDeleteLabel (w : Storage.World) (n : option string)
  : StoreResponse * Storage.World :=
  match n with
  | None => (store_failure "Label name is required", w)
  | Some n =>
      if missing_name (Some n) then
        (store_failure "Label name is required", w)
      else
        match Storage.deleteLabel w n with
        | (Throw e, w') => (store_failure (err_message e), w')
        | (Ok _, w') => (labels_and_prompts w', w')
        end
  end.

(** *** refinePrompt *)

Definition line_feed : string := String (ascii_of_nat 10) EmptyString.

(** The context text of [handleRefinePrompt], from the labels already
    read: [relevantLabels.map(...).join("\n\n")]. *)
Definition contextParts (prompt : Storage.Prompt)
  (allLabels : list Storage.Label) : string :=
  String.concat (line_feed +:+ line_feed)
    (map (fun l => "[" +:+ Storage.label_name l +:+ "]: "
                   +:+ Storage.context l)
       (List.filter
          (fun l => Storage.includes (Storage.label_name l)
                      (Storage.labels prompt))
          allLabels)).

(** What the imported [refinePrompt] resolves to, as the handler reads it:
    [result.success] tells the refined prompt from the questions. *)
Inductive RefinePromptResult : Type :=
| Refined (refinedPrompt : string) (importanceScore : Z)
| Clarify (questions missing : list string) (importanceScore : Z).

Record RefineResponse : Type := {
  refine_success : bool;
  refine_error : option string;
  refine_refinedText : option string;
  needsClarification : option bool;
  refine_questions : option (list string);
  refine_missing : option (list string);
  refine_importanceScore : option Z;
}.

Definition refine_failure (message : string) : RefineResponse := {|
  refine_success := false; refine_error := Some message;
  refine_refinedText := None; needsClarification := None;
  refine_questions := None; refine_missing := None;
  refine_importanceScore := None;
|}.

(** [refine] is the imported [refinePrompt].  The labels are read only for
    a prompt that has some. *)
Definition handleRefinePrompt (w : Storage.World)
  (getSelectedProvider : Result jsval)
  (refine : string -> string -> string -> jsval -> Result RefinePromptResult)
  (n : option string) : RefineResponse :=
  match n with
  | None => refine_failure "Prompt name is required"
  | Some n =>
      if missing_name (Some n) then refine_failure "Prompt name is required"
      else
        match Storage.getPrompt w n with
        | Throw e => refine_failure (err_message e)
        | Ok None =>
            refine_failure ("Prompt " +:+ quoted n +:+ " not found")
        | Ok (Some prompt) =>
            let context :=
              match Storage.labels prompt with
              | [] => Ok ""
              | _ :: _ =>
                  match Storage.getAllLabels w with
                  | Ok allLabels => Ok (contextParts prompt allLabels)
                  | Throw e => Throw e
                  end
              end in
            match context with
            | Throw e => refine_failure (err_message e)
            | Ok contextText =>
                let labelHint :=
                  match Storage.labels prompt with
                  | first :: _ => first
                  | [] => ""
                  end in
                match getSelectedProvider with
                | Throw e => refine_failure (err_message e)
                | Ok providerId =>
                    match refine (Storage.content prompt) contextText
                            labelHint providerId with
                    | Throw e => refine_failure (err_message e)
                    | Ok (Refined refinedPrompt score) =>
                        {| refine_success := true; refine_error := None;
                           refine_refinedText := Some refinedPrompt;
                           needsClarification := None;
                           refine_questions := None; refine_missing := None;
                           refine_importanceScore := Some score |}
                    | Ok (Clarify qs gaps score) =>
                        {| refine_success := true; refine_error := None;
                           refine_refinedText := None;
                           needsClarification := Some true;
                           refine_questions := Some qs;
                           refine_missing := Some gaps;
                           refine_importanceScore := Some score |}
                    end
                end
            end
        end
  end.

(** *** getSettings *)

Record SettingsResponse : Type := {
  settings_success : bool;
  settings_error : option string;
  providerApiKeys : option json;
  selectedProvider : jsval;
}.

Definition handleGetSettings (c : ProviderStorage.Chrome) : SettingsResponse :=
  let failed e :=
    {| settings_success := false; settings_error := Some (err_message e);
       providerApiKeys := None; selectedProvider := None |} in
  match ProviderStorage.getAllProviderApiKeys c with
  | Throw e => failed e
  | Ok keys =>
      match ProviderStorage.getSelectedProvider c with
      | Throw e => failed e
      | Ok selected =>
          {| settings_success := true; settings_error := None;
             providerApiKeys := Some keys; selectedProvider := selected |}
      end
  end.

End Background.

(* ===================================================================== *)
(** ** ClarificationChat.tsx: the conversation driver                     *)
(* ===================================================================== *)

Module ClarificationChat.
Import Messaging.

Record Props : Type := {
  prompt : Storage.Prompt;
  labels : list Storage.Label;
}.

Definition newline : string := String (ascii_of_nat 10) EmptyString.

(** [labels.filter(...).map(...).join("\n\n")] *)
Definition labelContext (p : Props) : string :=
  String.concat (newline +:+ newline)
    (map (fun l => "[" +:+ Storage.label_name l +:+ "]: "
                   +:+ Storage.context l)
       (List.filter
          (fun l => Storage.includes (Storage.label_name l)
                      (Storage.labels (prompt p)))
          (labels p))).

(** [prompt.labels && prompt.labels.length > 0 ? prompt.labels[0] : ""] *)
Definition labelForGating (p : Props) : string :=
  match Storage.labels (prompt p) with
  | first :: _ => first
  | [] => ""
  end.

(** The two requests the component sends. *)
Inductive Sent : Type :=
| generateClarifyingQuestions (promptContent labelContext label : string)
| generateFinalRefinedPrompt (promptContent labelContext label : string)
    (conversationHistory : list ConversationMessage).

(** What the component does to the outside. *)
Inductive Effect : Type :=
| SendMessage (m : Sent)
| OnComplete (refinedText : string)
| OnCancel
| Alert (message : string).

(** The suspended continuation, if any: an [await] on [sendMessage] or the
    600 ms timer before the next question.  The timer's callback closes
    over [updatedConv] and the next index. *)
Inductive Pending : Type :=
| Idle
| AwaitQuestions
| AwaitDirectRefine
| AwaitTimer (nextIndex : nat) (updatedConv : list ConversationMessage)
| AwaitRefine.

Record State : Type := {
  conversation : list ConversationMessage;
  currentAnswer : string;
  isLoading : bool;
  currentQuestionIndex : nat;
  questions : list string;
  answers : list string;
  isGeneratingQuestions : bool;
  error : option string;
  pending : Pending;
  mounted : bool;
}.

Definition refine_request (p : Props)
  (history : list ConversationMessage) : Sent :=
  generateFinalRefinedPrompt (Storage.content (prompt p)) (labelContext p)
    (labelForGating p) history.

(** The first render and the effect that runs on mount. *)
Definition mount (p : Props) : State * list Effect :=
  ({| conversation := []; currentAnswer := ""; isLoading := false;
      currentQuestionIndex := 0; questions := []; answers := [];
      isGeneratingQuestions := true; error := None;
      pending := AwaitQuestions; mounted := true |},
   [SendMessage (generateClarifyingQuestions
                   (Storage.content (prompt p)) (labelContext p)
                   (labelForGating p))]).

(** The outer [catch] and [finally] of [generateQuestions]. *)
Definition questions_failed (st : State) (errorMessage : string)
  : State * list Effect :=
  ({| conversation := conversation st; currentAnswer := currentAnswer st;
      isLoading := isLoading st;
      currentQuestionIndex := currentQuestionIndex st;
      questions := questions st; answers := answers st;
      isGeneratingQuestions := false; error := Some errorMessage;
      pending := Idle; mounted := false |},
   [Alert errorMessage; OnCancel]).

(** [generateQuestions] from the first [await] on. *)
Definition questions_settled (p : Props) (st : State)
  (r : Result Response) : State * list Effect :=
  match r with
  | Throw e => questions_failed st (err_message e)
  | Ok questionsResponse =>
      match success questionsResponse, Messaging.questions questionsResponse
      with
      | true, Some generatedQuestions =>
          match generatedQuestions with
          | [] =>
              ({| conversation := conversation st;
                  currentAnswer := currentAnswer st;
                  isLoading := isLoading st;
                  currentQuestionIndex := currentQuestionIndex st;
                  questions := generatedQuestions; answers := answers st;
                  isGeneratingQuestions := true; error := error st;
                  pending := AwaitDirectRefine; mounted := mounted st |},
               [SendMessage (refine_request p [])])
          | first :: _ =>
              ({| conversation := [{| role := assistant; content := first |}];
                  currentAnswer := currentAnswer st;
                  isLoading := isLoading st;
                  currentQuestionIndex := currentQuestionIndex st;
                  questions := generatedQuestions; answers := answers st;
                  isGeneratingQuestions := false; error := error st;
                  pending := Idle; mounted := mounted st |},
               [])
          end
      | _, _ =>
          questions_failed st
            (or_else (Messaging.error questionsResponse)
               "Failed to generate questions")
      end
  end.

Definition refine_failed_message : string :=
  "Failed to generate refined prompt. Please check your API key and try again.".

(** [refineResponse.success && refineResponse.refinedText] *)
Definition refined (r : Response) : option string :=
  match success r, refinedText r with
  | true, Some t => if truthy t then Some t else None
  | _, _ => None
  end.

(** [generateQuestions] from the second [await] on: the path of a prompt
    that needed no question.  In its [catch], [questions] is the state of
    the first render, the empty list, so [onCancel] is called. *)
Definition direct_refine_settled (st : State) (r : Result Response)
  : State * list Effect :=
  let finished err out :=
    ({| conversation := conversation st; currentAnswer := currentAnswer st;
        isLoading := isLoading st;
        currentQuestionIndex := currentQuestionIndex st;
        questions := questions st; answers := answers st;
        isGeneratingQuestions := false; error := err;
        pending := Idle; mounted := false |}, out) in
  let failed errorMessage :=
    finished (Some errorMessage) [Alert errorMessage; OnCancel] in
  match r with
  | Throw e => failed (err_message e)
  | Ok refineResponse =>
      match refined refineResponse with
      | Some text => finished (error st) [OnComplete text]
      | None =>
          failed (or_else (Messaging.error refineResponse)
                    refine_failed_message)
      end
  end.

(** [currentQuestionIndex < questions.length - 1] *)
Definition more_questions (st : State) : bool :=
  (Z.of_nat (currentQuestionIndex st)
   <? Z.of_nat (length (questions st)) - 1)%Z.

Definition handleSend (p : Props) (st : State) : State * list Effect :=
  if (is_empty (trim (currentAnswer st)) || isLoading st)%bool then (st, [])
  else
    let answer := trim (currentAnswer st) in
    let updatedConv :=
      conversation st ++ [{| role := user; content := answer |}] in
    let sent pend :=
      {| conversation := updatedConv; currentAnswer := "";
         isLoading := true;
         currentQuestionIndex := currentQuestionIndex st;
         questions := questions st; answers := answers st ++ [answer];
         isGeneratingQuestions := isGeneratingQuestions st;
         error := error st; pending := pend; mounted := mounted st |} in
    if more_questions st then
      (sent (AwaitTimer (currentQuestionIndex st + 1) updatedConv), [])
    else
      (sent AwaitRefine, [SendMessage (refine_request p updatedConv)]).

(** The timer's callback.  [questions[nextIndex]] is in range, by the test
    that scheduled the timer. *)
Definition timer_fired (st : State) (nextIndex : nat)
  (updatedConv : list ConversationMessage) : State * list Effect :=
  ({| conversation :=
        updatedConv ++ [{| role := assistant;
                           content := default "" (questions st !! nextIndex) |}];
      currentAnswer := currentAnswer st; isLoading := false;
      currentQuestionIndex := nextIndex;
      questions := questions st; answers := answers st;
      isGeneratingQuestions := isGeneratingQuestions st;
      error := error st; pending := Idle; mounted := mounted st |}, []).

Definition handleAnswerLater (p : Props) (st : State)
  : State * list Effect :=
  if (isLoading st || isGeneratingQuestions st)%bool then (st, [])
  else if more_questions st then
    let nextIndex := (currentQuestionIndex st + 1)%nat in
    ({| conversation :=
          conversation st
          ++ [{| role := assistant;
                 content := default "" (questions st !! nextIndex) |}];
        currentAnswer := currentAnswer st; isLoading := false;
        currentQuestionIndex := nextIndex;
        questions := questions st; answers := answers st;
        isGeneratingQuestions := isGeneratingQuestions st;
        error := error st; pending := Idle; mounted := mounted st |}, [])
  else
    ({| conversation := conversation st; currentAnswer := currentAnswer st;
        isLoading := true;
        currentQuestionIndex := currentQuestionIndex st;
        questions := questions st; answers := answers st;
        isGeneratingQuestions := isGeneratingQuestions st;
        error := error st; pending := AwaitRefine; mounted := mounted st |},
     [SendMessage (refine_request p (conversation st))]).

(** [handleSend] and [handleAnswerLater] from their [await] on; the two
    continuations are the same text.  A failure leaves the chat open. *)
Definition refine_settled (st : State) (r : Result Response)
  : State * list Effect :=
  let finished err alive out :=
    ({| conversation := conversation st; currentAnswer := currentAnswer st;
        isLoading := false;
        currentQuestionIndex := currentQuestionIndex st;
        questions := questions st; answers := answers st;
        isGeneratingQuestions := isGeneratingQuestions st; error := err;
        pending := Idle; mounted := alive |}, out) in
  let failed errorMessage :=
    finished (Some errorMessage) (mounted st) [Alert errorMessage] in
  match r with
  | Throw e => failed (err_message e)
  | Ok refineResponse =>
      match refined refineResponse with
      | Some text => finished (error st) false [OnComplete text]
      | None =>
          failed (or_else (Messaging.error refineResponse)
                    refine_failed_message)
      end
  end.

(** What can happen to a mounted component. *)
Inductive Event : Type :=
| Typed (text : string)
| SendClicked
| AnswerLaterClicked
| Settled (r : Result Response)
| TimerFired.

(** The text area and the send button are disabled while loading or
    generating. *)
Definition input_disabled (st : State) : bool :=
  (isLoading st || isGeneratingQuestions st)%bool.

(** "Answer later" is rendered under the last message when that is a
    question and nothing is loading. *)
Definition answer_later_shown (st : State) : bool :=
  match last (conversation st) with
  | Some m =>
      match role m with
      | assistant => negb (input_disabled st)
      | user => false
      end
  | None => false
  end.

Definition setCurrentAnswer (st : State) (text : string) : State :=
  {| conversation := conversation st; currentAnswer := text;
     isLoading := isLoading st;
     currentQuestionIndex := currentQuestionIndex st;
     questions := questions st; answers := answers st;
     isGeneratingQuestions := isGeneratingQuestions st;
     error := error st; pending := pending st; mounted := mounted st |}.

Definition step (p : Props) (st : State) (ev : Event)
  : State * list Effect :=
  if negb (mounted st) then (st, [])
  else
    match ev with
    | Typed text =>
        if input_disabled st then (st, [])
        else (setCurrentAnswer st text, [])
    | SendClicked =>
        if input_disabled st then (st, []) else handleSend p st
    | AnswerLaterClicked =>
        if answer_later_shown st then handleAnswerLater p st else (st, [])
    | Settled r =>
        match pending st with
        | AwaitQuestions => questions_settled p st r
        | AwaitDirectRefine => direct_refine_settled st r
        | AwaitRefine => refine_settled st r
        | _ => (st, [])
        end
    | TimerFired =>
        match pending st with
        | AwaitTimer nextIndex updatedConv =>
            timer_fired st nextIndex updatedConv
        | _ => (st, [])
        end
    end.

(** A run: the effects of a sequence of events, in order. *)
Fixpoint run (p : Props) (st : State) (evs : list Event)
  : State * list Effect :=
  match evs with
  | [] => (st, [])
  | ev :: rest =>
      let (st1, out1) := step p st ev in
      let (st2, out2) := run p st1 rest in
      (st2, out1 ++ out2)
  end.

(** The component once Operation A has answered with [qs]. *)
Definition asked (p : Props) (qs : list string) : State * list Effect :=
  step p (mount p).1
    (Settled (Ok {| success := true; Messaging.error := None;
                    Messaging.questions := Some qs;
                    missing := None; importanceScore := None;
                    refinedText := None |})).

(** The transcripts handed to Operation B, in order. *)
Fixpoint transcripts (out : list Effect)
  : list (list ConversationMessage) :=
  match out with
  | [] => []
  | SendMessage (generateFinalRefinedPrompt _ _ _ history) :: rest =>
      history :: transcripts rest
  | _ :: rest => transcripts rest
  end.

(** The transcript of the specification: one assistant turn per question,
    in order, each followed by the user's answer unless the question was
    deferred. *)
Fixpoint transcript_of (qs : list string) (given : list (option string))
  : list ConversationMessage :=
  match qs, given with
  | q :: qs', a :: given' =>
      {| role := assistant; content := q |}
      :: match a with
         | Some text => [{| role := user; content := text |}]
         | None => []
         end
      ++ transcript_of qs' given'
  | _, _ => []
  end.

Definition well_formed (qs : list string)
  (history : list ConversationMessage) : Prop :=
  exists given : list (option string),
    length given = length qs /\ history = transcript_of qs given.

(** What the user does with one question: answer with a text, or defer. *)
Definition events_of (last_question : bool) (action : option string)
  : list Event :=
  match action with
  | Some text =>
      if last_question then [Typed text; SendClicked]
      else [Typed text; SendClicked; TimerFired]
  | None => [AnswerLaterClicked]
  end.

Fixpoint dialogue (actions : list (option string)) : list Event :=
  match actions with
  | [] => []
  | [a] => events_of true a
  | a :: rest => events_of false a ++ dialogue rest
  end.

End ClarificationChat.

(* ===================================================================== *)
(** ** PromptEditor.tsx: the editor state                                 *)
(* ===================================================================== *)

Module PromptEditor.
Import Storage.

(** What the [onComplete] handed to a chat closes over: the [content] and
    the [originalContentBeforeRefinement] of the render that showed the
    chat. *)
Record Closure : Type := {
  seen_content : string;
  seen_original : option string;
}.

(** The state of the hooks, and [chats]: the chats opened so far, in
    order, each with the closure it was handed, [None] once it has called
    [onComplete].  A chat that is left by its back arrow is unmounted, but
    the request it waits for is not cancelled, and the chat calls its
    [onComplete] when that request succeeds. *)
Record State : Type := {
  ed_name : string;
  ed_content : string;
  selectedLabel : option string;
  showClarification : bool;
  showToast : bool;
  toastMessage : string;
  originalContentBeforeRefinement : option string;
  chats : list (option Closure);
}.

(** Truthiness of [string | undefined]. *)
Definition is_set (o : option string) : bool :=
  match o with
  | Some s => truthy s
  | None => false
  end.

(** The initial values of the [useState] hooks.  The effect that copies
    the props into the state again runs when the parent hands over another
    prompt; during one editing session the props stay as they are. *)
Definition init (prompt : Prompt) : State := {|
  ed_name := name prompt;
  ed_content := content prompt;
  selectedLabel := head (labels prompt);
  showClarification := false;
  showToast := false;
  toastMessage := "";
  originalContentBeforeRefinement := originalContent prompt;
  chats := [];
|}.

(** The [onComplete] handed to a chat, called in the state [st]: it reads
    [content] and [originalContentBeforeRefinement] from its closure
    [seen], and its setters write the state of the call. *)
Definition onComplete (seen : Closure) (st : State) (refined : string)
  : State :=
  let wasRefined :=
    negb (String.eqb (trim refined) (trim (seen_content seen))) in
  {| ed_name := ed_name st;
     ed_content := refined;
     selectedLabel := selectedLabel st;
     showClarification := false;
     showToast := if wasRefined then true else showToast st;
     toastMessage := if wasRefined then "Prompt refined successfully"
                     else toastMessage st;
     originalContentBeforeRefinement :=
       if (wasRefined && negb (is_set (seen_original seen)))%bool
       then Some (seen_content seen)
       else originalContentBeforeRefinement st;
     chats := chats st |}.

(** The object built by the Save button: [selectedLabel ? [selectedLabel]
    : []], and [originalContent] spread in only when the archived text is
    truthy. *)
Definition savedPrompt (st : State) : Prompt := {|
  name := ed_name st;
  content := ed_content st;
  labels := match selectedLabel st with
            | Some l => if truthy l then [l] else []
            | None => []
            end;
  originalContent :=
    if is_set (originalContentBeforeRefinement st)
    then originalContentBeforeRefinement st
    else None;
|}.

(** [ChatCompleted chat refined]: the chat opened as number [chat],
    counted from 0, calls its [onComplete].  [ChatCancelled]: the back
    arrow of the chat shown, or the [onCancel] that a chat calls after a
    failure. *)
Inductive Event : Type :=
| NameEdited (text : string)
| ContentEdited (text : string)
| LabelClicked (l : string)
| RefineClicked
| ChatCompleted (chat : nat) (refined : string)
| ChatCancelled
| ToastClosed
| SaveClicked.

Inductive Effect : Type :=
| OnSave (p : Prompt).

Definition with_fields (st : State) (n c : string) (l : option string)
  (chat toast : bool) : State :=
  {| ed_name := n; ed_content := c; selectedLabel := l;
     showClarification := chat; showToast := toast;
     toastMessage := toastMessage st;
     originalContentBeforeRefinement :=
       originalContentBeforeRefinement st;
     chats := chats st |}.

Definition with_chats (st : State) (cs : list (option Closure)) : State :=
  {| ed_name := ed_name st; ed_content := ed_content st;
     selectedLabel := selectedLabel st;
     showClarification := showClarification st;
     showToast := showToast st; toastMessage := toastMessage st;
     originalContentBeforeRefinement :=
       originalContentBeforeRefinement st;
     chats := cs |}.

(** The render that shows a chat hands it this closure. *)
Definition closure_of (st : State) : Closure := {|
  seen_content := ed_content st;
  seen_original := originalContentBeforeRefinement st;
|}.

(** While the chat is shown the form is not rendered, and conversely.  A
    chat calls its [onComplete] whether or not it is still shown. *)
Definition step (st : State) (ev : Event) : State * list Effect :=
  let keep := (st, []) in
  let form (st' : State) := if showClarification st then keep else (st', [])
  in
  match ev with
  | NameEdited text =>
      form (with_fields st text (ed_content st) (selectedLabel st)
              (showClarification st) (showToast st))
  | ContentEdited text =>
      form (with_fields st (ed_name st) text (selectedLabel st)
              (showClarification st) (showToast st))
  | LabelClicked l =>
      form (with_fields st (ed_name st) (ed_content st)
              (match selectedLabel st with
               | Some current =>
                   if String.eqb current l then None else Some l
               | None => Some l
               end)
              (showClarification st) (showToast st))
  | RefineClicked =>
      if is_empty (trim (ed_content st)) then keep
      else form (with_chats
                   (with_fields st (ed_name st) (ed_content st)
                      (selectedLabel st) true (showToast st))
                   (chats st ++ [Some (closure_of st)]))
  | ChatCompleted chat refined =>
      match chats st !! chat with
      | Some (Some seen) =>
          (with_chats (onComplete seen st refined)
             (<[chat := None]> (chats st)), [])
      | _ => keep
      end
  | ChatCancelled =>
      if showClarification st
      then (with_fields st (ed_name st) (ed_content st) (selectedLabel st)
              false (showToast st), [])
      else keep
  | ToastClosed =>
      form (with_fields st (ed_name st) (ed_content st) (selectedLabel st)
              (showClarification st) false)
  | SaveClicked =>
      if showClarification st then keep else (st, [OnSave (savedPrompt st)])
  end.

Fixpoint run (st : State) (evs : list Event) : State * list Effect :=
  match evs with
  | [] => (st, [])
  | ev :: rest =>
      let (st1, out1) := step st ev in
      let (st2, out2) := run st1 rest in
      (st2, out1 ++ out2)
  end.

(** The chat that is shown, when one is: the one opened last. *)
Definition shown_chat (st : State) : nat := pred (length (chats st)).

(** Every completion among the events comes from the chat that is shown
    when it arrives. *)
Fixpoint timely (st : State) (evs : list Event) : bool :=
  match evs with
  | [] => true
  | ev :: rest =>
      (match ev with
       | ChatCompleted chat _ =>
           showClarification st && Nat.eqb chat (shown_chat st)
       | _ => true
       end
       && timely (step st ev).1 rest)%bool
  end.

End PromptEditor.

(* ===================================================================== *)
(** ** SidePanelShell.tsx and errors.ts: refining from the shell          *)
(* ===================================================================== *)

Module SidePanelShell.

(** [new ClarificationNeededError(question)] of errors.ts. *)
Definition ClarificationNeededError (question : string) : JsError :=
  {| err_name := "ClarificationNeededError";
     err_message := "Clarification needed" |}.

(** The fields of [BackgroundResponse] that [handleRefineInEditor] reads. *)
Record BackgroundResponse : Type := {
  success : bool;
  error : option string;
  refinedText : option string;
  needsClarification : option bool;
  question : option string;
}.

(** What reaches the shell of a response of [handleRefinePrompt]: the port
    spreads the fields of the response as they are, and that response has
    [questions], never [question]. *)
Definition delivered (r : Background.RefineResponse) : BackgroundResponse := {|
  success := Background.refine_success r;
  error := Background.refine_error r;
  refinedText := Background.refine_refinedText r;
  needsClarification := Background.needsClarification r;
  question := None;
|}.

Definition truthy_text (o : option string) : bool :=
  match o with
  | Some s => truthy s
  | None => false
  end.

(** [handleRefineInEditor]: what the promise settles to, and the value the
    handler leaves in the shell's [error] state ([setError(null)] first,
    [setError(message)] in the [catch] unless clarification is asked for). *)
Definition handleRefineInEditor (promptName : string)
  (sent : Result BackgroundResponse) : Result string * option string :=
  let failed (e : JsError) : Result string * option string :=
    (Throw e, Some (err_message e)) in
  if Storage.blank promptName then
    failed (Error "Please save the prompt first before refining, or enter a name")
  else
    match sent with
    | Throw e => failed e
    | Ok response =>
        if negb (success response) then
          failed (Error (Messaging.or_else (error response)
                           "Failed to refine prompt"))
        else
          if (default false (needsClarification response)
              && truthy_text (question response))%bool
          then
            (Throw (ClarificationNeededError
                      (default "" (question response))), None)
          else if truthy_text (refinedText response)
          then (Ok (default "" (refinedText response)), None)
          else failed (Error "No refined text returned")
    end.

(** [Object.keys(v).length] for what [getAllProviderApiKeys] resolves to. *)
Definition key_count (v : json) : nat :=
  match v with
  | JObj fields => length fields
  | JArr elements => length elements
  | JStr s => String.length s
  | _ => 0%nat
  end.

(** The value given to [setHasProvider] after [getSettings]. *)
Definition hasProvider (r : Background.SettingsResponse) : bool :=
  if Background.settings_success r then
    let hasSelectedProvider :=
      match Background.selectedProvider r with
      | Some v => ProviderStorage.json_truthy v
      | None => false
      end in
    let hasApiKeys :=
      match Background.providerApiKeys r with
      | Some keys => (0 <? key_count keys)%nat
      | None => false
      end in
    (hasSelectedProvider && hasApiKeys)%bool
  else false.

End SidePanelShell.

(* ===================================================================== *)
(** ** Vocabulary of the statements                                       *)
(* ===================================================================== *)

(** The request that [chatCompletion] puts on the wire for a provider, and
    the name under which that provider's adapter reports failures.  Nothing
    is sent for an id outside the table. *)
Definition wire_request (provider : Providers.ProviderConfig)
  (apiKey model : string) (messages : list ApiAdapter.ChatMessage)
  (temperature : Q) : option ApiAdapter.HttpRequest :=
  let base := Providers.apiBaseUrl provider in
  if String.eqb (Providers.id provider) "openai" then
    Some (ApiAdapter.openAIRequest apiKey base model messages temperature)
  else if String.eqb (Providers.id provider) "anthropic" then
    Some (ApiAdapter.anthropicRequest apiKey base model messages temperature)
  else if String.eqb (Providers.id provider) "google" then
    Some (ApiAdapter.googleRequest apiKey base model messages temperature)
  else None.

Definition reported_as (provider : Providers.ProviderConfig) : string :=
  if String.eqb (Providers.id provider) "openai" then "OpenAI"
  else if String.eqb (Providers.id provider) "anthropic" then "Anthropic"
  else "Google".

(** Where each provider keeps the text of its reply. *)
Definition reply_text (provider : Providers.ProviderConfig)
  (data : json) : Result (option string) :=
  if String.eqb (Providers.id provider) "openai" then
    ApiAdapter.openAIContent data
  else if String.eqb (Providers.id provider) "anthropic" then
    ApiAdapter.anthropicContent data
  else ApiAdapter.googleContent data.

(** What an adapter makes of the settled [fetch]. *)
Definition settle (provider : Providers.ProviderConfig)
  (reply : Result ApiAdapter.HttpResponse)
  : Result ApiAdapter.ChatCompletionResponse :=
  bind reply (fun response =>
  if negb (ApiAdapter.ok response)
  then Throw (ApiAdapter.api_error (reported_as provider) response)
  else
    bind (ApiAdapter.json_body response) (fun data =>
    bind (reply_text provider data) (fun content =>
    ApiAdapter.require_content (reported_as provider) content))).

Definition default_temperature (request : ApiAdapter.ChatCompletionRequest)
  : Q :=
  default (7 # 10)%Q (ApiAdapter.temperature request).

(** The console output is a function of what was asked and of how the
    dispatch ended. *)
Definition log_of (provider : Providers.ProviderConfig)
  (request : ApiAdapter.ChatCompletionRequest)
  (outcome : Result ApiAdapter.ChatCompletionResponse)
  : list ApiAdapter.LogEntry :=
  let requested :=
    ApiAdapter.LLM_REQUEST (Providers.id provider)
      (ApiAdapter.model request) (default_temperature request)
      (ApiAdapter.messages request) in
  match outcome with
  | Ok response =>
      [requested;
       ApiAdapter.LLM_RESPONSE (Providers.id provider)
       (ApiAdapter.model request)
         (slice0 500 (ApiAdapter.resp_content response))]
  | Throw err =>
      [requested;
       ApiAdapter.LLM_ERROR (Providers.id provider)
       (ApiAdapter.model request) (default_temperature request)
         (ApiAdapter.messages request) (err_message err)]
  end.


(** The value found at the provider's text path, before [trim] is called
    on it. *)
Definition text_value (provider : Providers.ProviderConfig) (data : json)
  : Result jsval :=
  if String.eqb (Providers.id provider) "openai" then
    bind (get_strict data "choices") (fun choices =>
    Ok (opt_get (opt_get (opt_get0 choices) "message") "content"))
  else if String.eqb (Providers.id provider) "anthropic" then
    bind (get_strict data "content") (fun blocks =>
    Ok (opt_get (opt_get0 blocks) "text"))
  else
    bind (get_strict data "candidates") (fun candidates =>
    Ok (opt_get (opt_get0 (opt_get (opt_get (opt_get0 candidates) "content")
                             "parts")) "text")).

Definition text_path (provider : Providers.ProviderConfig) : string :=
  if String.eqb (Providers.id provider) "openai" then
    "data.choices?.[0]?.message?.content?"
  else if String.eqb (Providers.id provider) "anthropic" then
    "data.content?.[0]?.text?"
  else "data.candidates?.[0]?.content?.parts?.[0]?.text?".

(** No text there, or a text that is empty once trimmed. *)
Definition no_usable_text (v : jsval) : Prop :=
  v = None \/ v = Some JNull \/ exists s, v = Some (JStr s) /\ trim s = "".

(** The role names on Google's wire. *)
Definition google_role (r : ApiAdapter.Role) : string :=
  match r with
  | ApiAdapter.assistant => "model"
  | _ => "user"
  end.

(** ** Sample inputs *)

Definition unauthorized : ApiAdapter.HttpResponse := {|
  ApiAdapter.status := 401;
  ApiAdapter.statusText := "Unauthorized";
  ApiAdapter.text := Ok "invalid api key";
  ApiAdapter.json_body := Ok JNull;
|}.

Definition server_error : ApiAdapter.HttpResponse := {|
  ApiAdapter.status := 500;
  ApiAdapter.statusText := "Internal Server Error";
  ApiAdapter.text := Ok "overloaded";
  ApiAdapter.json_body := Ok JNull;
|}.

Definition hello : ApiAdapter.ChatCompletionRequest := {|
  ApiAdapter.model := "gpt-4";
  ApiAdapter.messages :=
    [{| ApiAdapter.role := ApiAdapter.system; ApiAdapter.content := "Be brief." |};
     {| ApiAdapter.role := ApiAdapter.user; ApiAdapter.content := "Hello" |}];
  ApiAdapter.temperature := None;
  ApiAdapter.maxTokens := None;
|}.

(** A provider that rejects every key, and repeats in the body of its
    answer the [Authorization] header it was sent. *)
Definition echoing_provider : ApiAdapter.Fetch :=
  fun request => Ok {|
    ApiAdapter.status := 401;
    ApiAdapter.statusText := "Unauthorized";
    ApiAdapter.text :=
      Ok (default "" (assoc "Authorization" (ApiAdapter.req_headers request)));
    ApiAdapter.json_body := Ok JNull;
  |}.

(** A reply with status 200 and the given JSON body. *)
Definition success_reply (data : json) : ApiAdapter.HttpResponse := {|
  ApiAdapter.status := 200;
  ApiAdapter.statusText := "OK";
  ApiAdapter.text := Ok "";
  ApiAdapter.json_body := Ok data;
|}.

(** [{"choices": [{"message": {"content": c}}]}] *)
Definition openai_body (c : json) : json :=
  JObj [("choices", JArr [JObj [("message", JObj [("content", c)])]])].

(** A storage with two labels and three prompts, one of them unlabelled. *)
Definition sample_world : Storage.World := {|
  Storage.prompts_item :=
    Some [ {| Storage.name := "post"; Storage.content := "Write a blog post";
              Storage.labels := ["writing"];
              Storage.originalContent := None |};
           {| Storage.name := "trip"; Storage.content := "Plan a trip";
              Storage.labels := ["travel"; "writing"];
              Storage.originalContent := Some "trip" |};
           {| Storage.name := "note"; Storage.content := "A note";
              Storage.labels := [];
              Storage.originalContent := None |} ];
  Storage.labels_item :=
    Some [ {| Storage.label_name := "writing"; Storage.context := "Prose";
              Storage.icon := None; Storage.color := None |};
           {| Storage.label_name := "travel"; Storage.context := "Journeys";
              Storage.icon := None; Storage.color := None |} ];
  Storage.get_fault := None;
  Storage.set_fault := None;
|}.

Definition essays : Storage.Label := {|
  Storage.label_name := "essays"; Storage.context := "Prose";
  Storage.icon := None; Storage.color := None;
|}.

(** A model that proposes four questions, and one that proposes none. *)
Definition four_questions : RefinePrompt.ClarificationResult := {|
  RefinePrompt.questions :=
    ["Which topic?"; "Which audience?"; "Which tone?"; "How long?"];
  RefinePrompt.missing := ["topic"; "audience"; "tone"; "length"];
  RefinePrompt.importanceScore := 2;
|}.

Definition blog_post : ClarificationChat.Props := {|
  ClarificationChat.prompt :=
    {| Storage.name := "post"; Storage.content := "Write a blog post";
       Storage.labels := []; Storage.originalContent := None |};
  ClarificationChat.labels := [];
|}.

Definition answered (success : bool) (questions : option (list string))
  (refinedText : option string) (error : option string)
  : Messaging.Response := {|
  Messaging.success := success;
  Messaging.error := error;
  Messaging.questions := questions;
  Messaging.missing := None;
  Messaging.importanceScore := None;
  Messaging.refinedText := refinedText;
|}.

(** ** The shape of a clarification dialogue *)

Definition ask (q : string) : Messaging.ConversationMessage :=
  {| Messaging.role := Messaging.assistant; Messaging.content := q |}.

Definition say (a : string) : Messaging.ConversationMessage :=
  {| Messaging.role := Messaging.user; Messaging.content := a |}.

Definition is_question (m : Messaging.ConversationMessage) : bool :=
  match Messaging.role m with
  | Messaging.assistant => true
  | Messaging.user => false
  end.

(** An answer the send button accepts: not blank. *)
Definition sendable (action : option string) : Prop :=
  match action with
  | Some text => is_empty (trim text) = false
  | None => True
  end.

(** The driver shows question [q], after the questions [done] and before
    the questions [rest]; [given] is what the user did with [done]. *)
Definition awaiting_at (qs done : list string) (q : string)
  (rest : list string) (given : list (option string))
  (st : ClarificationChat.State) : Prop :=
  qs = done ++ q :: rest
  /\ length given = length done
  /\ ClarificationChat.questions st = qs
  /\ ClarificationChat.currentQuestionIndex st = length done
  /\ ClarificationChat.conversation st
     = ClarificationChat.transcript_of done given ++ [ask q]
  /\ ClarificationChat.isLoading st = false
  /\ ClarificationChat.isGeneratingQuestions st = false
  /\ ClarificationChat.pending st = ClarificationChat.Idle
  /\ ClarificationChat.mounted st = true.

(** The driver has taken the answer [a] to [q] and waits for the timer
    before it shows [q']. *)
Definition pausing_at (qs done : list string) (q q' : string)
  (rest : list string) (given : list (option string)) (a : string)
  (st : ClarificationChat.State) : Prop :=
  qs = done ++ q :: q' :: rest
  /\ length given = length done
  /\ ClarificationChat.questions st = qs
  /\ ClarificationChat.currentQuestionIndex st = length done
  /\ ClarificationChat.pending st
     = ClarificationChat.AwaitTimer (S (length done))
         (ClarificationChat.transcript_of done given ++ [ask q; say a])
  /\ ClarificationChat.isGeneratingQuestions st = false
  /\ ClarificationChat.isLoading st = true
  /\ ClarificationChat.mounted st = true.

(** Before the first request for the final prompt: one of the two. *)
Definition asking (qs : list string) (st : ClarificationChat.State) : Prop :=
  (exists done q rest given, awaiting_at qs done q rest given st)
  \/ (exists done q q' rest given a, pausing_at qs done q q' rest given a st).

(** The driver is at the last question [q], after the questions [done]:
    the conversation holds what the user did with [done], then [q] and
    the answers sent for it so far, and either a request for the final
    prompt is out or the input is open. *)
Definition closing_at (qs done : list string) (q : string)
  (given : list (option string)) (sent : list string)
  (st : ClarificationChat.State) : Prop :=
  qs = done ++ [q]
  /\ length given = length done
  /\ ClarificationChat.questions st = qs
  /\ ClarificationChat.currentQuestionIndex st = length done
  /\ ClarificationChat.conversation st
     = ClarificationChat.transcript_of done given ++ ask q :: map say sent
  /\ ClarificationChat.isGeneratingQuestions st = false
  /\ ClarificationChat.mounted st = true
  /\ ((ClarificationChat.pending st = ClarificationChat.Idle
       /\ ClarificationChat.isLoading st = false)
      \/ (ClarificationChat.pending st = ClarificationChat.AwaitRefine
          /\ ClarificationChat.isLoading st = true)).

(** Where the driver is once the questions are there. *)
Definition in_dialogue (qs : list string) (st : ClarificationChat.State)
  : Prop :=
  asking qs st
  \/ (exists done q given sent, closing_at qs done q given sent st)
  \/ ClarificationChat.mounted st = false.

(** The shape of a transcript sent for the final prompt: one assistant
    turn per question, in order; each question but the last followed by
    the user's answer or, when it was deferred, by nothing; the last
    followed by the answers sent for it, one in each attempt. *)
Definition retried (qs : list string)
  (history : list Messaging.ConversationMessage) : Prop :=
  exists done q given sent,
    qs = done ++ [q]
    /\ length given = length done
    /\ history
       = ClarificationChat.transcript_of done given ++ ask q :: map say sent.

(** A failed synthesis after the only question was answered, and a second
    answer sent after it. *)
Definition retry_after_failure : list ClarificationChat.Event :=
  [ClarificationChat.Typed "cats"; ClarificationChat.SendClicked;
   ClarificationChat.Settled (Ok (Messaging.failure "Provider unavailable"));
   ClarificationChat.Typed "dogs"; ClarificationChat.SendClicked].

(** A prompt that was refined before, and an editing session on it: a
    second refinement, then a save. *)
Definition refined_before : Storage.Prompt := {|
  Storage.name := "trip";
  Storage.content := "Plan a trip";
  Storage.labels := ["travel"; "writing"];
  Storage.originalContent := Some "trip";
|}.

Definition second_refinement : list PromptEditor.Event :=
  [PromptEditor.RefineClicked;
   PromptEditor.ChatCompleted 0 "Plan a three-day trip to Lisbon";
   PromptEditor.ContentEdited "Plan a three-day trip to Lisbon in May";
   PromptEditor.SaveClicked].

(** Every prompt handed to [onSave] carries [o] as its archived text. *)
Definition saves_keep (o : string) (out : list PromptEditor.Effect) : Prop :=
  Forall (fun e => match e with
                   | PromptEditor.OnSave saved =>
                       Storage.originalContent saved = Some o
                   end) out.

(** While a chat is shown, it is the chat opened last, it has not called
    [onComplete], and what it closed over is what the editor holds. *)
Definition shown_is_current (st : PromptEditor.State) : Prop :=
  PromptEditor.showClarification st = true ->
  last (PromptEditor.chats st) = Some (Some (PromptEditor.closure_of st)).

(** A chat is opened and left by its back arrow while its request is
    pending; the content is edited and refined in a second chat, which
    archives the edited content. *)
Definition refinement_after_a_chat_was_left : list PromptEditor.Event :=
  [PromptEditor.RefineClicked;
   PromptEditor.ChatCancelled;
   PromptEditor.ContentEdited "Write a blog post about owls";
   PromptEditor.RefineClicked;
   PromptEditor.ChatCompleted 1
     "Write a 600-word blog post about owls for beginners"].

(** Then the request of the first chat succeeds, and the prompt is
    saved. *)
Definition late_completion : list PromptEditor.Event :=
  refinement_after_a_chat_was_left
  ++ [PromptEditor.ChatCompleted 0 "Write a blog post on a topic you choose";
      PromptEditor.SaveClicked].

(** ** Vocabulary of the further properties *)

(** The messages with every system message but the first left out. *)
Fixpoint drop_later_systems (seen : bool)
  (messages : list ApiAdapter.ChatMessage) : list ApiAdapter.ChatMessage :=
  match messages with
  | [] => []
  | m :: rest =>
      if ApiAdapter.is_system m then
        if seen then drop_later_systems true rest
        else m :: drop_later_systems true rest
      else m :: drop_later_systems seen rest
  end.

(** An id that [chatCompletion] dispatches to an adapter. *)
Definition dispatched (providerId : string) : bool :=
  (String.eqb providerId "openai" || String.eqb providerId "anthropic"
   || String.eqb providerId "google")%bool.

(** A request with another [maxTokens]. *)
Definition with_maxTokens (request : ApiAdapter.ChatCompletionRequest)
  (cap : option Z) : ApiAdapter.ChatCompletionRequest := {|
  ApiAdapter.model := ApiAdapter.model request;
  ApiAdapter.messages := ApiAdapter.messages request;
  ApiAdapter.temperature := ApiAdapter.temperature request;
  ApiAdapter.maxTokens := cap;
|}.

(** A provider entry outside the table. *)
Definition mistral : Providers.ProviderConfig := {|
  Providers.id := "mistral";
  Providers.name := "Mistral";
  Providers.apiBaseUrl := "https://api.mistral.ai/v1";
  Providers.defaultModel := "mistral-large";
  Providers.models := ["mistral-large"];
  Providers.apiKeyHeader := "Authorization";
|}.

(** The value stored under [provider_api_keys], if any and if truthy, is an
    object: the shape in which this module writes it. *)
Definition keys_object (c : ProviderStorage.Chrome) : Prop :=
  forall v,
    ProviderStorage.items c !! ProviderStorage.PROVIDER_API_KEYS = Some v ->
    ProviderStorage.json_truthy v = true ->
    exists fields, v = JObj fields.

(** A store with a key for OpenAI and Anthropic selected. *)
Definition sample_area : ProviderStorage.Area := {|
  ProviderStorage.area := {|
    ProviderStorage.items :=
      {[ ProviderStorage.PROVIDER_API_KEYS :=
           JObj [("openai", JStr "sk-one")];
         ProviderStorage.SELECTED_PROVIDER := JStr "anthropic" ]};
    ProviderStorage.read_fault := None |};
  ProviderStorage.write_fault := None;
|}.

Definition quota_exceeded : ProviderStorage.Fault :=
  ProviderStorage.LastError "QUOTA_BYTES quota exceeded".

(** The prompts and the labels that a read of the store gives. *)
Definition prompts_of (w : Storage.World) : list Storage.Prompt :=
  default [] (Storage.prompts_item w).

Definition labels_of (w : Storage.World) : list Storage.Label :=
  default [] (Storage.labels_item w).

Definition label_names (w : Storage.World) : list string :=
  map Storage.label_name (labels_of w).

(** No two stored labels have the same name. *)
Definition unique_labels (w : Storage.World) : Prop := NoDup (label_names w).

(** Every label name that a stored prompt carries is the name of a stored
    label. *)
Definition references_resolve (w : Storage.World) : Prop :=
  forall p l,
    In p (prompts_of w) -> In l (Storage.labels p) -> In l (label_names w).

Definition named (n : string) (p : Storage.Prompt) : bool :=
  String.eqb (Storage.name p) n.

Definition labelled (n : string) (l : Storage.Label) : bool :=
  String.eqb (Storage.label_name l) n.

Definition writing : Storage.Label := {|
  Storage.label_name := "writing"; Storage.context := "Prose";
  Storage.icon := None; Storage.color := None;
|}.

(** The sample store when the storage refuses every write. *)
Definition read_only_world : Storage.World := {|
  Storage.prompts_item := Storage.prompts_item sample_world;
  Storage.labels_item := Storage.labels_item sample_world;
  Storage.get_fault := None;
  Storage.set_fault := Some (Storage.LastError "QUOTA_BYTES quota exceeded");
|}.

(** The states of the chat that a sequence of events reaches from the
    first render. *)
Definition reached (p : ClarificationChat.Props)
  (evs : list ClarificationChat.Event) : ClarificationChat.State :=
  (ClarificationChat.run p (ClarificationChat.mount p).1 evs).1.

(** The texts of the user's turns, in order. *)
Definition user_turns (conv : list Messaging.ConversationMessage)
  : list string :=
  map Messaging.content (List.filter (fun m => negb (is_question m)) conv).

(** A text as [handleSend] records it: trimmed, and not empty. *)
Definition accepted (a : string) : Prop :=
  trim a = a /\ is_empty a = false.

(** What the user can do: type, send, or defer. *)
Definition by_user (ev : ClarificationChat.Event) : bool :=
  match ev with
  | ClarificationChat.Typed _ | ClarificationChat.SendClicked
  | ClarificationChat.AnswerLaterClicked => true
  | _ => false
  end.

(** The flags agree with the suspended continuation, the timer holds the
    conversation of the state, and the recorded answers are the user's
    turns. *)
Definition steady (st : ClarificationChat.State) : Prop :=
  ClarificationChat.answers st
  = user_turns (ClarificationChat.conversation st)
  /\ Forall accepted (ClarificationChat.answers st)
  /\ (ClarificationChat.mounted st = true ->
      match ClarificationChat.pending st with
      | ClarificationChat.Idle =>
          ClarificationChat.isLoading st = false
          /\ ClarificationChat.isGeneratingQuestions st = false
      | ClarificationChat.AwaitQuestions
      | ClarificationChat.AwaitDirectRefine =>
          ClarificationChat.isLoading st = false
          /\ ClarificationChat.isGeneratingQuestions st = true
          /\ ClarificationChat.conversation st = []
      | ClarificationChat.AwaitTimer nextIndex updatedConv =>
          ClarificationChat.isLoading st = true
          /\ ClarificationChat.isGeneratingQuestions st = false
          /\ updatedConv = ClarificationChat.conversation st
      | ClarificationChat.AwaitRefine =>
          ClarificationChat.isLoading st = true
          /\ ClarificationChat.isGeneratingQuestions st = false
      end).

(* ===================================================================== *)
(** * Properties                                                          *)
(* ===================================================================== *)

(** ** The definitions at work *)

Example trim_both_ends : trim "  two words  " = "two words".
Proof. reflexivity. Qed.

Example trim_blank : trim (String (ascii_of_nat 9) " ") = "".
Proof. reflexivity. Qed.

Example status_as_text : string_of_Z 401 = "401".
Proof. reflexivity. Qed.

Example openai_reply_read :
  ApiAdapter.openAIContent (openai_body (JStr " Hi. ")) = Ok (Some "Hi.").
Proof. reflexivity. Qed.

Example openai_reply_without_choices :
  ApiAdapter.openAIContent (JObj [("id", JStr "x")]) = Ok None.
Proof. reflexivity. Qed.

Example anthropic_body_of_hello :
  ApiAdapter.anthropicBody "claude-3-opus-20240229"
    (ApiAdapter.messages hello) (7 # 10)%Q
  = JObj [("model", JStr "claude-3-opus-20240229");
          ("max_tokens", JNum (4096 # 1));
          ("temperature", JNum (7 # 10)%Q);
          ("messages",
           JArr [JObj [("role", JStr "user"); ("content", JStr "Hello")]]);
          ("system", JStr "Be brief.")].
Proof. reflexivity. Qed.

Example rename_rejected_when_label_is_unknown :
  (Storage.saveLabel sample_world essays (Some "poetry")).1
  = Throw (Error ("Cannot rename label " +:+ quoted "poetry"
                  +:+ ": label not found"))
  /\ (Storage.saveLabel sample_world essays (Some "poetry")).2 = sample_world.
Proof. split; reflexivity. Qed.

Example two_questions_one_answered :
  ClarificationChat.transcripts
    (ClarificationChat.run blog_post
       (ClarificationChat.asked blog_post
          ["Which topic?"; "Which audience?"]).1
       [ClarificationChat.Typed " owls "; ClarificationChat.SendClicked;
        ClarificationChat.TimerFired;
        ClarificationChat.AnswerLaterClicked]).2
  = [[ask "Which topic?"; say "owls"; ask "Which audience?"]].
Proof. reflexivity. Qed.

(** ** The unified chat client *)

Section AdapterFacts.
Import Providers ApiAdapter.

Lemma require_content_ok who c r :
  require_content who c = Ok r -> resp_content r <> "".
Proof.
  unfold require_content. destruct c as [s|]; [|discriminate].
  destruct s; simpl; [discriminate|].
  intros [= <-]. simpl. discriminate.
Qed.

Lemma supported_cases (provider : ProviderConfig) :
  In provider getAllProviders ->
  provider = openai \/ provider = anthropic \/ provider = google.
Proof. simpl. intuition. Qed.

Lemma dispatch_settle fetch provider apiKey model messages temperature :
  dispatch fetch provider apiKey model messages temperature
  = match wire_request provider apiKey model messages temperature with
    | Some request => settle provider (fetch request)
    | None => Throw (Error ("Unsupported provider: " +:+ id provider))
    end.
Proof.
  unfold dispatch, wire_request, settle, reported_as, reply_text.
  destruct (String.eqb (id provider) "openai"); [reflexivity|].
  destruct (String.eqb (id provider) "anthropic"); [reflexivity|].
  destruct (String.eqb (id provider) "google"); reflexivity.
Qed.

Lemma chatCompletion_settle fetch provider apiKey request :
  chatCompletion fetch provider apiKey request
  = let outcome :=
      dispatch fetch provider apiKey (model request) (messages request)
        (default_temperature request) in
    (log_of provider request outcome, outcome).
Proof.
  unfold chatCompletion, log_of, default_temperature.
  destruct (dispatch _ _ _ _ _ _); reflexivity.
Qed.

Lemma settle_ok provider reply r :
  settle provider reply = Ok r -> resp_content r <> "".
Proof.
  unfold settle. destruct reply as [response|]; simpl; [|discriminate].
  destruct (ok response); simpl; [|discriminate].
  destruct (json_body response) as [data|]; simpl; [|discriminate].
  destruct (reply_text provider data) as [c|]; simpl; [|discriminate].
  apply require_content_ok.
Qed.

Lemma find_system_head (messages : list ChatMessage) :
  find_system messages = head (List.filter is_system messages).
Proof.
  unfold find_system.
  induction messages as [|m rest IH]; simpl; [reflexivity|].
  destruct (is_system m); [reflexivity | exact IH].
Qed.

Lemma conversation_no_system (messages : list ChatMessage) :
  Forall (fun m => role m <> system) (conversationMessages messages).
Proof.
  unfold conversationMessages.
  induction messages as [|m rest IH]; simpl; [constructor|].
  destruct (is_system m) eqn:E; simpl; [exact IH|].
  constructor; [|exact IH].
  unfold is_system in E. destruct (role m); simpl in E; congruence.
Qed.

Lemma anthropic_message_shape (m : ChatMessage) :
  role m <> system -> anthropic_message m = message_json m.
Proof.
  unfold anthropic_message, message_json.
  destruct (role m); simpl; congruence.
Qed.

Lemma map_ext_Forall {A B} (f g : A -> B) (P : A -> Prop) (l : list A) :
  Forall P l -> (forall x, P x -> f x = g x) -> map f l = map g l.
Proof.
  intros H Hfg. induction H as [|x l Hx _ IH]; simpl; [reflexivity|].
  rewrite (Hfg x Hx), IH. reflexivity.
Qed.

End AdapterFacts.



Section AdapterFailures.
Import Providers ApiAdapter.

Lemma reply_text_of_value provider data :
  In provider getAllProviders ->
  reply_text provider data
  = bind (text_value provider data) (opt_trim (text_path provider)).
Proof.
  intros H. destruct (supported_cases _ H) as [-> | [-> | ->]];
    unfold reply_text, text_value, text_path; simpl;
    unfold openAIContent, anthropicContent, googleContent;
    destruct data; reflexivity.
Qed.

Lemma reply_text_unusable provider data v :
  In provider getAllProviders ->
  text_value provider data = Ok v -> no_usable_text v ->
  reply_text provider data = Ok None
  \/ reply_text provider data = Ok (Some "").
Proof.
  intros Hin Hv Hno. rewrite (reply_text_of_value _ _ Hin), Hv. simpl.
  destruct Hno as [-> | [-> | (s & -> & Hs)]]; [now left | now left |].
  right. simpl. now rewrite Hs.
Qed.

Lemma chatCompletion_result fetch provider apiKey request wire :
  wire_request provider apiKey (model request) (messages request)
    (default_temperature request) = Some wire ->
  (chatCompletion fetch provider apiKey request).2
  = settle provider (fetch wire).
Proof.
  intros Hw. rewrite chatCompletion_settle. simpl.
  now rewrite dispatch_settle, Hw.
Qed.

Lemma status_401_403_not_ok (response : HttpResponse) :
  status response = 401 \/ status response = 403 -> ok response = false.
Proof. unfold ok. intros [-> | ->]; reflexivity. Qed.

End AdapterFailures.

(** C7, as the code has it.  Every non-success status, 401 and 403 among
    them, makes the client fail in one and the same way: a plain [Error]
    whose message is "<Provider> API error (<status>): <body>".  The status
    code inside the message is all that tells a rejected key from any other
    failed request.  The handler of the service worker hands the message of
    whatever the orchestrator raises to the panel as
    [{success: false, error}]. *)
Theorem C7_rejected_key_is_reported_like_any_failed_request :
  (forall fetch provider apiKey request wire response,
      In provider Providers.getAllProviders ->
      wire_request provider apiKey (ApiAdapter.model request)
        (ApiAdapter.messages request) (default_temperature request)
      = Some wire ->
      fetch wire = Ok response ->
      ApiAdapter.ok response = false ->
      (ApiAdapter.chatCompletion fetch provider apiKey request).2
      = Throw (Error (reported_as provider +:+ " API error ("
                      +:+ string_of_Z (ApiAdapter.status response) +:+ "): "
                      +:+ ApiAdapter.error_text response)))
  /\ (forall response,
         ApiAdapter.status response = 401 \/ ApiAdapter.status response = 403 ->
         ApiAdapter.ok response = false)
  /\ (forall selected generate message text providerId e,
         Background.promptContent message = Some text ->
         Background.missing_prompt (Some text) = false ->
         selected = Ok providerId ->
         generate text
           (Messaging.or_else (Background.labelContext message) "")
           (Messaging.or_else (Background.label message) "") providerId
         = Throw e ->
         Background.handleGenerateClarifyingQuestions selected generate message
         = Messaging.failure (err_message e)).
Proof.
  split; [|split].
  - intros fetch provider apiKey request wire response Hin Hw Hf Hok.
    rewrite (chatCompletion_result _ _ _ _ _ Hw), Hf.
    unfold settle. simpl. now rewrite Hok.
  - apply status_401_403_not_ok.
  - intros selected generate message text providerId e Hp Hm -> Hg.
    unfold Background.handleGenerateClarifyingQuestions.
    rewrite Hp, Hm, Hg. reflexivity.
Qed.


Lemma C7_witness :
  (ApiAdapter.chatCompletion (fun _ => Ok unauthorized) Providers.openai
     "sk-bad" hello).2
  = Throw (Error (reported_as Providers.openai +:+ " API error ("
                  +:+ string_of_Z (ApiAdapter.status unauthorized) +:+ "): "
                  +:+ ApiAdapter.error_text unauthorized))
  /\ ApiAdapter.ok unauthorized = false
  /\ Background.handleGenerateClarifyingQuestions (Ok None)
       (fun _ _ _ _ => Throw (Error "OpenAI API error (401): invalid api key"))
       {| Background.promptContent := Some "Write a blog post";
          Background.labelContext := None;
          Background.label := None |}
     = Messaging.failure "OpenAI API error (401): invalid api key".
Proof.
  pose proof C7_rejected_key_is_reported_like_any_failed_request
    as (Hclient & Hstatus & Hhandler).
  split; [|split].
  - apply (Hclient (fun _ => Ok unauthorized) Providers.openai "sk-bad" hello
             (ApiAdapter.openAIRequest "sk-bad"
                (Providers.apiBaseUrl Providers.openai) "gpt-4"
                (ApiAdapter.messages hello) (7 # 10)%Q) unauthorized).
    + simpl. tauto.
    + reflexivity.
    + reflexivity.
    + reflexivity.
  - apply Hstatus. left. reflexivity.
  - apply (Hhandler (Ok None) _ _ "Write a blog post" None
             (Error "OpenAI API error (401): invalid api key"));
      reflexivity.
Defined.

(** C7 as stated fails: a 401 and a 500 end in errors of the same class,
    the plain [Error]; no error of a class of its own marks the rejected
    key. *)
Lemma C7_counterexample :
  exists e401 e500,
    (ApiAdapter.chatCompletion (fun _ => Ok unauthorized) Providers.openai
       "sk-bad" hello).2 = Throw e401
    /\ (ApiAdapter.chatCompletion (fun _ => Ok server_error) Providers.openai
          "sk-bad" hello).2 = Throw e500
    /\ err_name e401 = err_name e500
    /\ err_name e401 = "Error"
    /\ err_name e401 <> "ProviderAuthError".
Proof.
  eexists. eexists.
  split; [reflexivity|]. split; [reflexivity|].
  split; [reflexivity|]. split; [reflexivity|].
  simpl. discriminate.
Qed.

(** C8, as the code has it.  Take a success response of a provider whose
    body [json()] can read.  When the body is [null], the first property
    access throws, and the client fails with the engine's [TypeError].
    Otherwise the body is read down to the provider's text path, and
    - when nothing is there ([undefined] or [null]) or a string that is
      empty once trimmed, the client fails with the plain [Error]
      "<Provider> API returned no content";
    - when a value is there that is neither a string nor [null], the call
      of [trim] throws, and the client fails with the engine's
      [TypeError];
    - when a string is there that is not empty once trimmed, the client
      returns it, trimmed.
    And whatever the network does, a result the client returns has
    non-empty content: it is the trimmed text found at that path of a
    success response. *)
Theorem C8_no_content_fails_and_results_are_non_empty :
  (forall provider data,
      In provider Providers.getAllProviders ->
      data <> JNull ->
      exists v, text_value provider data = Ok v)
  /\ (forall fetch provider apiKey request wire response data v,
         In provider Providers.getAllProviders ->
         wire_request provider apiKey (ApiAdapter.model request)
           (ApiAdapter.messages request) (default_temperature request)
         = Some wire ->
         fetch wire = Ok response ->
         ApiAdapter.ok response = true ->
         ApiAdapter.json_body response = Ok data ->
         text_value provider data = Ok v ->
         no_usable_text v ->
         (ApiAdapter.chatCompletion fetch provider apiKey request).2
         = Throw (Error (reported_as provider
                         +:+ " API returned no content")))
  /\ (forall fetch provider apiKey request wire response data v,
         In provider Providers.getAllProviders ->
         wire_request provider apiKey (ApiAdapter.model request)
           (ApiAdapter.messages request) (default_temperature request)
         = Some wire ->
         fetch wire = Ok response ->
         ApiAdapter.ok response = true ->
         ApiAdapter.json_body response = Ok data ->
         text_value provider data = Ok (Some v) ->
         v <> JNull ->
         (forall text, v <> JStr text) ->
         (ApiAdapter.chatCompletion fetch provider apiKey request).2
         = Throw (TypeError (text_path provider
                             +:+ ".trim is not a function")))
  /\ (forall fetch provider apiKey request wire response,
         In provider Providers.getAllProviders ->
         wire_request provider apiKey (ApiAdapter.model request)
           (ApiAdapter.messages request) (default_temperature request)
         = Some wire ->
         fetch wire = Ok response ->
         ApiAdapter.ok response = true ->
         ApiAdapter.json_body response = Ok JNull ->
         exists e,
           (ApiAdapter.chatCompletion fetch provider apiKey request).2
           = Throw e
           /\ err_name e = "TypeError")
  /\ (forall fetch provider apiKey request wire response data text,
         In provider Providers.getAllProviders ->
         wire_request provider apiKey (ApiAdapter.model request)
           (ApiAdapter.messages request) (default_temperature request)
         = Some wire ->
         fetch wire = Ok response ->
         ApiAdapter.ok response = true ->
         ApiAdapter.json_body response = Ok data ->
         text_value provider data = Ok (Some (JStr text)) ->
         trim text <> "" ->
         (ApiAdapter.chatCompletion fetch provider apiKey request).2
         = Ok {| ApiAdapter.resp_content := trim text |})
  /\ (forall fetch provider apiKey request result,
         (ApiAdapter.chatCompletion fetch provider apiKey request).2
         = Ok result ->
         ApiAdapter.resp_content result <> "")
  /\ (forall fetch provider apiKey request wire result,
         In provider Providers.getAllProviders ->
         wire_request provider apiKey (ApiAdapter.model request)
           (ApiAdapter.messages request) (default_temperature request)
         = Some wire ->
         (ApiAdapter.chatCompletion fetch provider apiKey request).2
         = Ok result ->
         exists response data text,
           fetch wire = Ok response
           /\ ApiAdapter.ok response = true
           /\ ApiAdapter.json_body response = Ok data
           /\ text_value provider data = Ok (Some (JStr text))
           /\ ApiAdapter.resp_content result = trim text).
Proof.
  split; [|split; [|split; [|split; [|split; [|split]]]]].
  - intros provider data Hin Hdata.
    destruct (supported_cases _ Hin) as [-> | [-> | ->]];
      unfold text_value; simpl; destruct data; try contradiction;
      eexists; reflexivity.
  - intros fetch provider apiKey request wire response data v
      Hin Hw Hf Hok Hdata Hv Hno.
    rewrite (chatCompletion_result _ _ _ _ _ Hw), Hf.
    unfold settle. simpl. rewrite Hok, Hdata. simpl.
    destruct (reply_text_unusable _ _ _ Hin Hv Hno) as [-> | ->]; reflexivity.
  - intros fetch provider apiKey request wire response data v
      Hin Hw Hf Hok Hdata Hv Hnull Hstring.
    rewrite (chatCompletion_result _ _ _ _ _ Hw), Hf.
    unfold settle. simpl. rewrite Hok, Hdata. simpl.
    rewrite (reply_text_of_value _ _ Hin), Hv. simpl.
    destruct v as [| | |text| |]; try reflexivity;
      [contradiction | now destruct (Hstring text)].
  - intros fetch provider apiKey request wire response Hin Hw Hf Hok Hdata.
    rewrite (chatCompletion_result _ _ _ _ _ Hw), Hf.
    unfold settle. simpl. rewrite Hok, Hdata. simpl.
    destruct (supported_cases _ Hin) as [-> | [-> | ->]];
      eexists; split; reflexivity.
  - intros fetch provider apiKey request wire response data text
      Hin Hw Hf Hok Hdata Hv Htext.
    rewrite (chatCompletion_result _ _ _ _ _ Hw), Hf.
    unfold settle. simpl. rewrite Hok, Hdata. simpl.
    rewrite (reply_text_of_value _ _ Hin), Hv. simpl.
    unfold ApiAdapter.require_content.
    destruct (trim text); [contradiction | reflexivity].
  - intros fetch provider apiKey request result.
    rewrite chatCompletion_settle. simpl. rewrite dispatch_settle.
    destruct (wire_request _ _ _ _ _); [|discriminate].
    apply settle_ok.
  - intros fetch provider apiKey request wire result Hin Hw.
    rewrite (chatCompletion_result _ _ _ _ _ Hw). unfold settle.
    destruct (fetch wire) as [response|] eqn:Hf; simpl; [|discriminate].
    destruct (ApiAdapter.ok response) eqn:Hok; simpl; [|discriminate].
    destruct (ApiAdapter.json_body response) as [data|] eqn:Hdata; simpl;
      [|discriminate].
    rewrite (reply_text_of_value _ _ Hin).
    destruct (text_value provider data) as [[[| | |text| |]|]|] eqn:Hv; simpl;
      try discriminate.
    unfold ApiAdapter.require_content.
    destruct (truthy (trim text)); [|discriminate].
    intros [= <-]. now exists response, data, text.
Qed.

Lemma C8_witness :
  (ApiAdapter.chatCompletion
     (fun _ => Ok (success_reply (openai_body (JStr "   "))))
     Providers.openai "sk-live" hello).2
  = Throw (Error (reported_as Providers.openai +:+ " API returned no content"))
  /\ ApiAdapter.resp_content {| ApiAdapter.resp_content := "Hi." |} <> ""
  /\ exists e,
       (ApiAdapter.chatCompletion (fun _ => Ok (success_reply JNull))
          Providers.openai "sk-live" hello).2 = Throw e
       /\ err_name e = "TypeError".
Proof.
  pose proof C8_no_content_fails_and_results_are_non_empty
    as (_ & Hblank & _ & Hnull & _ & Hresult & _).
  split; [|split].
  - apply (Hblank (fun _ => Ok (success_reply (openai_body (JStr "   "))))
             Providers.openai "sk-live" hello
             (ApiAdapter.openAIRequest "sk-live"
                (Providers.apiBaseUrl Providers.openai) "gpt-4"
                (ApiAdapter.messages hello) (7 # 10)%Q)
             (success_reply (openai_body (JStr "   ")))
             (openai_body (JStr "   ")) (Some (JStr "   "))).
    + simpl. tauto.
    + reflexivity.
    + reflexivity.
    + reflexivity.
    + reflexivity.
    + reflexivity.
    + right. right. exists "   ". split; reflexivity.
  - apply (Hresult
             (fun _ => Ok (success_reply (openai_body (JStr " Hi. "))))
             Providers.openai "sk-live" hello).
    reflexivity.
  - apply (Hnull (fun _ => Ok (success_reply JNull)) Providers.openai
             "sk-live" hello
             (ApiAdapter.openAIRequest "sk-live"
                (Providers.apiBaseUrl Providers.openai) "gpt-4"
                (ApiAdapter.messages hello) (7 # 10)%Q)
             (success_reply JNull));
      [simpl; tauto | reflexivity..].
Defined.

(** C8 as stated fails: a success response whose text path holds a number
    has no usable text, yet the failure is the engine's [TypeError] for the
    call of [trim], not the error for an empty response. *)
Lemma C8_counterexample :
  text_value Providers.openai (openai_body (JNum (5 # 1)))
  = Ok (Some (JNum (5 # 1)))
  /\ exists e,
      (ApiAdapter.chatCompletion
         (fun _ => Ok (success_reply (openai_body (JNum (5 # 1)))))
         Providers.openai "sk-live" hello).2 = Throw e
      /\ err_name e = "TypeError"
      /\ e <> ApiAdapter.no_content "OpenAI".
Proof.
  split; [reflexivity|].
  eexists. split; [reflexivity|]. split; [reflexivity|].
  discriminate.
Qed.

(** C9, as the code has it.  The client itself never writes the API key
    to the console.  The request record is built from the provider id, the
    model, the temperature and the messages alone; and two calls that
    differ only in the key, the network answering both alike, write the
    same request record, the same response preview and the same error
    record. *)
Theorem C9_log_independent_of_api_key :
  (forall fetch provider apiKey request,
      head (ApiAdapter.chatCompletion fetch provider apiKey request).1
      = Some (ApiAdapter.LLM_REQUEST (Providers.id provider)
                (ApiAdapter.model request) (default_temperature request)
                (ApiAdapter.messages request)))
  /\ (forall fetch provider apiKey1 apiKey2 request,
         fetch <$> wire_request provider apiKey1 (ApiAdapter.model request)
                     (ApiAdapter.messages request)
                     (default_temperature request)
         = fetch <$> wire_request provider apiKey2 (ApiAdapter.model request)
                       (ApiAdapter.messages request)
                       (default_temperature request) ->
         (ApiAdapter.chatCompletion fetch provider apiKey1 request).1
         = (ApiAdapter.chatCompletion fetch provider apiKey2 request).1).
Proof.
  split.
  - intros fetch provider apiKey request.
    rewrite chatCompletion_settle. simpl. unfold log_of.
    destruct (ApiAdapter.dispatch _ _ _ _ _ _); reflexivity.
  - intros fetch provider apiKey1 apiKey2 request Hsame.
    rewrite !chatCompletion_settle. simpl. rewrite !dispatch_settle.
    destruct (wire_request provider apiKey1 _ _ _) as [q1|],
             (wire_request provider apiKey2 _ _ _) as [q2|];
      simpl in Hsame; try discriminate; [|reflexivity].
    injection Hsame as ->. reflexivity.
Qed.

Lemma C9_witness :
  (ApiAdapter.chatCompletion (fun _ => Ok unauthorized) Providers.google
     "key-one" hello).1
  = (ApiAdapter.chatCompletion (fun _ => Ok unauthorized) Providers.google
       "key-two" hello).1.
Proof.
  apply (proj2 C9_log_independent_of_api_key).
  reflexivity.
Defined.

(** C9 as stated fails: the outcome of a call depends on what the provider
    makes of the key, and the error record repeats the provider's error
    body as it came.  Against a provider that answers 401 with the
    [Authorization] header it was sent, two calls that differ only in the
    key write different error records, and the key is on the console. *)
Lemma C9_counterexample :
  (ApiAdapter.chatCompletion echoing_provider Providers.openai "sk-one"
     hello).1
  = [ApiAdapter.LLM_REQUEST "openai" "gpt-4" (7 # 10)%Q
       (ApiAdapter.messages hello);
     ApiAdapter.LLM_ERROR "openai" "gpt-4" (7 # 10)%Q
       (ApiAdapter.messages hello)
       "OpenAI API error (401): Bearer sk-one"]
  /\ (ApiAdapter.chatCompletion echoing_provider Providers.openai "sk-one"
        hello).1
     <> (ApiAdapter.chatCompletion echoing_provider Providers.openai "sk-two"
           hello).1.
Proof. split; [reflexivity | discriminate]. Qed.

(** ** The credential store *)

(** C10. The two credential reads never reject.  Whatever the storage
    does, [getProviderApiKey] and [getSelectedProvider] resolve; when the
    read fails they resolve to [undefined], which is also what they resolve
    to on an empty storage, so a caller cannot tell a failed read from a
    store in which nothing is configured. *)
Theorem C10_credential_reads_never_reject :
  (forall c providerId,
      exists v, ProviderStorage.getProviderApiKey c providerId = Ok v)
  /\ (forall c, exists v, ProviderStorage.getSelectedProvider c = Ok v)
  /\ (forall stored fault providerId,
         ProviderStorage.getProviderApiKey
           {| ProviderStorage.items := stored;
              ProviderStorage.read_fault := Some fault |} providerId
         = Ok None)
  /\ (forall stored fault,
         ProviderStorage.getSelectedProvider
           {| ProviderStorage.items := stored;
              ProviderStorage.read_fault := Some fault |}
         = Ok None)
  /\ (forall stored fault providerId,
         ProviderStorage.getProviderApiKey
           {| ProviderStorage.items := stored;
              ProviderStorage.read_fault := Some fault |} providerId
         = ProviderStorage.getProviderApiKey
             {| ProviderStorage.items := ∅;
                ProviderStorage.read_fault := None |} providerId)
  /\ (forall stored fault,
         ProviderStorage.getSelectedProvider
           {| ProviderStorage.items := stored;
              ProviderStorage.read_fault := Some fault |}
         = ProviderStorage.getSelectedProvider
             {| ProviderStorage.items := ∅;
                ProviderStorage.read_fault := None |}).
Proof.
  assert (Hkey : forall stored fault providerId,
             ProviderStorage.getProviderApiKey
               {| ProviderStorage.items := stored;
                  ProviderStorage.read_fault := Some fault |} providerId
             = Ok None).
  { intros stored [e|m] providerId; reflexivity. }
  assert (Hsel : forall stored fault,
             ProviderStorage.getSelectedProvider
               {| ProviderStorage.items := stored;
                  ProviderStorage.read_fault := Some fault |}
             = Ok None).
  { intros stored [e|m]; reflexivity. }
  repeat split.
  - intros [stored [fault|]] providerId.
    + eexists. apply Hkey.
    + eexists. reflexivity.
  - intros [stored [fault|]].
    + eexists. apply Hsel.
    + eexists. reflexivity.
  - exact Hkey.
  - exact Hsel.
  - intros stored fault providerId. rewrite Hkey.
    unfold ProviderStorage.getProviderApiKey, ProviderStorage.storage_get.
    simpl. rewrite map_filter_empty, lookup_empty. reflexivity.
  - intros stored fault. rewrite Hsel.
    unfold ProviderStorage.getSelectedProvider, ProviderStorage.storage_get.
    simpl. rewrite map_filter_empty, lookup_empty. reflexivity.
Qed.

(** ** Prompts and labels *)

Section LabelFacts.
Import Storage.

Lemma prompt_eta (p : Prompt) :
  {| name := name p; content := content p; labels := labels p;
     originalContent := originalContent p |} = p.
Proof. now destruct p. Qed.

Lemma includes_In (n : string) (l : list string) :
  includes n l = true <-> In n l.
Proof.
  unfold includes. rewrite existsb_exists. split.
  - intros (x & Hx & He). apply String.eqb_eq in He. now subst.
  - intros H. exists n. split; [exact H | apply String.eqb_refl].
Qed.

Lemma renamed_absent (o n : string) (l : list string) :
  ~ In o l -> map (renamed o n) l = l.
Proof.
  induction l as [|x l IH]; simpl; [reflexivity|].
  intros H. unfold renamed at 1.
  destruct (String.eqb_spec x o) as [->|Hne].
  - exfalso. apply H. now left.
  - rewrite IH; [reflexivity|]. intros Hin. apply H. now right.
Qed.

Lemma renamed_present (o n : string) (l : list string) :
  o <> n -> In o l ->
  In n (map (renamed o n) l) /\ ~ In o (map (renamed o n) l).
Proof.
  intros Hne Hin. split.
  - apply in_map_iff. exists o. split; [|exact Hin].
    unfold renamed. now rewrite String.eqb_refl.
  - intros H. apply in_map_iff in H as (x & Hx & _).
    unfold renamed in Hx. destruct (String.eqb_spec x o); congruence.
Qed.

Lemma without_absent (n : string) (p : Prompt) :
  ~ In n (labels p) -> without n p = p.
Proof.
  intros H. unfold without.
  destruct (includes n (labels p)) eqn:E; [|reflexivity].
  apply includes_In in E. contradiction.
Qed.

Lemma without_labels (n : string) (p : Prompt) :
  labels (without n p)
  = List.filter (fun labelName => negb (String.eqb labelName n)) (labels p).
Proof.
  unfold without. destruct (includes n (labels p)) eqn:E; [reflexivity|].
  symmetry. apply forallb_filter_id. apply forallb_forall. intros x Hx.
  destruct (String.eqb_spec x n) as [->|]; [|reflexivity].
  apply includes_In in Hx. congruence.
Qed.

Lemma without_gone (n : string) (p : Prompt) : ~ In n (labels (without n p)).
Proof.
  rewrite without_labels. intros H. apply filter_In in H as [_ H].
  now rewrite String.eqb_refl in H.
Qed.

Lemma without_fields (n : string) (p : Prompt) :
  name (without n p) = name p /\ content (without n p) = content p
  /\ originalContent (without n p) = originalContent p.
Proof. unfold without. destruct (includes n (labels p)); now simpl. Qed.

Lemma saved_then_read (w w' : World) (data data' : StorageData) :
  getStorageData w = Ok data ->
  saveStorageData w data' = (Ok tt, w') ->
  getAllPrompts w' = Ok (prompts data').
Proof.
  unfold getStorageData, saveStorageData, getAllPrompts, getStorageData.
  destruct (get_fault w) eqn:Hg; [discriminate|]. intros _.
  destruct (set_fault w); [discriminate|].
  intros [= <-]. reflexivity.
Qed.

Lemma read_prompts (w : World) (data : StorageData) :
  getStorageData w = Ok data -> getAllPrompts w = Ok (prompts data).
Proof. unfold getAllPrompts. now intros ->. Qed.

Lemma rename_stored (w w' : World) (label : Label) (oldName : string) :
  oldName <> label_name label ->
  saveLabel w label (Some oldName) = (Ok tt, w') ->
  exists before,
    getAllPrompts w = Ok before
    /\ getAllPrompts w'
       = Ok (map (rename_in oldName (label_name label)) before).
Proof.
  intros Hne. unfold saveLabel.
  destruct (blank (label_name label)); [discriminate|].
  unfold saveLabel_body.
  destruct (getStorageData w) as [data|e] eqn:Hdata.
  2:{ destruct (_ || _)%bool; discriminate. }
  destruct (String.eqb_spec oldName (label_name label)) as [|_];
    [contradiction|]. simpl.
  unfold rename_label.
  destruct (findIndex _ _) as [i|].
  2:{ destruct (_ || _)%bool; discriminate. }
  destruct (List.find _ _).
  { destruct (_ || _)%bool; discriminate. }
  destruct (saveStorageData w _) as [[[]|e] w1] eqn:Hsave.
  2:{ destruct (_ || _)%bool; discriminate. }
  intros [= <-]. exists (prompts data). split.
  - now apply read_prompts.
  - now rewrite (saved_then_read _ _ _ _ Hdata Hsave).
Qed.

Lemma delete_stored (w w' : World) (n : string) :
  deleteLabel w n = (Ok tt, w') ->
  exists before,
    getAllPrompts w = Ok before
    /\ getAllPrompts w' = Ok (map (without n) before).
Proof.
  unfold deleteLabel.
  destruct (getStorageData w) as [data|e] eqn:Hdata; [|discriminate].
  exists (prompts data). split; [now apply read_prompts|].
  destruct (_ || _)%bool eqn:Hchanged.
  - destruct (saveStorageData w _) as [[[]|e] w1] eqn:Hsave;
      [|discriminate].
    injection H as <-.
    now rewrite (saved_then_read _ _ _ _ Hdata Hsave).
  - injection H as <-. rewrite (read_prompts _ _ Hdata). f_equal.
    apply orb_false_iff in Hchanged as [_ Hnone].
    rewrite <- (List.map_id (prompts data)) at 1.
    apply map_ext_in. intros p Hp. symmetry. apply without_absent.
    intros Hin. apply includes_In in Hin.
    assert (existsb (fun p => includes n (labels p)) (prompts data) = true)
      by (apply existsb_exists; now exists p).
    congruence.
Qed.

End LabelFacts.

(** C6. A rename that [saveLabel] accepts rewrites the stored prompts in
    place: a prompt that references the old name references the new one
    instead, in the same positions, and a prompt that does not reference it
    is unchanged.  A [deleteLabel] that resolves leaves as many prompts as
    there were, each with its name, content and archived text, and with the
    deleted name filtered out of its labels. *)
Theorem C6_rename_and_delete_reach_every_prompt :
  (forall w label oldName w',
      oldName <> Storage.label_name label ->
      Storage.saveLabel w label (Some oldName) = (Ok tt, w') ->
      exists before,
        Storage.getAllPrompts w = Ok before
        /\ Storage.getAllPrompts w'
           = Ok (map (Storage.rename_in oldName (Storage.label_name label))
                   before)
        /\ Forall (fun p =>
             let p' := Storage.rename_in oldName (Storage.label_name label) p
             in
             (In oldName (Storage.labels p) ->
              In (Storage.label_name label) (Storage.labels p')
              /\ ~ In oldName (Storage.labels p'))
             /\ (~ In oldName (Storage.labels p) -> p' = p)
             /\ Storage.name p' = Storage.name p
             /\ Storage.content p' = Storage.content p
             /\ Storage.originalContent p' = Storage.originalContent p)
             before)
  /\ (forall w n w',
         Storage.deleteLabel w n = (Ok tt, w') ->
         exists before,
           Storage.getAllPrompts w = Ok before
           /\ Storage.getAllPrompts w' = Ok (map (Storage.without n) before)
           /\ length (map (Storage.without n) before) = length before
           /\ Forall (fun p =>
                let p' := Storage.without n p in
                ~ In n (Storage.labels p')
                /\ Storage.labels p'
                   = List.filter (fun l => negb (String.eqb l n))
                       (Storage.labels p)
                /\ (~ In n (Storage.labels p) -> p' = p)
                /\ Storage.name p' = Storage.name p
                /\ Storage.content p' = Storage.content p
                /\ Storage.originalContent p' = Storage.originalContent p)
                before).
Proof.
  split.
  - intros w label oldName w' Hne Hsave.
    destruct (rename_stored _ _ _ _ Hne Hsave) as (before & Hb & Ha).
    exists before. split; [exact Hb|]. split; [exact Ha|].
    apply Forall_forall. intros p _. cbv zeta.
    split; [|split; [|now simpl]].
    + intros Hin. simpl. now apply renamed_present.
    + intros Hout. unfold Storage.rename_in.
      rewrite (renamed_absent _ _ _ Hout). apply prompt_eta.
  - intros w n w' Hdel.
    destruct (delete_stored _ _ _ Hdel) as (before & Hb & Ha).
    exists before. split; [exact Hb|]. split; [exact Ha|].
    split; [apply length_map|].
    apply Forall_forall. intros p _. cbv zeta.
    split; [apply without_gone|].
    split; [apply without_labels|].
    split; [apply without_absent|].
    apply without_fields.
Qed.

Lemma C6_witness :
  (exists before,
      Storage.getAllPrompts sample_world = Ok before
      /\ Storage.getAllPrompts (Storage.saveLabel sample_world essays
                                  (Some "writing")).2
         = Ok (map (Storage.rename_in "writing" "essays") before))
  /\ (exists before,
         Storage.getAllPrompts sample_world = Ok before
         /\ Storage.getAllPrompts (Storage.deleteLabel sample_world "travel").2
            = Ok (map (Storage.without "travel") before)).
Proof.
  pose proof C6_rename_and_delete_reach_every_prompt as (Hrename & Hdelete).
  split.
  - destruct (Hrename sample_world essays "writing"
                (Storage.saveLabel sample_world essays (Some "writing")).2)
      as (before & Hb & Ha & _).
    + discriminate.
    + reflexivity.
    + exists before. split; assumption.
  - destruct (Hdelete sample_world "travel"
                (Storage.deleteLabel sample_world "travel").2)
      as (before & Hb & Ha & _).
    + reflexivity.
    + exists before. split; assumption.
Defined.

(** ** Operation A *)

Section OperationAFacts.
Import Providers RefinePrompt.

Lemma take_3_length {A} (l : list A) : (length (take 3 l) <= 3)%nat.
Proof. rewrite length_take. lia. Qed.

Lemma generate_result resolve build parse fetch
  promptText contextText labelHint providerId result :
  generateClarifyingQuestions resolve build parse fetch
    promptText contextText labelHint providerId = Ok result ->
  exists active reply proposed,
    resolve providerId = Ok active
    /\ (ApiAdapter.chatCompletion fetch active.1 active.2
          (build active.1 promptText contextText labelHint)).2 = Ok reply
    /\ parse (ApiAdapter.resp_content reply) = Ok proposed
    /\ questions result = take 3 (questions proposed)
    /\ missing result = missing proposed
    /\ importanceScore result = importanceScore proposed.
Proof.
  unfold generateClarifyingQuestions.
  destruct (is_empty promptText); [discriminate|].
  destruct (resolve providerId) as [active|]; simpl; [|discriminate].
  destruct (ApiAdapter.chatCompletion _ _ _ _).2 as [reply|] eqn:Hchat;
    [|discriminate].
  destruct (parse _) as [proposed|] eqn:Hparse; simpl; [|discriminate].
  intros [= <-]. exists active, reply, proposed. now simpl.
Qed.

End OperationAFacts.

(** C1. The handler of [generateClarifyingQuestions] answers with the
    questions of Operation A unchanged, and Operation A keeps the first
    three questions of the model's proposal, in the model's order: a
    successful response carries between 0 and 3 questions whatever the
    model proposes, and a non-empty prompt for which provider, model call
    and parse succeed does get that response. *)
Theorem C1_at_most_three_questions :
  forall resolve build parse fetch,
    let operationA :=
      RefinePrompt.generateClarifyingQuestions resolve build parse fetch in
    (forall selected message,
        match Messaging.questions
                (Background.handleGenerateClarifyingQuestions selected
                   operationA message) with
        | Some qs => (length qs <= 3)%nat
        | None => True
        end)
    /\ (forall promptText contextText labelHint providerId result,
           operationA promptText contextText labelHint providerId = Ok result ->
           (length (RefinePrompt.questions result) <= 3)%nat
           /\ exists active reply proposed,
               resolve providerId = Ok active
               /\ (ApiAdapter.chatCompletion fetch active.1 active.2
                     (build active.1 promptText contextText labelHint)).2
                  = Ok reply
               /\ parse (ApiAdapter.resp_content reply) = Ok proposed
               /\ RefinePrompt.questions result
                  = take 3 (RefinePrompt.questions proposed))
    /\ (forall selected message text providerId active reply proposed,
           Background.promptContent message = Some text ->
           Background.missing_prompt (Some text) = false ->
           selected = Ok providerId ->
           resolve providerId = Ok active ->
           (ApiAdapter.chatCompletion fetch active.1 active.2
              (build active.1 text
                 (Messaging.or_else (Background.labelContext message) "")
                 (Messaging.or_else (Background.label message) ""))).2
           = Ok reply ->
           parse (ApiAdapter.resp_content reply) = Ok proposed ->
           let response :=
             Background.handleGenerateClarifyingQuestions selected operationA
               message in
           Messaging.success response = true
           /\ Messaging.questions response
              = Some (take 3 (RefinePrompt.questions proposed))).
Proof.
  intros resolve build parse fetch operationA.
  assert (Hbound : forall promptText contextText labelHint providerId result,
             operationA promptText contextText labelHint providerId = Ok result ->
             (length (RefinePrompt.questions result) <= 3)%nat).
  { intros ? ? ? ? result H.
    destruct (generate_result _ _ _ _ _ _ _ _ _ H)
      as (_ & _ & proposed & _ & _ & _ & -> & _).
    apply take_3_length. }
  split; [|split].
  - intros selected message.
    unfold Background.handleGenerateClarifyingQuestions.
    destruct (Background.promptContent message) as [text|]; [|exact I].
    destruct (Background.missing_prompt (Some text)); [exact I|].
    destruct selected as [providerId|]; [|exact I].
    destruct (operationA _ _ _ _) as [result|] eqn:H; [|exact I].
    simpl. eapply Hbound, H.
  - intros promptText contextText labelHint providerId result H.
    split; [eapply Hbound, H|].
    destruct (generate_result _ _ _ _ _ _ _ _ _ H)
      as (active & reply & proposed & Ha & Hr & Hp & Hq & _).
    now exists active, reply, proposed.
  - intros selected message text providerId active reply proposed
      Hp Hm -> Hres Hchat Hparse response.
    subst response. unfold Background.handleGenerateClarifyingQuestions.
    rewrite Hp, Hm.
    unfold operationA, RefinePrompt.generateClarifyingQuestions.
    assert (Hne : is_empty text = false).
    { simpl in Hm. now apply orb_false_iff in Hm as [? _]. }
    rewrite Hne, Hres. simpl. rewrite Hchat, Hparse. simpl. now split.
Qed.

Lemma C1_witness :
  let resolve := fun _ : jsval => Ok (Providers.openai, "sk-live") in
  let build := fun _ _ _ _ => hello in
  let parse := fun _ : string => Ok four_questions in
  let fetch := fun _ : ApiAdapter.HttpRequest =>
                 Ok (success_reply (openai_body (JStr "{...}"))) in
  let message := {| Background.promptContent := Some "Write a blog post";
                    Background.labelContext := None;
                    Background.label := None |} in
  Messaging.questions
    (Background.handleGenerateClarifyingQuestions (Ok None)
       (RefinePrompt.generateClarifyingQuestions resolve build parse fetch)
       message)
  = Some ["Which topic?"; "Which audience?"; "Which tone?"]
  /\ (length (RefinePrompt.questions
               {| RefinePrompt.questions :=
                    ["Which topic?"; "Which audience?"; "Which tone?"];
                  RefinePrompt.missing := RefinePrompt.missing four_questions;
                  RefinePrompt.importanceScore := 2 |}) <= 3)%nat.
Proof.
  intros resolve build parse fetch message.
  pose proof (C1_at_most_three_questions resolve build parse fetch)
    as (_ & Hbound & Hreturns).
  split.
  - apply (Hreturns (Ok None) message "Write a blog post" None
             (Providers.openai, "sk-live")
             {| ApiAdapter.resp_content := "{...}" |} four_questions);
      reflexivity.
  - apply (Hbound "Write a blog post" "" "" None). reflexivity.
Defined.

(** ** The conversation driver *)

Lemma forwarded_or_else (field : string) :
  Messaging.or_else (Background.forwarded field) "" = field.
Proof. unfold Background.forwarded. now destruct field. Qed.

Lemma forwarded_present (content : string) :
  Background.missing_prompt (Some content) = false ->
  Background.forwarded content = Some content.
Proof. unfold Background.forwarded. now destruct content. Qed.

(** C3. When Operation A answers with no question, the driver sends the
    request for the final prompt at once, with an empty conversation
    history, and stays closed to the user while it waits; when the answer
    to that request is a success with a non-empty text, the driver hands
    this text to [onComplete] and is done.  The handler of the service
    worker accepts the empty history, and answers with the text of
    Operation B when that resolves. *)
Theorem C3_no_question_fast_path :
  forall p questionsResponse,
    Messaging.success questionsResponse = true ->
    Messaging.questions questionsResponse = Some [] ->
    let first :=
      ClarificationChat.step p (ClarificationChat.mount p).1
        (ClarificationChat.Settled (Ok questionsResponse)) in
    first.2
    = [ClarificationChat.SendMessage
         (ClarificationChat.generateFinalRefinedPrompt
            (Storage.content (ClarificationChat.prompt p))
            (ClarificationChat.labelContext p)
            (ClarificationChat.labelForGating p) [])]
    /\ (forall text,
           ClarificationChat.step p first.1 (ClarificationChat.Typed text)
           = (first.1, []))
    /\ ClarificationChat.step p first.1 ClarificationChat.SendClicked
       = (first.1, [])
    /\ ClarificationChat.step p first.1 ClarificationChat.AnswerLaterClicked
       = (first.1, [])
    /\ (forall refineResponse text,
           Messaging.success refineResponse = true ->
           Messaging.refinedText refineResponse = Some text ->
           text <> "" ->
           let second :=
             ClarificationChat.step p first.1
               (ClarificationChat.Settled (Ok refineResponse)) in
           second.2 = [ClarificationChat.OnComplete text]
           /\ ClarificationChat.mounted second.1 = false
           /\ ClarificationChat.pending second.1 = ClarificationChat.Idle)
    /\ (forall selected generateFinal providerId result,
           Background.missing_prompt
             (Some (Storage.content (ClarificationChat.prompt p))) = false ->
           selected = Ok providerId ->
           generateFinal (Storage.content (ClarificationChat.prompt p))
             (ClarificationChat.labelContext p)
             (ClarificationChat.labelForGating p) [] providerId
           = Ok result ->
           Background.refinedPrompt result <> "" ->
           let refineResponse :=
             Background.handleGenerateFinalRefinedPrompt selected generateFinal
               (Background.received_final
                  (Storage.content (ClarificationChat.prompt p))
                  (ClarificationChat.labelContext p)
                  (ClarificationChat.labelForGating p) []) in
           (ClarificationChat.step p first.1
              (ClarificationChat.Settled (Ok refineResponse))).2
           = [ClarificationChat.OnComplete (Background.refinedPrompt result)]).
Proof.
  intros p questionsResponse Hs Hq first.
  assert (Hfirst :
    first
    = ({| ClarificationChat.conversation := [];
          ClarificationChat.currentAnswer := "";
          ClarificationChat.isLoading := false;
          ClarificationChat.currentQuestionIndex := 0;
          ClarificationChat.questions := [];
          ClarificationChat.answers := [];
          ClarificationChat.isGeneratingQuestions := true;
          ClarificationChat.error := None;
          ClarificationChat.pending := ClarificationChat.AwaitDirectRefine;
          ClarificationChat.mounted := true |},
       [ClarificationChat.SendMessage (ClarificationChat.refine_request p [])])).
  { subst first. unfold ClarificationChat.step. simpl.
    unfold ClarificationChat.questions_settled. now rewrite Hs, Hq. }
  clearbody first. subst first. cbn [fst snd].
  split; [reflexivity|]. split; [reflexivity|]. split; [reflexivity|].
  split; [reflexivity|].
  set (st1 :=
    {| ClarificationChat.conversation := [];
       ClarificationChat.currentAnswer := "";
       ClarificationChat.isLoading := false;
       ClarificationChat.currentQuestionIndex := 0;
       ClarificationChat.questions := [];
       ClarificationChat.answers := [];
       ClarificationChat.isGeneratingQuestions := true;
       ClarificationChat.error := None;
       ClarificationChat.pending := ClarificationChat.AwaitDirectRefine;
       ClarificationChat.mounted := true |}).
  assert (Hdone : forall refineResponse text,
             Messaging.success refineResponse = true ->
             Messaging.refinedText refineResponse = Some text ->
             text <> "" ->
             ClarificationChat.step p st1
               (ClarificationChat.Settled (Ok refineResponse))
             = ({| ClarificationChat.conversation := [];
                   ClarificationChat.currentAnswer := "";
                   ClarificationChat.isLoading := false;
                   ClarificationChat.currentQuestionIndex := 0;
                   ClarificationChat.questions := [];
                   ClarificationChat.answers := [];
                   ClarificationChat.isGeneratingQuestions := false;
                   ClarificationChat.error := None;
                   ClarificationChat.pending := ClarificationChat.Idle;
                   ClarificationChat.mounted := false |},
                [ClarificationChat.OnComplete text])).
  { intros refineResponse text Hrs Hrt Hne.
    unfold ClarificationChat.step. simpl.
    unfold ClarificationChat.direct_refine_settled, ClarificationChat.refined.
    rewrite Hrs, Hrt. destruct text; [contradiction | reflexivity]. }
  split.
  - intros refineResponse text Hrs Hrt Hne.
    now rewrite (Hdone refineResponse text Hrs Hrt Hne).
  - intros selected generateFinal providerId result Hcontent -> Hresult Hne.
    erewrite Hdone; [reflexivity | | | exact Hne];
      unfold Background.handleGenerateFinalRefinedPrompt,
        Background.received_final;
      cbn [Background.final_promptContent Background.final_labelContext
           Background.final_label Background.conversationHistory];
      rewrite (forwarded_present _ Hcontent), Hcontent, !forwarded_or_else,
        Hresult; reflexivity.
Qed.

Lemma C3_witness :
  let first :=
    ClarificationChat.step blog_post (ClarificationChat.mount blog_post).1
      (ClarificationChat.Settled (Ok (answered true (Some []) None None))) in
  let operationB :=
    fun (_ _ _ : string) (_ : list Messaging.ConversationMessage)
        (_ : jsval) =>
      Ok {| Background.refinedPrompt := "Write a post about owls.";
            Background.refinement_importanceScore := 2 |} in
  first.2
  = [ClarificationChat.SendMessage
       (ClarificationChat.generateFinalRefinedPrompt "Write a blog post" ""
          "" [])]
  /\ (ClarificationChat.step blog_post first.1
        (ClarificationChat.Settled
           (Ok (answered true None (Some "Write a post about owls.") None)))).2
     = [ClarificationChat.OnComplete "Write a post about owls."]
  /\ (ClarificationChat.step blog_post first.1
        (ClarificationChat.Settled
           (Ok (Background.handleGenerateFinalRefinedPrompt (Ok None)
                  operationB
                  (Background.received_final "Write a blog post" "" "" []))))).2
     = [ClarificationChat.OnComplete "Write a post about owls."].
Proof.
  intros first operationB.
  pose proof (C3_no_question_fast_path blog_post
                (answered true (Some []) None None) eq_refl eq_refl)
    as (Hsent & _ & _ & _ & Hdone & Hworker).
  split; [exact Hsent|]. split.
  - apply (Hdone (answered true None (Some "Write a post about owls.") None)
             "Write a post about owls." eq_refl eq_refl).
    discriminate.
  - apply (Hworker (Ok None) operationB None
             {| Background.refinedPrompt := "Write a post about owls.";
                Background.refinement_importanceScore := 2 |});
      [reflexivity | reflexivity | reflexivity | discriminate].
Defined.

Section DriverFacts.
Import Messaging ClarificationChat.

Variable p : Props.

Lemma run_cons (st : State) (ev : Event) (evs : list Event) :
  run p st (ev :: evs)
  = ((run p (step p st ev).1 evs).1,
     (step p st ev).2 ++ (run p (step p st ev).1 evs).2).
Proof.
  simpl. destruct (step p st ev) as [st1 out1]. simpl.
  now destruct (run p st1 evs).
Qed.

Lemma run_app (st : State) (evs1 evs2 : list Event) :
  run p st (evs1 ++ evs2)
  = ((run p (run p st evs1).1 evs2).1,
     (run p st evs1).2 ++ (run p (run p st evs1).1 evs2).2).
Proof.
  revert st. induction evs1 as [|ev evs1 IH]; intros st.
  - simpl. now destruct (run p st evs2).
  - rewrite <- app_comm_cons, !run_cons, IH. simpl.
    now rewrite app_assoc.
Qed.

Lemma transcripts_app (out1 out2 : list Effect) :
  transcripts (out1 ++ out2) = transcripts out1 ++ transcripts out2.
Proof.
  induction out1 as [|e out1 IH]; simpl; [reflexivity|].
  destruct e as [[| ? ? ? h] | | |]; simpl; now rewrite ?IH.
Qed.

Lemma transcript_snoc (done : list string) (q : string)
  (given : list (option string)) (a : option string) :
  length given = length done ->
  transcript_of (done ++ [q]) (given ++ [a])
  = transcript_of done given
    ++ ask q :: match a with Some text => [say text] | None => [] end.
Proof.
  revert given. induction done as [|d done IH]; intros [|g given] Hlen;
    try discriminate.
  - simpl. now rewrite app_nil_r.
  - simpl in Hlen. injection Hlen as Hlen. simpl.
    rewrite (IH given Hlen). now rewrite <- app_assoc.
Qed.

Lemma transcript_questions (qs : list string)
  (given : list (option string)) :
  length given = length qs ->
  List.filter is_question (transcript_of qs given) = map ask qs.
Proof.
  revert given. induction qs as [|q qs IH]; intros [|g given] Hlen;
    try discriminate; [reflexivity|].
  simpl in Hlen. injection Hlen as Hlen. simpl.
  rewrite List.filter_app, (IH given Hlen). now destruct g.
Qed.

Lemma transcript_all_deferred (qs : list string) :
  transcript_of qs (repeat None (length qs)) = map ask qs.
Proof. induction qs as [|q qs IH]; simpl; [reflexivity | now rewrite IH]. Qed.

Lemma next_question (done : list string) (q q' : string)
  (rest : list string) :
  (done ++ q :: q' :: rest) !! S (length done) = Some q'.
Proof. induction done as [|d done IH]; simpl; [reflexivity | exact IH]. Qed.

Lemma more_questions_split (st : State) (done : list string) (q : string)
  (rest : list string) :
  questions st = done ++ q :: rest ->
  currentQuestionIndex st = length done ->
  more_questions st = match rest with [] => false | _ :: _ => true end.
Proof.
  intros Hq Hi. unfold more_questions. rewrite Hq, Hi, length_app.
  destruct rest; simpl length.
  - apply Z.ltb_ge. lia.
  - apply Z.ltb_lt. lia.
Qed.

Section AtAQuestion.
Variables (qs done : list string) (q : string) (rest : list string).
Variable given : list (option string).
Variable st : State.
Hypothesis Hst : awaiting_at qs done q rest given st.

Lemma awaiting_typed (text : string) :
  step p st (Typed text) = (setCurrentAnswer st text, [])
  /\ awaiting_at qs done q rest given (setCurrentAnswer st text).
Proof.
  destruct Hst as (Hqs & Hlen & Hq & Hi & Hc & Hl & Hg & Hp & Hm).
  split.
  - unfold step, input_disabled. now rewrite Hm, Hl, Hg.
  - repeat split; assumption.
Qed.

Lemma awaiting_ignores (ev : Event) :
  (exists r, ev = Settled r) \/ ev = TimerFired ->
  step p st ev = (st, []).
Proof.
  destruct Hst as (Hqs & Hlen & Hq & Hi & Hc & Hl & Hg & Hp & Hm).
  intros [[r ->] | ->]; unfold step; now rewrite Hm, Hp.
Qed.

Lemma awaiting_send_blank :
  is_empty (trim (currentAnswer st)) = true ->
  step p st SendClicked = (st, []).
Proof.
  destruct Hst as (Hqs & Hlen & Hq & Hi & Hc & Hl & Hg & Hp & Hm).
  intros Hb. unfold step, input_disabled, handleSend.
  now rewrite Hm, Hl, Hg, Hb.
Qed.

Lemma awaiting_send_last :
  rest = [] ->
  is_empty (trim (currentAnswer st)) = false ->
  exists st',
    step p st SendClicked
    = (st', [SendMessage
               (refine_request p
                  (transcript_of qs
                     (given ++ [Some (trim (currentAnswer st))])))]).
Proof.
  destruct Hst as (Hqs & Hlen & Hq & Hi & Hc & Hl & Hg & Hp & Hm).
  intros Hr Hb. unfold step, input_disabled, handleSend.
  rewrite Hm, Hl, Hg, Hb. simpl.
  rewrite (more_questions_split st done q rest) by congruence.
  rewrite Hr. eexists. f_equal. f_equal. f_equal. f_equal.
  rewrite Hc, Hqs, Hr, (transcript_snoc _ _ _ _ Hlen).
  now rewrite <- app_assoc.
Qed.

Lemma awaiting_later_last :
  rest = [] ->
  exists st',
    step p st AnswerLaterClicked
    = (st', [SendMessage
               (refine_request p (transcript_of qs (given ++ [None])))]).
Proof.
  destruct Hst as (Hqs & Hlen & Hq & Hi & Hc & Hl & Hg & Hp & Hm).
  intros Hr. unfold step, answer_later_shown, input_disabled,
    handleAnswerLater.
  rewrite Hm, Hc, last_snoc, Hl, Hg. simpl.
  rewrite (more_questions_split st done q rest) by congruence.
  rewrite Hr. eexists. f_equal. f_equal. f_equal. f_equal.
  now rewrite Hqs, Hr, (transcript_snoc _ _ _ _ Hlen).
Qed.

End AtAQuestion.

Lemma awaiting_send_more qs done q q' rest given st :
  awaiting_at qs done q (q' :: rest) given st ->
  is_empty (trim (currentAnswer st)) = false ->
  exists st',
    step p st SendClicked = (st', [])
    /\ pausing_at qs done q q' rest given (trim (currentAnswer st)) st'.
Proof.
  intros (Hqs & Hlen & Hq & Hi & Hc & Hl & Hg & Hp & Hm) Hb.
  unfold step, input_disabled, handleSend.
  rewrite Hm, Hl, Hg, Hb. simpl.
  rewrite (more_questions_split st done q (q' :: rest)) by congruence.
  eexists. split; [reflexivity|].
  repeat split; simpl; try assumption.
  rewrite Hi, Nat.add_1_r, Hc, <- app_assoc. reflexivity.
Qed.

Lemma awaiting_later_more qs done q q' rest given st :
  awaiting_at qs done q (q' :: rest) given st ->
  exists st',
    step p st AnswerLaterClicked = (st', [])
    /\ awaiting_at qs (done ++ [q]) q' rest (given ++ [None]) st'.
Proof.
  intros (Hqs & Hlen & Hq & Hi & Hc & Hl & Hg & Hp & Hm).
  unfold step, answer_later_shown, input_disabled, handleAnswerLater.
  rewrite Hm, Hc, last_snoc, Hl, Hg. simpl.
  rewrite (more_questions_split st done q (q' :: rest)) by congruence.
  eexists. split; [reflexivity|].
  repeat split; simpl; try assumption.
  - now rewrite <- app_assoc.
  - rewrite !length_app. simpl. lia.
  - rewrite Hi, length_app. simpl. lia.
  - rewrite Hi, Nat.add_1_r, Hq, Hqs, next_question. simpl.
    now rewrite (transcript_snoc _ _ _ _ Hlen).
Qed.

Lemma pausing_timer qs done q q' rest given a st :
  pausing_at qs done q q' rest given a st ->
  exists st',
    step p st TimerFired = (st', [])
    /\ awaiting_at qs (done ++ [q]) q' rest (given ++ [Some a]) st'.
Proof.
  intros (Hqs & Hlen & Hq & Hi & Hp & Hg & Hl & Hm).
  unfold step, timer_fired. rewrite Hm, Hp. simpl.
  eexists. split; [reflexivity|].
  repeat split; simpl; try assumption.
  - now rewrite <- app_assoc.
  - rewrite !length_app. simpl. lia.
  - rewrite length_app. simpl. lia.
  - rewrite Hq, Hqs, next_question. simpl.
    rewrite (transcript_snoc _ _ _ _ Hlen), <- !app_assoc. reflexivity.
Qed.

Lemma pausing_ignores qs done q q' rest given a st ev :
  pausing_at qs done q q' rest given a st ->
  ev <> TimerFired ->
  step p st ev = (st, []).
Proof.
  intros (Hqs & Hlen & Hq & Hi & Hp & Hg & Hl & Hm) Hev.
  unfold step, input_disabled, answer_later_shown, input_disabled.
  rewrite Hm, Hp, Hl. simpl.
  destruct ev; try reflexivity; try contradiction.
  destruct (last (conversation st)) as [m|]; [|reflexivity].
  now destruct (role m).
Qed.

(** One event before the first synthesis: either the driver keeps asking
    and says nothing, or it sends the request for the final prompt, with
    a transcript of the specified shape. *)
Lemma asking_step qs st ev :
  asking qs st ->
  (exists st', step p st ev = (st', []) /\ asking qs st')
  \/ (exists st' given,
         step p st ev
         = (st', [SendMessage (refine_request p (transcript_of qs given))])
         /\ length given = length qs).
Proof.
  intros [(done & q & rest & given & Hst)
         | (done & q & q' & rest & given & a & Hst)].
  - assert (Hlen : length given = length done) by apply Hst.
    assert (Hqs : qs = done ++ q :: rest) by apply Hst.
    assert (Hfull : rest = [] -> forall x : option string,
               length (given ++ [x]) = length qs).
    { intros -> x. rewrite Hqs, !length_app. simpl. lia. }
    destruct ev as [text | | | r |].
    + left. destruct (awaiting_typed _ _ _ _ _ _ Hst text) as [-> Hst'].
      eexists. split; [reflexivity|]. left. now exists done, q, rest, given.
    + destruct (is_empty (trim (currentAnswer st))) eqn:Hb.
      * left. rewrite (awaiting_send_blank _ _ _ _ _ _ Hst Hb).
        eexists. split; [reflexivity|]. left.
        now exists done, q, rest, given.
      * destruct rest as [|q' rest].
        -- right.
           destruct (awaiting_send_last _ _ _ _ _ _ Hst eq_refl Hb)
             as [st' ->].
           eexists. eexists. split; [reflexivity|]. now apply Hfull.
        -- left. destruct (awaiting_send_more _ _ _ _ _ _ _ Hst Hb)
             as (st' & -> & Hst').
           eexists. split; [reflexivity|]. right.
           now exists done, q, q', rest, given, (trim (currentAnswer st)).
    + destruct rest as [|q' rest].
      * right. destruct (awaiting_later_last _ _ _ _ _ _ Hst eq_refl)
          as [st' ->].
        eexists. eexists. split; [reflexivity|]. now apply Hfull.
      * left. destruct (awaiting_later_more _ _ _ _ _ _ _ Hst)
          as (st' & -> & Hst').
        eexists. split; [reflexivity|]. left.
        now exists (done ++ [q]), q', rest, (given ++ [None]).
    + left. rewrite (awaiting_ignores _ _ _ _ _ _ Hst) by eauto.
      eexists. split; [reflexivity|]. left.
      now exists done, q, rest, given.
    + left. rewrite (awaiting_ignores _ _ _ _ _ _ Hst) by eauto.
      eexists. split; [reflexivity|]. left.
      now exists done, q, rest, given.
  - left. destruct ev as [text | | | r |].
    5:{ destruct (pausing_timer _ _ _ _ _ _ _ _ Hst) as (st' & -> & Hst').
        eexists. split; [reflexivity|]. left.
        now exists (done ++ [q]), q', rest, (given ++ [Some a]). }
    all: rewrite (pausing_ignores _ _ _ _ _ _ _ _ _ Hst) by discriminate;
      eexists; (split; [reflexivity|]); right;
      now exists done, q, q', rest, given, a.
Qed.

Lemma first_transcript qs evs :
  forall st,
    asking qs st ->
    match head (transcripts (run p st evs).2) with
    | Some h =>
        exists given, length given = length qs /\ h = transcript_of qs given
    | None => True
    end.
Proof.
  induction evs as [|ev evs IH]; intros st Hst; [exact I|].
  rewrite run_cons. simpl. rewrite transcripts_app.
  destruct (asking_step qs st ev Hst)
    as [(st' & -> & Hst') | (st' & given & -> & Hlen)]; simpl.
  - now apply IH.
  - now exists given.
Qed.

Lemma asked_awaiting q rest :
  awaiting_at (q :: rest) [] q rest [] (asked p (q :: rest)).1.
Proof. repeat split. Qed.

Lemma dialogue_cons (a a' : option string) (actions : list (option string)) :
  dialogue (a :: a' :: actions)
  = events_of false a ++ dialogue (a' :: actions).
Proof. reflexivity. Qed.

(** The run of a dialogue that does something with every question ends
    in one request, for exactly the transcript of those actions. *)
Lemma dialogue_run qs rest :
  forall done q given st actions,
    awaiting_at qs done q rest given st ->
    length actions = S (length rest) ->
    Forall sendable actions ->
    (run p st (dialogue actions)).2
    = [SendMessage
         (refine_request p
            (transcript_of qs
               (given ++ map (fun a => trim <$> a) actions)))].
Proof.
  induction rest as [|q' rest IH];
    intros done q given st actions Hst Hlen Hok.
  - destruct actions as [|a [|? ?]]; try discriminate.
    apply Forall_inv in Hok.
    destruct a as [text|]; simpl dialogue; unfold events_of.
    + destruct (awaiting_typed _ _ _ _ _ _ Hst text) as [Ht Hst'].
      rewrite run_cons, Ht. cbn [fst snd].
      destruct (awaiting_send_last _ _ _ _ _ _ Hst' eq_refl Hok)
        as [st' Hs].
      rewrite run_cons, Hs. reflexivity.
    + destruct (awaiting_later_last _ _ _ _ _ _ Hst eq_refl) as [st' Hs].
      rewrite run_cons, Hs. reflexivity.
  - destruct actions as [|a [|a' actions]]; try discriminate.
    rewrite dialogue_cons, run_app.
    pose proof (Forall_inv Hok) as Ha.
    pose proof (Forall_inv_tail Hok) as Hrest.
    simpl in Hlen. injection Hlen as Hlen.
    destruct a as [text|]; unfold events_of.
    + destruct (awaiting_typed _ _ _ _ _ _ Hst text) as [Ht Hst1].
      destruct (awaiting_send_more _ _ _ _ _ _ _ Hst1 Ha)
        as (st2 & Hs & Hst2).
      destruct (pausing_timer _ _ _ _ _ _ _ _ Hst2) as (st3 & Hf & Hst3).
      rewrite run_cons, Ht. cbn [fst snd].
      rewrite run_cons, Hs. cbn [fst snd].
      rewrite run_cons, Hf. cbn [fst snd run app].
      rewrite (IH _ _ _ _ (a' :: actions) Hst3) by (simpl; auto).
      cbn [currentAnswer setCurrentAnswer]. cbn [map fmap option_fmap option_map].
      now rewrite <- app_assoc.
    + destruct (awaiting_later_more _ _ _ _ _ _ _ Hst) as (st1 & Hs & Hst1).
      rewrite run_cons, Hs. cbn [fst snd run app].
      rewrite (IH _ _ _ _ (a' :: actions) Hst1) by (simpl; auto).
      cbn [map fmap option_fmap option_map].
      now rewrite <- app_assoc.
Qed.

Lemma dialogue_all_deferred (n : nat) :
  dialogue (repeat None n) = repeat AnswerLaterClicked n.
Proof.
  induction n as [|[|n] IH]; try reflexivity.
  change (repeat None (S (S n)))
    with (@None string :: None :: repeat None n).
  rewrite dialogue_cons. simpl. f_equal. exact IH.
Qed.

End DriverFacts.

Section DriverRetries.
Import Messaging ClarificationChat.

Variable p : Props.

Lemma last_of_closing (pre : list ConversationMessage) (q : string)
  (sent : list string) :
  last (pre ++ ask q :: map say sent)
  = Some (match last sent with
          | Some a => say a
          | None => ask q
          end).
Proof.
  destruct sent as [|a sent] using rev_ind.
  - simpl. now rewrite last_snoc.
  - rewrite List.map_app. simpl.
    change (pre ++ ask q :: map say sent ++ [say a])
      with (pre ++ (ask q :: map say sent) ++ [say a]).
    now rewrite app_assoc, !last_snoc.
Qed.

Lemma retried_questions (qs : list string)
  (history : list ConversationMessage) :
  retried qs history -> List.filter is_question history = map ask qs.
Proof.
  intros (done & q & given & sent & -> & Hlen & ->).
  rewrite List.filter_app, (transcript_questions _ _ Hlen), List.map_app.
  f_equal. simpl. f_equal.
  induction sent as [|a sent IH]; [reflexivity | exact IH].
Qed.

Lemma awaiting_closing qs done q given st :
  awaiting_at qs done q [] given st -> closing_at qs done q given [] st.
Proof.
  intros (Hqs & Hlen & Hq & Hi & Hc & Hl & Hg & Hp & Hm).
  repeat split; try assumption. now left.
Qed.

Ltac closing_done :=
  unfold closing_at;
  cbn [questions currentQuestionIndex conversation isGeneratingQuestions
         mounted pending isLoading];
  repeat match goal with |- _ /\ _ => split end;
  try assumption; try reflexivity; auto.

(** One event at the last question. *)
Lemma closing_step qs done q given sent st ev :
  closing_at qs done q given sent st ->
  ((exists sent', closing_at qs done q given sent' (step p st ev).1)
   \/ mounted (step p st ev).1 = false)
  /\ Forall (retried qs) (transcripts (step p st ev).2).
Proof.
  intros Hst.
  pose proof Hst as (Hqs & Hlen & Hq & Hi & Hc & Hg & Hm & Hp).
  assert (Hmore : more_questions st = false).
  { rewrite (more_questions_split st done q []); [reflexivity | | exact Hi].
    now rewrite Hq, Hqs. }
  assert (Hkeep : ((exists sent', closing_at qs done q given sent' st)
                   \/ mounted st = false)
                  /\ Forall (retried qs) (transcripts [])).
  { split; [left; now exists sent | constructor]. }
  unfold step. rewrite Hm. cbn [negb].
  destruct Hp as [[Hp Hl] | [Hp Hl]].
  - (* the input is open *)
    destruct ev as [text| | |r|]; try (rewrite Hp; exact Hkeep).
    + unfold input_disabled. rewrite Hl, Hg. cbn [orb fst snd].
      split; [|constructor]. left. exists sent.
      unfold setCurrentAnswer. closing_done.
    + unfold input_disabled, handleSend. rewrite Hl, Hg. cbn [orb].
      rewrite orb_false_r.
      destruct (is_empty (trim (currentAnswer st))); [exact Hkeep|].
      rewrite Hmore. cbn [fst snd transcripts refine_request].
      assert (Hnew : conversation st
                       ++ [{| role := user;
                              content := trim (currentAnswer st) |}]
                     = transcript_of done given
                       ++ ask q
                          :: map say (sent ++ [trim (currentAnswer st)])).
      { rewrite Hc, List.map_app, <- app_assoc. reflexivity. }
      split.
      * left. exists (sent ++ [trim (currentAnswer st)]). closing_done.
      * constructor; [|constructor].
        now exists done, q, given, (sent ++ [trim (currentAnswer st)]).
    + unfold answer_later_shown, input_disabled.
      rewrite Hc, last_of_closing, Hl, Hg.
      destruct (last sent) as [a|] eqn:Hlast; cbn [role say ask negb orb];
        [exact Hkeep|].
      assert (Hnone : sent = []).
      { destruct sent as [|x sent] using rev_ind; [reflexivity|].
        now rewrite last_snoc in Hlast. }
      subst sent.
      unfold handleAnswerLater. rewrite Hl, Hg, Hmore.
      cbn [orb fst snd transcripts refine_request conversation].
      split.
      * left. exists []. closing_done.
      * constructor; [|constructor]. now exists done, q, given, [].
  - (* a request is out *)
    destruct ev as [text| | |r|]; try (rewrite Hp; exact Hkeep).
    + unfold input_disabled. rewrite Hl. exact Hkeep.
    + unfold input_disabled. rewrite Hl. exact Hkeep.
    + unfold answer_later_shown, input_disabled.
      rewrite Hc, last_of_closing, Hl.
      destruct (last sent); exact Hkeep.
    + rewrite Hp. unfold refine_settled.
      destruct r as [response|e]; [destruct (refined response)|];
        cbn [fst snd transcripts].
      * split; [now right | constructor].
      * split; [|constructor]. left. exists sent. closing_done.
      * split; [|constructor]. left. exists sent. closing_done.
Qed.

(** One event of the dialogue: the driver stays in the dialogue, and what
    it sends for the final prompt has the shape. *)
Lemma dialogue_step qs st ev :
  in_dialogue qs st ->
  in_dialogue qs (step p st ev).1
  /\ Forall (retried qs) (transcripts (step p st ev).2).
Proof.
  intros [[(done & q & rest & given & Hst)
          | (done & q & q' & rest & given & a & Hst)]
         | [(done & q & given & sent & Hst) | Hm]].
  - destruct rest as [|q' rest].
    { destruct (closing_step _ _ _ _ _ _ ev (awaiting_closing _ _ _ _ _ Hst))
        as [[(sent' & Hnext) | Hnext] Hout].
      - split; [|exact Hout]. right. left. now exists done, q, given, sent'.
      - split; [|exact Hout]. now right; right. }
    destruct ev as [text | | | r |].
    + destruct (awaiting_typed p _ _ _ _ _ _ Hst text) as [-> Hst'].
      split; [|constructor]. left. left. now exists done, q, (q' :: rest), given.
    + destruct (is_empty (trim (currentAnswer st))) eqn:Hb.
      * rewrite (awaiting_send_blank p _ _ _ _ _ _ Hst Hb).
        split; [|constructor]. left. left.
        now exists done, q, (q' :: rest), given.
      * destruct (awaiting_send_more p _ _ _ _ _ _ _ Hst Hb)
          as (st' & -> & Hst').
        split; [|constructor]. left. right.
        now exists done, q, q', rest, given, (trim (currentAnswer st)).
    + destruct (awaiting_later_more p _ _ _ _ _ _ _ Hst)
        as (st' & -> & Hst').
      split; [|constructor]. left. left.
      now exists (done ++ [q]), q', rest, (given ++ [None]).
    + rewrite (awaiting_ignores p _ _ _ _ _ _ Hst) by eauto.
      split; [|constructor]. left. left.
      now exists done, q, (q' :: rest), given.
    + rewrite (awaiting_ignores p _ _ _ _ _ _ Hst) by eauto.
      split; [|constructor]. left. left.
      now exists done, q, (q' :: rest), given.
  - destruct ev as [text | | | r |].
    5:{ destruct (pausing_timer p _ _ _ _ _ _ _ _ Hst) as (st' & -> & Hst').
        split; [|constructor]. left. left.
        now exists (done ++ [q]), q', rest, (given ++ [Some a]). }
    all: rewrite (pausing_ignores p _ _ _ _ _ _ _ _ _ Hst) by discriminate;
      (split; [|constructor]); left; right;
      now exists done, q, q', rest, given, a.
  - destruct (closing_step _ _ _ _ _ _ ev Hst)
      as [[(sent' & Hnext) | Hnext] Hout].
    + split; [|exact Hout]. right. left. now exists done, q, given, sent'.
    + split; [|exact Hout]. now right; right.
  - unfold step. rewrite Hm. cbn [negb fst snd].
    split; [now right; right | constructor].
Qed.

Lemma every_transcript qs evs :
  forall st,
    in_dialogue qs st ->
    Forall (retried qs) (transcripts (run p st evs).2).
Proof.
  induction evs as [|ev evs IH]; intros st Hst; [constructor|].
  rewrite run_cons. cbn [snd]. rewrite transcripts_app.
  destruct (dialogue_step qs st ev Hst) as [Hnext Hout].
  apply Forall_app. split; [exact Hout | now apply IH].
Qed.

End DriverRetries.




(** ** The editor *)

Section EditorFacts.
Import Storage PromptEditor.

Lemma editor_run_cons (st : State) (ev : Event) (evs : list Event) :
  run st (ev :: evs)
  = ((run (step st ev).1 evs).1, (step st ev).2 ++ (run (step st ev).1 evs).2).
Proof.
  simpl. destruct (step st ev) as [st1 out1]. simpl.
  now destruct (run st1 evs).
Qed.

Lemma is_set_some (o : string) : o <> "" -> is_set (Some o) = true.
Proof. destruct o; [contradiction | reflexivity]. Qed.

Lemma shown_init (prompt : Prompt) : shown_is_current (init prompt).
Proof. intros H. discriminate. Qed.

Lemma shown_step (st : State) (ev : Event) :
  shown_is_current st -> shown_is_current (step st ev).1.
Proof.
  intros Hst. unfold step.
  destruct ev as [text|text|l| |chat refined| | |];
    try (destruct (showClarification st) eqn:Hchat; cbn [fst];
         [exact Hst | intros H; cbn in H; congruence]).
  - destruct (is_empty (trim (ed_content st))); [exact Hst|].
    destruct (showClarification st) eqn:Hchat; cbn [fst]; [exact Hst|].
    intros _. cbn [with_chats with_fields chats]. now rewrite last_snoc.
  - destruct (chats st !! chat) as [[seen|]|]; cbn [fst]; try exact Hst.
    intros H. discriminate.
  - destruct (showClarification st) eqn:Hchat; cbn [fst]; [|exact Hst].
    intros H. discriminate.
Qed.

Lemma shown_run (evs : list Event) (st : State) :
  shown_is_current st -> shown_is_current (run st evs).1.
Proof.
  revert st. induction evs as [|ev evs IH]; intros st Hst; [exact Hst|].
  rewrite editor_run_cons. cbn [fst]. apply IH. now apply shown_step.
Qed.

Lemma shown_closure (st : State) :
  shown_is_current st -> showClarification st = true ->
  chats st !! shown_chat st = Some (Some (closure_of st)).
Proof.
  intros Hst Hchat. unfold shown_chat. rewrite <- last_lookup. now apply Hst.
Qed.

(** A completion of the chat that is shown, as the source has it for a
    single chat. *)
Lemma timely_completion (st : State) (refined : string) :
  shown_is_current st -> showClarification st = true ->
  step st (ChatCompleted (shown_chat st) refined)
  = (with_chats (onComplete (closure_of st) st refined)
       (<[shown_chat st := None]> (chats st)), []).
Proof.
  intros Hst Hchat. unfold step. now rewrite (shown_closure st Hst Hchat).
Qed.

Lemma step_keeps (st : State) (ev : Event) (o : string) :
  shown_is_current st ->
  originalContentBeforeRefinement st = Some o -> o <> "" ->
  timely st [ev] = true ->
  originalContentBeforeRefinement (step st ev).1 = Some o
  /\ saves_keep o (step st ev).2.
Proof.
  intros Hst Ho Hne Htimely. pose proof (is_set_some o Hne) as Hset.
  unfold saves_keep.
  destruct ev as [text|text|l| |chat refined| | |].
  5:{ cbn [timely] in Htimely. rewrite andb_true_r in Htimely.
      apply andb_true_iff in Htimely as [Hchat Hshown].
      apply Nat.eqb_eq in Hshown. subst chat.
      rewrite (timely_completion st refined Hst Hchat).
      cbn [fst snd with_chats onComplete closure_of seen_original
             originalContentBeforeRefinement].
      rewrite Ho, Hset, andb_false_r. split; [reflexivity | constructor]. }
  all: unfold step;
    destruct (showClarification st); cbn [fst snd];
    try (destruct (is_empty (trim (ed_content st))); cbn [fst snd]);
    (split; [first [exact Ho | reflexivity] | repeat constructor]).
  all: unfold savedPrompt; cbn [originalContent]; now rewrite Ho, Hset.
Qed.

Lemma timely_cons (st : State) (ev : Event) (evs : list Event) :
  timely st (ev :: evs) = (timely st [ev] && timely (step st ev).1 evs)%bool.
Proof. cbn [timely]. now rewrite andb_true_r. Qed.

Lemma run_keeps (evs : list Event) :
  forall (st : State) (o : string),
    shown_is_current st ->
    originalContentBeforeRefinement st = Some o -> o <> "" ->
    timely st evs = true ->
    originalContentBeforeRefinement (run st evs).1 = Some o
    /\ saves_keep o (run st evs).2.
Proof.
  induction evs as [|ev evs IH]; intros st o Hst Ho Hne Htimely.
  - split; [exact Ho | constructor].
  - rewrite editor_run_cons. cbn [fst snd].
    rewrite timely_cons in Htimely.
    apply andb_true_iff in Htimely as [Hev Hrest].
    destruct (step_keeps st ev o Hst Ho Hne Hev) as [Ho1 Hs1].
    destruct (IH _ o (shown_step st ev Hst) Ho1 Hne Hrest) as [Ho2 Hs2].
    split; [exact Ho2|]. now apply Forall_app.
Qed.

Lemma find_after_upsert (prompt : Prompt) (ps : list Prompt) :
  let same := fun q : Prompt => String.eqb (name q) (name prompt) in
  List.find same
    (match findIndex same ps with
     | Some existingIndex => <[existingIndex := prompt]> ps
     | None => ps ++ [prompt]
     end)
  = Some prompt.
Proof.
  intros same. induction ps as [|x ps IH]; simpl.
  - unfold same. now rewrite String.eqb_refl.
  - destruct (same x) eqn:Hx; simpl.
    + unfold same at 1. now rewrite String.eqb_refl.
    + destruct (findIndex same ps) as [i|]; simpl; now rewrite Hx.
Qed.

Lemma saved_prompt_is_read_back (w w' : World) (saved : Prompt) :
  savePrompt w saved = (Ok tt, w') ->
  getPrompt w' (name saved) = Ok (Some saved).
Proof.
  unfold savePrompt.
  destruct (blank (name saved)); [discriminate|].
  destruct (getStorageData w) as [data|] eqn:Hdata; [|discriminate].
  destruct (saveStorageData w _) as [[[]|] w1] eqn:Hsave; [|discriminate].
  intros [= <-]. unfold getPrompt.
  rewrite (saved_then_read _ _ _ _ Hdata Hsave). simpl.
  f_equal. apply find_after_upsert.
Qed.

End EditorFacts.

(** C4, at the failing input.  A chat that was left by its back arrow
    still calls its [onComplete] when its request succeeds, and that
    closure holds the content and the empty archive of the render that
    opened the chat.  After a second chat has refined the edited content
    and archived it, every completion so far having come from the chat
    shown, the late completion of the first chat finds its own archive
    empty and writes the content it closed over: the archived text is
    overwritten, and the prompt saved then carries the overwritten
    text. *)
Theorem C4_late_completion_overwrites_the_archive :
  let opened := PromptEditor.init (ClarificationChat.prompt blog_post) in
  PromptEditor.timely opened refinement_after_a_chat_was_left = true
  /\ PromptEditor.originalContentBeforeRefinement
       (PromptEditor.run opened refinement_after_a_chat_was_left).1
     = Some "Write a blog post about owls"
  /\ PromptEditor.originalContentBeforeRefinement
       (PromptEditor.run opened late_completion).1
     = Some "Write a blog post"
  /\ (PromptEditor.run opened late_completion).2
     = [PromptEditor.OnSave
          {| Storage.name := "post";
             Storage.content := "Write a blog post on a topic you choose";
             Storage.labels := [];
             Storage.originalContent := Some "Write a blog post" |}].
Proof. repeat split. Qed.

(* ===================================================================== *)
(** * Further properties                                                  *)
(* ===================================================================== *)

(** ** trim *)

Lemma trimEnd_idempotent (s : string) : trimEnd (trimEnd s) = trimEnd s.
Proof.
  induction s as [|c r IH]; simpl; [reflexivity|].
  destruct (is_white_space c && is_empty (trimEnd r))%bool eqn:E;
    [reflexivity|].
  simpl. now rewrite IH, E.
Qed.

Lemma trimStart_of_trimmed_start (s : string) :
  trimStart (trimEnd (trimStart s)) = trimEnd (trimStart s).
Proof.
  induction s as [|c r IH]; simpl; [reflexivity|].
  destruct (is_white_space c) eqn:Hc; [exact IH|].
  simpl. rewrite Hc. simpl. now rewrite Hc.
Qed.

Lemma trim_idempotent (s : string) : trim (trim s) = trim s.
Proof.
  unfold trim. now rewrite trimStart_of_trimmed_start, trimEnd_idempotent.
Qed.

(** ** The adapters, beyond the claims *)

Section AdapterExtras.
Import Providers ApiAdapter.

Lemma drop_later_find (messages : list ChatMessage) :
  find_system (drop_later_systems false messages) = find_system messages.
Proof.
  unfold find_system.
  induction messages as [|m rest IH]; simpl; [reflexivity|].
  destruct (is_system m) eqn:E; simpl; now rewrite E.
Qed.

Lemma drop_later_conversation (seen : bool) (messages : list ChatMessage) :
  conversationMessages (drop_later_systems seen messages)
  = conversationMessages messages.
Proof.
  unfold conversationMessages. revert seen.
  induction messages as [|m rest IH]; intros seen; simpl; [reflexivity|].
  destruct (is_system m) eqn:E; simpl.
  - destruct seen; simpl; rewrite ?E; simpl; apply IH.
  - rewrite E. simpl. now rewrite IH.
Qed.

Lemma opt_trim_some path v t :
  opt_trim path v = Ok (Some t) -> exists s, t = trim s.
Proof.
  destruct v as [[| | |s| |]|]; simpl; try discriminate.
  intros [= <-]. now exists s.
Qed.

Lemma reply_text_trimmed provider data t :
  reply_text provider data = Ok (Some t) -> exists s, t = trim s.
Proof.
  unfold reply_text, openAIContent, anthropicContent, googleContent.
  destruct (String.eqb _ _); [|destruct (String.eqb _ _)];
    (destruct (get_strict data _); simpl; [|discriminate]);
    apply opt_trim_some.
Qed.

Lemma settle_trimmed provider reply r :
  settle provider reply = Ok r -> exists s, resp_content r = trim s.
Proof.
  unfold settle. destruct reply as [response|]; simpl; [|discriminate].
  destruct (ok response); simpl; [|discriminate].
  destruct (json_body response) as [data|]; simpl; [|discriminate].
  destruct (reply_text provider data) as [[t|]|] eqn:Ht; simpl;
    try discriminate.
  destruct (truthy t); [|discriminate].
  intros [= <-]. now apply reply_text_trimmed in Ht.
Qed.

Lemma slice0_length (n : nat) (s : string) :
  (String.length (slice0 n s) <= n)%nat.
Proof.
  unfold slice0. revert s. induction n as [|n IH]; intros [|c s]; simpl;
    try lia.
  specialize (IH s). lia.
Qed.

Lemma slice0_prefix (n : nat) (s : string) :
  String.prefix (slice0 n s) s = true.
Proof.
  unfold slice0. revert s. induction n as [|n IH]; intros [|c s]; simpl;
    try reflexivity.
  destruct (ascii_dec c c); [apply IH | contradiction].
Qed.

Lemma slice0_short (n : nat) (s : string) :
  (String.length s <= n)%nat -> slice0 n s = s.
Proof.
  unfold slice0. revert s. induction n as [|n IH]; intros [|c s]; simpl;
    try reflexivity; try lia.
  intros H. rewrite IH; [reflexivity | lia].
Qed.

Lemma wire_request_dispatched provider apiKey model messages temperature :
  wire_request provider apiKey model messages temperature = None
  <-> dispatched (id provider) = false.
Proof.
  unfold wire_request, dispatched.
  destruct (String.eqb (id provider) "openai");
    destruct (String.eqb (id provider) "anthropic");
    destruct (String.eqb (id provider) "google"); simpl;
    split; intros H; congruence.
Qed.

End AdapterExtras.

(** X1. The API key is in exactly one place of the request that each
    adapter hands to [fetch]: for OpenAI the value of the [Authorization]
    header, after [Bearer ]; for Anthropic the value of the [x-api-key]
    header; for Google the end of the URL, after [?key=].  The headers are
    given in full, so no other header carries the key; method and body are
    the same for every key, and so is the URL for the first two. *)
Theorem X1_key_is_confined_to_one_place
  (key1 key2 baseUrl model : string) (messages : list ApiAdapter.ChatMessage)
  (temperature : Q) :
  let o k := ApiAdapter.openAIRequest k baseUrl model messages temperature in
  let a k := ApiAdapter.anthropicRequest k baseUrl model messages temperature in
  let g k := ApiAdapter.googleRequest k baseUrl model messages temperature in
  ((forall fetch,
       ApiAdapter.openAIChatCompletion fetch key1 baseUrl model messages
         temperature
       = settle Providers.openai (fetch (o key1)))
   /\ (forall fetch,
          ApiAdapter.anthropicChatCompletion fetch key1 baseUrl model
            messages temperature
          = settle Providers.anthropic (fetch (a key1)))
   /\ (forall fetch,
          ApiAdapter.googleChatCompletion fetch key1 baseUrl model messages
            temperature
          = settle Providers.google (fetch (g key1))))
  /\ (ApiAdapter.req_body (o key1) = ApiAdapter.req_body (o key2)
      /\ ApiAdapter.req_url (o key1) = ApiAdapter.req_url (o key2)
      /\ ApiAdapter.req_method (o key1) = ApiAdapter.req_method (o key2)
      /\ ApiAdapter.req_headers (o key1)
         = [("Content-Type", "application/json");
            ("Authorization", "Bearer " +:+ key1)])
  /\ (ApiAdapter.req_body (a key1) = ApiAdapter.req_body (a key2)
      /\ ApiAdapter.req_url (a key1) = ApiAdapter.req_url (a key2)
      /\ ApiAdapter.req_method (a key1) = ApiAdapter.req_method (a key2)
      /\ ApiAdapter.req_headers (a key1)
         = [("Content-Type", "application/json");
            ("x-api-key", key1);
            ("anthropic-version", "2023-06-01")])
  /\ (ApiAdapter.req_body (g key1) = ApiAdapter.req_body (g key2)
      /\ ApiAdapter.req_headers (g key1)
         = [("Content-Type", "application/json")]
      /\ ApiAdapter.req_method (g key1) = ApiAdapter.req_method (g key2)
      /\ ApiAdapter.req_url (g key1)
         = baseUrl +:+ "/" +:+ model +:+ ":generateContent?key=" +:+ key1).
Proof. cbv zeta. simpl. repeat split. Qed.

(** X2. For a provider id outside openai, anthropic and google,
    [chatCompletion] fails with "Unsupported provider: <id>" whatever the
    network would answer, and writes the request record and the error
    record. *)
Theorem X2_unsupported_provider fetch provider apiKey request :
  dispatched (Providers.id provider) = false ->
  ApiAdapter.chatCompletion fetch provider apiKey request
  = ([ApiAdapter.LLM_REQUEST (Providers.id provider)
        (ApiAdapter.model request) (default_temperature request)
        (ApiAdapter.messages request);
      ApiAdapter.LLM_ERROR (Providers.id provider)
        (ApiAdapter.model request) (default_temperature request)
        (ApiAdapter.messages request)
        ("Unsupported provider: " +:+ Providers.id provider)],
     Throw (Error ("Unsupported provider: " +:+ Providers.id provider))).
Proof.
  intros H. rewrite chatCompletion_settle. cbv zeta.
  rewrite dispatch_settle.
  apply wire_request_dispatched
    with (apiKey := apiKey) (model := ApiAdapter.model request)
         (messages := ApiAdapter.messages request)
         (temperature := default_temperature request) in H.
  now rewrite H.
Qed.

Lemma X2_witness :
  (ApiAdapter.chatCompletion (fun _ => Ok unauthorized) mistral "key" hello).2
  = Throw (Error "Unsupported provider: mistral").
Proof.
  rewrite (X2_unsupported_provider (fun _ => Ok unauthorized) mistral "key"
             hello eq_refl).
  reflexivity.
Defined.

(** X3. [chatCompletion] writes two records, the request first.  When it
    resolves, the second is the response record, whose preview is a prefix
    of the returned content, at most 500 characters long, and the whole
    content when that has no more than 500 characters.  When it rejects,
    the second is the error record, with the message of the error that the
    caller gets. *)
Theorem X3_two_log_records fetch provider apiKey request :
  let call := ApiAdapter.chatCompletion fetch provider apiKey request in
  let requested :=
    ApiAdapter.LLM_REQUEST (Providers.id provider) (ApiAdapter.model request)
      (default_temperature request) (ApiAdapter.messages request) in
  match call.2 with
  | Ok response =>
      exists preview,
        call.1 = [requested;
                  ApiAdapter.LLM_RESPONSE (Providers.id provider)
                    (ApiAdapter.model request) preview]
        /\ String.prefix preview (ApiAdapter.resp_content response) = true
        /\ (String.length preview <= 500)%nat
        /\ ((String.length (ApiAdapter.resp_content response) <= 500)%nat ->
            preview = ApiAdapter.resp_content response)
  | Throw e =>
      call.1 = [requested;
                ApiAdapter.LLM_ERROR (Providers.id provider)
                  (ApiAdapter.model request) (default_temperature request)
                  (ApiAdapter.messages request) (err_message e)]
  end.
Proof.
  cbv zeta. rewrite chatCompletion_settle. cbv zeta. cbn [fst snd].
  destruct (ApiAdapter.dispatch _ _ _ _ _ _) as [response|e]; simpl.
  - exists (slice0 500 (ApiAdapter.resp_content response)).
    split; [reflexivity|]. split; [apply slice0_prefix|].
    split; [apply slice0_length | apply slice0_short].
  - reflexivity.
Qed.

(** X4. A failure of the network, and a body that [json()] cannot read,
    reach the caller as they are: for a provider of the table
    [chatCompletion] rejects with that very error, not wrapped. *)
Theorem X4_network_and_parse_failures_pass_through :
  (forall fetch provider apiKey request wire e,
      wire_request provider apiKey (ApiAdapter.model request)
        (ApiAdapter.messages request) (default_temperature request)
      = Some wire ->
      fetch wire = Throw e ->
      (ApiAdapter.chatCompletion fetch provider apiKey request).2 = Throw e)
  /\ (forall fetch provider apiKey request wire response e,
         wire_request provider apiKey (ApiAdapter.model request)
           (ApiAdapter.messages request) (default_temperature request)
         = Some wire ->
         fetch wire = Ok response ->
         ApiAdapter.ok response = true ->
         ApiAdapter.json_body response = Throw e ->
         (ApiAdapter.chatCompletion fetch provider apiKey request).2
         = Throw e).
Proof.
  split.
  - intros fetch provider apiKey request wire e Hw Hf.
    now rewrite (chatCompletion_result _ _ _ _ _ Hw), Hf.
  - intros fetch provider apiKey request wire response e Hw Hf Hok Hj.
    rewrite (chatCompletion_result _ _ _ _ _ Hw), Hf. unfold settle. simpl.
    now rewrite Hok, Hj.
Qed.

Lemma X4_witness :
  (ApiAdapter.chatCompletion (fun _ => Throw (TypeError "Failed to fetch"))
     Providers.google "key" hello).2
  = Throw (TypeError "Failed to fetch")
  /\ (ApiAdapter.chatCompletion
        (fun _ => Ok {| ApiAdapter.status := 200;
                        ApiAdapter.statusText := "OK";
                        ApiAdapter.text := Ok "<html>";
                        ApiAdapter.json_body :=
                          Throw {| err_name := "SyntaxError";
                                   err_message := "Unexpected token <" |} |})
        Providers.anthropic "key" hello).2
     = Throw {| err_name := "SyntaxError";
                err_message := "Unexpected token <" |}.
Proof.
  pose proof X4_network_and_parse_failures_pass_through as (Hnet & Hparse).
  split.
  - eapply Hnet; reflexivity.
  - eapply Hparse; reflexivity.
Defined.

(** X5. The content of every result of [chatCompletion] is already
    trimmed: trimming it again, or only its start or its end, changes
    nothing. *)
Theorem X5_result_content_is_trimmed fetch provider apiKey request result :
  (ApiAdapter.chatCompletion fetch provider apiKey request).2 = Ok result ->
  trim (ApiAdapter.resp_content result) = ApiAdapter.resp_content result
  /\ trimStart (ApiAdapter.resp_content result)
     = ApiAdapter.resp_content result
  /\ trimEnd (ApiAdapter.resp_content result)
     = ApiAdapter.resp_content result.
Proof.
  rewrite chatCompletion_settle. cbv zeta. cbn [snd].
  rewrite dispatch_settle.
  destruct (wire_request _ _ _ _ _) as [wire|]; [|discriminate].
  intros H. apply settle_trimmed in H as [s ->].
  split; [apply trim_idempotent|]. split.
  - apply trimStart_of_trimmed_start.
  - apply trimEnd_idempotent.
Qed.

Lemma X5_witness :
  trim "Hi." = "Hi.".
Proof.
  apply (X5_result_content_is_trimmed
           (fun _ => Ok (success_reply (openai_body (JStr "  Hi. "))))
           Providers.openai "key" hello {| ApiAdapter.resp_content := "Hi." |}).
  reflexivity.
Defined.

(** X6. The [maxTokens] of the request is never used: the console output
    and the result of [chatCompletion] are the same for every value of it,
    and the Anthropic body carries [max_tokens: 4096] in any case. *)
Theorem X6_max_tokens_is_ignored fetch provider apiKey request cap :
  ApiAdapter.chatCompletion fetch provider apiKey (with_maxTokens request cap)
  = ApiAdapter.chatCompletion fetch provider apiKey request
  /\ forall wire,
      wire_request Providers.anthropic apiKey
        (ApiAdapter.model (with_maxTokens request cap))
        (ApiAdapter.messages (with_maxTokens request cap))
        (default_temperature (with_maxTokens request cap)) = Some wire ->
      get (ApiAdapter.req_body wire) "max_tokens" = Some (JNum (4096 # 1)).
Proof.
  split; [reflexivity|].
  intros wire [= <-]. simpl. unfold ApiAdapter.anthropicBody.
  destruct (ApiAdapter.find_system _); reflexivity.
Qed.

Lemma X6_witness :
  get (ApiAdapter.req_body
         (ApiAdapter.anthropicRequest "key"
            (Providers.apiBaseUrl Providers.anthropic) "gpt-4"
            (ApiAdapter.messages hello) (7 # 10)%Q)) "max_tokens"
  = Some (JNum (4096 # 1)).
Proof.
  apply (proj2 (X6_max_tokens_is_ignored (fun _ => Ok unauthorized)
                  Providers.anthropic "key" hello (Some 16))).
  reflexivity.
Defined.

(** X7. The provider table and the dispatch agree.  For every
    [ProviderId], [getProvider] returns the entry whose [id] is that id,
    which is one of [getAllProviders] and whose default model is among its
    models; [getAllProviders] lists the three entries in the order of the
    table; [chatCompletion] dispatches exactly the strings that are a
    [ProviderId]; and for the entry of a [ProviderId] the adapter hands
    [fetch] one request, whose URL starts with the entry's [apiBaseUrl],
    and settles to what it makes of the answer. *)
Theorem X7_provider_table_matches_dispatch :
  (forall providerId,
      Providers.id (Providers.getProvider providerId)
      = Providers.id_text providerId
      /\ In (Providers.getProvider providerId) Providers.getAllProviders
      /\ In (Providers.defaultModel (Providers.getProvider providerId))
           (Providers.models (Providers.getProvider providerId)))
  /\ Providers.getAllProviders
     = map Providers.getProvider
         [Providers.OpenAI; Providers.Anthropic; Providers.Google]
  /\ (forall text,
         dispatched text = true
         <-> exists providerId, text = Providers.id_text providerId)
  /\ (forall providerId apiKey model messages temperature,
         exists wire,
           wire_request (Providers.getProvider providerId) apiKey model
             messages temperature = Some wire
           /\ String.prefix
                (Providers.apiBaseUrl (Providers.getProvider providerId))
                (ApiAdapter.req_url wire) = true
           /\ forall fetch,
                ApiAdapter.dispatch fetch (Providers.getProvider providerId)
                  apiKey model messages temperature
                = settle (Providers.getProvider providerId) (fetch wire)).
Proof.
  split; [|split; [|split]].
  - intros []; simpl; tauto.
  - reflexivity.
  - intros text. unfold dispatched. split.
    + intros H. apply orb_true_iff in H as [H | H];
        [apply orb_true_iff in H as [H | H]|];
        apply String.eqb_eq in H; subst text.
      * now exists Providers.OpenAI.
      * now exists Providers.Anthropic.
      * now exists Providers.Google.
    + intros ([] & ->); reflexivity.
  - intros providerId apiKey model messages temperature.
    destruct providerId; eexists;
      (split; [reflexivity|]); (split; [reflexivity|]);
      intros fetch; now rewrite dispatch_settle.
Qed.

Lemma X7_witness :
  exists providerId, "google" = Providers.id_text providerId.
Proof.
  apply (proj1 (proj2 (proj2 X7_provider_table_matches_dispatch)) "google").
  reflexivity.
Defined.

(** X8. Anthropic and Google are sent the first system message only: a
    system message after the first changes nothing in the request, where
    OpenAI is sent every message, system messages included, in order. *)
Theorem X8_later_system_messages_are_dropped
  (apiKey baseUrl model : string) (messages : list ApiAdapter.ChatMessage)
  (temperature : Q) :
  ApiAdapter.anthropicRequest apiKey baseUrl model
    (drop_later_systems false messages) temperature
  = ApiAdapter.anthropicRequest apiKey baseUrl model messages temperature
  /\ ApiAdapter.googleRequest apiKey baseUrl model
       (drop_later_systems false messages) temperature
     = ApiAdapter.googleRequest apiKey baseUrl model messages temperature
  /\ get (ApiAdapter.req_body
            (ApiAdapter.openAIRequest apiKey baseUrl model messages
               temperature)) "messages"
     = Some (JArr (map ApiAdapter.message_json messages)).
Proof.
  unfold ApiAdapter.anthropicRequest, ApiAdapter.googleRequest,
    ApiAdapter.anthropicBody, ApiAdapter.googleBody.
  rewrite drop_later_find, drop_later_conversation.
  repeat split.
Qed.

(** ** The credential store, beyond the claims *)

Section CredentialFacts.
Import ProviderStorage.

Lemma lookup_own_key (key : string) (m : gmap string json) :
  filter (fun kv : string * json => kv.1 = key) m !! key = m !! key.
Proof.
  apply option_eq. intros v. rewrite map_lookup_filter_Some. simpl.
  split; [now intros [? _] | now split].
Qed.

Lemma read_key (c : Chrome) (providerId : string) :
  read_fault c = None ->
  getProviderApiKey c providerId
  = Ok (get (or_empty_object (items c !! PROVIDER_API_KEYS)) providerId).
Proof.
  intros H. unfold getProviderApiKey, storage_get. rewrite H. simpl.
  now rewrite lookup_own_key.
Qed.

Lemma read_selected (c : Chrome) :
  read_fault c = None -> getSelectedProvider c = Ok (items c !! SELECTED_PROVIDER).
Proof.
  intros H. unfold getSelectedProvider, storage_get. rewrite H. simpl.
  now rewrite lookup_own_key.
Qed.

Lemma read_all_keys (c : Chrome) :
  read_fault c = None ->
  getAllProviderApiKeys c = Ok (or_empty_object (items c !! PROVIDER_API_KEYS)).
Proof.
  intros H. unfold getAllProviderApiKeys, storage_get. rewrite H. simpl.
  now rewrite lookup_own_key.
Qed.

Lemma assoc_set_field_eq (k : string) (v : json) fields :
  assoc k (set_field k v fields) = Some v.
Proof.
  induction fields as [|[k' v'] rest IH]; simpl.
  - now rewrite String.eqb_refl.
  - destruct (String.eqb k k') eqn:E; simpl.
    + now rewrite String.eqb_refl.
    + now rewrite E.
Qed.

Lemma assoc_set_field_ne (k other : string) (v : json) fields :
  other <> k -> assoc other (set_field k v fields) = assoc other fields.
Proof.
  intros Hne. induction fields as [|[k' v'] rest IH]; simpl.
  - destruct (String.eqb_spec other k); [contradiction | reflexivity].
  - destruct (String.eqb_spec k k') as [<-|Hk]; simpl.
    + destruct (String.eqb_spec other k); [contradiction | reflexivity].
    + now rewrite IH.
Qed.

Lemma assoc_remove_field_eq (k : string) fields :
  assoc k (remove_field k fields) = @None json.
Proof.
  induction fields as [|[k' v'] rest IH]; simpl; [reflexivity|].
  destruct (String.eqb k k') eqn:E; simpl; [exact IH | now rewrite E].
Qed.

Lemma assoc_remove_field_ne (k other : string) fields :
  other <> k ->
  assoc other (remove_field k fields) = @assoc json other fields.
Proof.
  intros Hne. induction fields as [|[k' v'] rest IH]; simpl; [reflexivity|].
  destruct (String.eqb_spec k k') as [<-|Hk]; simpl.
  - destruct (String.eqb_spec other k); [contradiction | exact IH].
  - now rewrite IH.
Qed.

Lemma or_empty_object_shape (c : Chrome) :
  keys_object c ->
  exists fields,
    or_empty_object (items c !! PROVIDER_API_KEYS) = JObj fields.
Proof.
  intros H. unfold or_empty_object.
  destruct (items c !! PROVIDER_API_KEYS) as [v|] eqn:Hv; [|now exists []].
  destruct (json_truthy v) eqn:Ht; [|now exists []].
  exact (H v Hv Ht).
Qed.

Lemma get_unassign_eq (keys : json) (k : string) :
  get (unassign keys k) k = None.
Proof. destruct keys; simpl; try reflexivity. apply assoc_remove_field_eq. Qed.

Lemma get_unassign_ne (keys : json) (k other : string) :
  other <> k -> get (unassign keys k) other = get keys other.
Proof.
  intros H. destruct keys; simpl; try reflexivity.
  now apply assoc_remove_field_ne.
Qed.

Lemma unassign_truthy (keys : json) (k : string) :
  json_truthy keys = true ->
  or_empty_object (Some (unassign keys k)) = unassign keys k.
Proof.
  destruct keys; simpl; intros H; try discriminate; rewrite ?H; reflexivity.
Qed.

Lemma or_empty_object_truthy (v : jsval) :
  json_truthy (or_empty_object v) = true.
Proof.
  destruct v as [j|]; simpl; [|reflexivity].
  destruct (json_truthy j) eqn:E; [exact E | reflexivity].
Qed.

End CredentialFacts.

(** X9. A key that [setProviderApiKey] has stored is what
    [getProviderApiKey] returns for that provider afterwards; the keys of
    the other providers and the selected provider are as before; the stored
    value is still an object.  With no storage fault the write succeeds.
    (The stored value is taken to be absent, falsy or an object.) *)
Theorem X9_stored_key_is_read_back :
  (forall a providerId apiKey a',
      keys_object (ProviderStorage.area a) ->
      ProviderStorage.setProviderApiKey a providerId apiKey = (Ok tt, a') ->
      ProviderStorage.getProviderApiKey (ProviderStorage.area a') providerId
      = Ok (Some (JStr apiKey))
      /\ (forall other,
             other <> providerId ->
             ProviderStorage.getProviderApiKey (ProviderStorage.area a') other
             = ProviderStorage.getProviderApiKey (ProviderStorage.area a)
                 other)
      /\ ProviderStorage.getSelectedProvider (ProviderStorage.area a')
         = ProviderStorage.getSelectedProvider (ProviderStorage.area a)
      /\ keys_object (ProviderStorage.area a'))
  /\ (forall a providerId apiKey,
         keys_object (ProviderStorage.area a) ->
         ProviderStorage.read_fault (ProviderStorage.area a) = None ->
         ProviderStorage.write_fault a = None ->
         exists a',
           ProviderStorage.setProviderApiKey a providerId apiKey = (Ok tt, a')).
Proof.
  split.
  - intros a providerId apiKey a' Hshape.
    unfold ProviderStorage.setProviderApiKey, ProviderStorage.storage_get,
      ProviderStorage.storage_set.
    destruct (ProviderStorage.read_fault (ProviderStorage.area a))
      as [[e|m]|] eqn:Hread; try discriminate.
    rewrite lookup_own_key.
    destruct (or_empty_object_shape _ Hshape) as [fields Hfields].
    rewrite Hfields. simpl.
    destruct (ProviderStorage.write_fault a) as [[e|m]|]; try discriminate.
    intros [= <-]. simpl.
    split; [|split; [|split]].
    + rewrite read_key by reflexivity. simpl.
      rewrite lookup_insert_eq. simpl. now rewrite assoc_set_field_eq.
    + intros other Hne. rewrite read_key by reflexivity.
      rewrite (read_key _ _ Hread). simpl.
      rewrite lookup_insert_eq. simpl.
      rewrite Hfields. simpl. now rewrite assoc_set_field_ne.
    + rewrite read_selected by reflexivity. rewrite (read_selected _ Hread).
      simpl. now rewrite lookup_insert_ne by discriminate.
    + intros v. simpl. rewrite lookup_insert_eq. intros [= <-] _. eauto.
  - intros a providerId apiKey Hshape Hread Hwrite.
    unfold ProviderStorage.setProviderApiKey, ProviderStorage.storage_get,
      ProviderStorage.storage_set.
    rewrite Hread, lookup_own_key.
    destruct (or_empty_object_shape _ Hshape) as [fields ->]. simpl.
    rewrite Hwrite. eauto.
Qed.

Lemma sample_area_shape : keys_object (ProviderStorage.area sample_area).
Proof.
  intros v. simpl. rewrite lookup_insert_eq. intros [= <-] _. eauto.
Qed.

Lemma X9_witness :
  exists a',
    ProviderStorage.setProviderApiKey sample_area "google" "g-key"
    = (Ok tt, a')
    /\ ProviderStorage.getProviderApiKey (ProviderStorage.area a') "google"
       = Ok (Some (JStr "g-key")).
Proof.
  pose proof X9_stored_key_is_read_back as (Hread & Hdone).
  destruct (Hdone sample_area "google" "g-key" sample_area_shape
              eq_refl eq_refl) as [a' Ha'].
  exists a'. split; [exact Ha'|].
  apply (Hread sample_area "google" "g-key" a' sample_area_shape Ha').
Defined.

(** X10. After a [deleteProviderApiKey] that resolves, [getProviderApiKey]
    returns [undefined] for that provider, and for every other provider
    what it returned before; the selected provider stays selected, also
    when it is the provider whose key went.  With no storage fault the
    deletion resolves, whether or not a key was stored. *)
Theorem X10_deleted_key_is_gone :
  (forall a providerId a',
      ProviderStorage.deleteProviderApiKey a providerId = (Ok tt, a') ->
      ProviderStorage.getProviderApiKey (ProviderStorage.area a') providerId
      = Ok None
      /\ (forall other,
             other <> providerId ->
             ProviderStorage.getProviderApiKey (ProviderStorage.area a') other
             = ProviderStorage.getProviderApiKey (ProviderStorage.area a)
                 other)
      /\ ProviderStorage.getSelectedProvider (ProviderStorage.area a')
         = ProviderStorage.getSelectedProvider (ProviderStorage.area a))
  /\ (forall a providerId,
         ProviderStorage.read_fault (ProviderStorage.area a) = None ->
         ProviderStorage.write_fault a = None ->
         exists a',
           ProviderStorage.deleteProviderApiKey a providerId = (Ok tt, a')).
Proof.
  split.
  - intros a providerId a'.
    unfold ProviderStorage.deleteProviderApiKey, ProviderStorage.storage_get,
      ProviderStorage.storage_set.
    destruct (ProviderStorage.read_fault (ProviderStorage.area a))
      as [[e|m]|] eqn:Hread; try discriminate.
    rewrite lookup_own_key.
    destruct (ProviderStorage.write_fault a) as [[e|m]|]; try discriminate.
    intros [= <-]. simpl.
    set (keys := ProviderStorage.or_empty_object
                   (ProviderStorage.items (ProviderStorage.area a)
                    !! ProviderStorage.PROVIDER_API_KEYS)).
    assert (Hkeys : ProviderStorage.json_truthy keys = true)
      by apply or_empty_object_truthy.
    split; [|split].
    + rewrite read_key by reflexivity. simpl. rewrite lookup_insert_eq.
      rewrite (unassign_truthy _ _ Hkeys). now rewrite get_unassign_eq.
    + intros other Hne. rewrite read_key by reflexivity.
      rewrite (read_key _ _ Hread). simpl. rewrite lookup_insert_eq.
      rewrite (unassign_truthy _ _ Hkeys). now rewrite get_unassign_ne.
    + rewrite read_selected by reflexivity. rewrite (read_selected _ Hread).
      simpl. now rewrite lookup_insert_ne by discriminate.
  - intros a providerId Hread Hwrite.
    unfold ProviderStorage.deleteProviderApiKey, ProviderStorage.storage_get,
      ProviderStorage.storage_set.
    rewrite Hread, Hwrite. eauto.
Qed.

Lemma X10_witness :
  exists a',
    ProviderStorage.deleteProviderApiKey sample_area "openai" = (Ok tt, a')
    /\ ProviderStorage.getProviderApiKey (ProviderStorage.area a') "openai"
       = Ok None.
Proof.
  pose proof X10_deleted_key_is_gone as (Hgone & Hdone).
  destruct (Hdone sample_area "openai" eq_refl eq_refl) as [a' Ha'].
  exists a'. split; [exact Ha'|].
  apply (Hgone sample_area "openai" a' Ha').
Defined.

(** X11. A credential write that rejects has written nothing: the storage
    is as it was, and the reads return what they returned before.  A fault
    of the storage on the read or on the write makes
    [setProviderApiKey] and [deleteProviderApiKey] reject, and a fault on
    the write makes [setSelectedProvider] reject. *)
Theorem X11_rejected_credential_write_changes_nothing :
  (forall a providerId apiKey e a',
      ProviderStorage.setProviderApiKey a providerId apiKey = (Throw e, a') ->
      a' = a)
  /\ (forall a providerId e a',
         ProviderStorage.deleteProviderApiKey a providerId = (Throw e, a') ->
         a' = a)
  /\ (forall a providerId e a',
         ProviderStorage.setSelectedProvider a providerId = (Throw e, a') ->
         a' = a)
  /\ (forall a providerId apiKey fault,
         ProviderStorage.read_fault (ProviderStorage.area a) = Some fault
         \/ ProviderStorage.write_fault a = Some fault ->
         (exists e, ProviderStorage.setProviderApiKey a providerId apiKey
                    = (Throw e, a))
         /\ (exists e, ProviderStorage.deleteProviderApiKey a providerId
                       = (Throw e, a)))
  /\ (forall a providerId fault,
         ProviderStorage.write_fault a = Some fault ->
         exists e, ProviderStorage.setSelectedProvider a providerId
                   = (Throw e, a)).
Proof.
  split; [|split; [|split; [|split]]].
  - intros a providerId apiKey e a'.
    unfold ProviderStorage.setProviderApiKey, ProviderStorage.storage_set.
    destruct (ProviderStorage.storage_get _ _) as [data|]; [|now intros [= _ <-]].
    destruct (ProviderStorage.assign _ _ _); [|now intros [= _ <-]].
    destruct (ProviderStorage.write_fault a) as [[?|?]|];
      [now intros [= _ <-] | now intros [= _ <-] | discriminate].
  - intros a providerId e a'.
    unfold ProviderStorage.deleteProviderApiKey, ProviderStorage.storage_set.
    destruct (ProviderStorage.storage_get _ _) as [data|]; [|now intros [= _ <-]].
    destruct (ProviderStorage.write_fault a) as [[?|?]|];
      [now intros [= _ <-] | now intros [= _ <-] | discriminate].
  - intros a providerId e a'.
    unfold ProviderStorage.setSelectedProvider, ProviderStorage.storage_set.
    destruct (ProviderStorage.write_fault a) as [[?|?]|];
      [now intros [= _ <-] | now intros [= _ <-] | discriminate].
  - intros a providerId apiKey fault [Hf | Hf];
      unfold ProviderStorage.setProviderApiKey,
        ProviderStorage.deleteProviderApiKey, ProviderStorage.storage_get,
        ProviderStorage.storage_set; rewrite Hf.
    + destruct fault; split; eexists; reflexivity.
    + destruct (ProviderStorage.read_fault (ProviderStorage.area a))
        as [[?|?]|]; try (split; eexists; reflexivity).
      destruct (ProviderStorage.assign _ _ _);
        destruct fault; split; eexists; reflexivity.
  - intros a providerId fault Hf.
    unfold ProviderStorage.setSelectedProvider, ProviderStorage.storage_set.
    rewrite Hf. destruct fault; eexists; reflexivity.
Qed.

Lemma X11_witness :
  let full := {| ProviderStorage.area := ProviderStorage.area sample_area;
                 ProviderStorage.write_fault := Some quota_exceeded |} in
  (exists e, ProviderStorage.setProviderApiKey full "google" "g-key"
             = (Throw e, full))
  /\ (exists e, ProviderStorage.setSelectedProvider full "google"
                = (Throw e, full)).
Proof.
  intros full.
  pose proof X11_rejected_credential_write_changes_nothing
    as (_ & _ & _ & Hfault & Hselect).
  split.
  - apply (Hfault full "google" "g-key" quota_exceeded). now right.
  - apply (Hselect full "google" quota_exceeded). reflexivity.
Defined.

(** X12. After a [setSelectedProvider] that resolves,
    [getSelectedProvider] returns that provider, whether or not a key is
    stored for it, and the keys are as before.  With no fault on the write
    it resolves, for any provider id. *)
Theorem X12_selected_provider_is_read_back :
  (forall a providerId a',
      ProviderStorage.setSelectedProvider a providerId = (Ok tt, a') ->
      ProviderStorage.read_fault (ProviderStorage.area a) = None ->
      ProviderStorage.getSelectedProvider (ProviderStorage.area a')
      = Ok (Some (JStr providerId))
      /\ (forall other,
             ProviderStorage.getProviderApiKey (ProviderStorage.area a') other
             = ProviderStorage.getProviderApiKey (ProviderStorage.area a)
                 other)
      /\ ProviderStorage.getAllProviderApiKeys (ProviderStorage.area a')
         = ProviderStorage.getAllProviderApiKeys (ProviderStorage.area a))
  /\ (forall a providerId,
         ProviderStorage.write_fault a = None ->
         exists a',
           ProviderStorage.setSelectedProvider a providerId = (Ok tt, a')).
Proof.
  split.
  - intros a providerId a'.
    unfold ProviderStorage.setSelectedProvider, ProviderStorage.storage_set.
    destruct (ProviderStorage.write_fault a) as [[e|m]|]; try discriminate.
    intros [= <-] Hread. simpl.
    split; [|split].
    + rewrite read_selected by assumption. simpl.
      now rewrite lookup_insert_eq.
    + intros other. rewrite read_key by assumption.
      rewrite (read_key _ _ Hread). simpl.
      now rewrite lookup_insert_ne by discriminate.
    + rewrite read_all_keys by assumption. rewrite (read_all_keys _ Hread).
      simpl. now rewrite lookup_insert_ne by discriminate.
  - intros a providerId Hwrite.
    unfold ProviderStorage.setSelectedProvider, ProviderStorage.storage_set.
    rewrite Hwrite. eauto.
Qed.

Lemma X12_witness :
  exists a',
    ProviderStorage.setSelectedProvider sample_area "google" = (Ok tt, a')
    /\ ProviderStorage.getSelectedProvider (ProviderStorage.area a')
       = Ok (Some (JStr "google")).
Proof.
  pose proof X12_selected_provider_is_read_back as (Hread & Hdone).
  destruct (Hdone sample_area "google" eq_refl) as [a' Ha'].
  exists a'. split; [exact Ha'|].
  apply (Hread sample_area "google" a' Ha' eq_refl).
Defined.

(** X13. [handleGetSettings] never answers with a failure.  When the
    storage cannot be read it answers with no keys and no selected
    provider, and the shell then takes the provider for not configured. *)
Theorem X13_settings_never_fail :
  (forall c, Background.settings_success (Background.handleGetSettings c)
             = true)
  /\ (forall stored fault,
         let response :=
           Background.handleGetSettings
             {| ProviderStorage.items := stored;
                ProviderStorage.read_fault := Some fault |} in
         Background.providerApiKeys response = Some (JObj [])
         /\ Background.selectedProvider response = None
         /\ SidePanelShell.hasProvider response = false).
Proof.
  split.
  - intros [stored [[e|m]|]]; reflexivity.
  - intros stored [e|m]; repeat split.
Qed.

(** ** Prompts and labels, beyond the claims *)

Section StoreFacts.
Import Storage.

Lemma findIndex_Some {A} (p : A -> bool) (l : list A) (i : nat) :
  findIndex p l = Some i ->
  exists x, l !! i = Some x /\ p x = true
            /\ List.find p l = Some x
            /\ Forall (fun y => p y = false) (take i l).
Proof.
  revert i. induction l as [|y l IH]; intros i; simpl; [discriminate|].
  destruct (p y) eqn:Hy.
  - intros [= <-]. exists y. simpl. now repeat split.
  - destruct (findIndex p l) as [j|] eqn:Hj; simpl; [|discriminate].
    intros [= <-]. destruct (IH j eq_refl) as (x & Hx & Hpx & Hf & Hbefore).
    exists x. simpl. repeat split; try assumption.
    now constructor.
Qed.

Lemma findIndex_None {A} (p : A -> bool) (l : list A) :
  findIndex p l = None ->
  Forall (fun y => p y = false) l /\ List.find p l = None.
Proof.
  induction l as [|y l IH]; simpl; [now split|].
  destruct (p y) eqn:Hy; [discriminate|].
  destruct (findIndex p l); simpl; [discriminate|].
  intros _. destruct (IH eq_refl). split; [now constructor | assumption].
Qed.

Lemma find_None_Forall {A} (p : A -> bool) (l : list A) :
  List.find p l = None -> Forall (fun y => p y = false) l.
Proof.
  induction l as [|y l IH]; simpl; [constructor|].
  destruct (p y) eqn:Hy; [discriminate|]. intros H. constructor; auto.
Qed.

Lemma filter_nothing {A} (f : A -> bool) (l : list A) :
  (length l <= length (List.filter f l))%nat -> List.filter f l = l.
Proof.
  induction l as [|x l IH]; simpl; [reflexivity|].
  destruct (f x); simpl; intros H.
  - f_equal. apply IH. lia.
  - pose proof (List.filter_length_le f l). lia.
Qed.

Lemma getStorageData_outcome (w : World) (data : StorageData) :
  getStorageData w = Ok data ->
  get_fault w = None
  /\ prompts data = prompts_of w /\ stored_labels data = labels_of w.
Proof.
  unfold getStorageData. destruct (get_fault w); [discriminate|].
  intros [= <-]. now repeat split.
Qed.

Lemma saveStorageData_outcome (w w' : World) (data : StorageData) :
  saveStorageData w data = (Ok tt, w') ->
  w' = {| prompts_item := Some (prompts data);
          labels_item := Some (stored_labels data);
          get_fault := get_fault w; set_fault := set_fault w |}.
Proof.
  unfold saveStorageData. destruct (set_fault w); [discriminate|].
  now intros [= <-].
Qed.

Lemma written_prompts ps ls g f :
  prompts_of {| prompts_item := Some ps; labels_item := ls;
                get_fault := g; set_fault := f |} = ps.
Proof. reflexivity. Qed.

Lemma written_labels ps ls g f :
  labels_of {| prompts_item := ps; labels_item := Some ls;
               get_fault := g; set_fault := f |} = ls.
Proof. reflexivity. Qed.

Lemma saveStorageData_outcome_set (w w' : World) (prompt : Prompt) :
  savePrompt w prompt = (Ok tt, w') -> set_fault w = None.
Proof.
  unfold savePrompt. destruct (blank _); [discriminate|].
  destruct (getStorageData w); [|discriminate].
  unfold saveStorageData. now destruct (set_fault w).
Qed.

Lemma saveStorageData_rejected (w w' : World) (data : StorageData) e :
  saveStorageData w data = (Throw e, w') -> w' = w.
Proof.
  unfold saveStorageData. destruct (set_fault w); [|discriminate].
  now intros [= _ <-].
Qed.

(** What a rename that [saveLabel] accepts has done. *)
Lemma rename_outcome (w w' : World) (label : Label) (oldName : string) :
  oldName <> label_name label ->
  saveLabel w label (Some oldName) = (Ok tt, w') ->
  exists i,
    findIndex (labelled oldName) (labels_of w) = Some i
    /\ List.find (labelled (label_name label)) (labels_of w) = None
    /\ get_fault w = None
    /\ w' = {| prompts_item :=
                 Some (map (rename_in oldName (label_name label))
                         (prompts_of w));
               labels_item := Some (<[i := label]> (labels_of w));
               get_fault := get_fault w; set_fault := set_fault w |}.
Proof.
  intros Hne. unfold saveLabel.
  destruct (blank (label_name label)); [discriminate|].
  unfold saveLabel_body.
  destruct (getStorageData w) as [data|e] eqn:Hdata.
  2:{ destruct (_ || _)%bool; discriminate. }
  destruct (getStorageData_outcome _ _ Hdata) as (Hg & Hp & Hl).
  destruct (String.eqb_spec oldName (label_name label)) as [|_];
    [contradiction|]. simpl.
  unfold rename_label. rewrite Hp, Hl.
  change (fun l : Label => String.eqb (label_name l) oldName)
    with (labelled oldName).
  destruct (findIndex (labelled oldName) (labels_of w)) as [i|] eqn:Hi.
  2:{ destruct (_ || _)%bool; discriminate. }
  destruct (List.find _ (labels_of w)) eqn:Hconflict.
  { destruct (_ || _)%bool; discriminate. }
  destruct (saveStorageData w _) as [[[]|e] w1] eqn:Hsave.
  2:{ destruct (_ || _)%bool; discriminate. }
  intros [= <-]. exists i. split; [reflexivity|]. split; [|split].
  - apply find_None_Forall in Hconflict.
    destruct (List.find (labelled (label_name label)) (labels_of w))
      as [x|] eqn:Hx; [|reflexivity].
    apply find_some in Hx as [Hin Hname].
    rewrite List.Forall_forall in Hconflict. specialize (Hconflict x Hin).
    unfold labelled in Hname. rewrite Hname in Hconflict. simpl in Hconflict.
    apply String.eqb_eq in Hname.
    destruct (String.eqb_spec (label_name x) oldName);
      simpl in Hconflict; congruence.
  - exact Hg.
  - now apply saveStorageData_outcome in Hsave.
Qed.

(** What a [saveLabel] without rename has done when it resolves. *)
Lemma upsert_outcome (w w' : World) (label : Label) (oldName : option string) :
  oldName = None \/ oldName = Some (label_name label) ->
  saveLabel w label oldName = (Ok tt, w') ->
  get_fault w = None
  /\ w' = {| prompts_item := Some (prompts_of w);
             labels_item :=
               Some (match findIndex (labelled (label_name label))
                             (labels_of w) with
                     | Some i => <[i := label]> (labels_of w)
                     | None => labels_of w ++ [label]
                     end);
             get_fault := get_fault w; set_fault := set_fault w |}.
Proof.
  intros Hold. unfold saveLabel.
  destruct (blank (label_name label)); [discriminate|].
  unfold saveLabel_body.
  destruct (getStorageData w) as [data|e] eqn:Hdata.
  2:{ destruct (_ || _)%bool; discriminate. }
  destruct (getStorageData_outcome _ _ Hdata) as (Hg & Hp & Hl).
  assert (Hbody :
    match oldName with
    | Some o => if negb (String.eqb o (label_name label))
                then rename_label w data label o
                else upsert_label w data label
    | None => upsert_label w data label
    end = upsert_label w data label).
  { destruct Hold as [-> | ->]; [reflexivity|].
    now rewrite String.eqb_refl. }
  rewrite Hbody. unfold upsert_label. rewrite Hp, Hl.
  change (fun l : Label => String.eqb (label_name l) (label_name label))
    with (labelled (label_name label)).
  destruct (findIndex (labelled (label_name label)) (labels_of w))
    as [i|] eqn:Hi.
  - destruct (saveStorageData w _) as [[[]|e] w1] eqn:Hsave.
    2:{ destruct (_ || _)%bool; discriminate. }
    intros [= <-]. split; [exact Hg|].
    now apply saveStorageData_outcome in Hsave.
  - destruct (findIndex_None _ _ Hi) as [_ ->].
    destruct (saveStorageData w _) as [[[]|e] w1] eqn:Hsave.
    2:{ destruct (_ || _)%bool; discriminate. }
    intros [= <-]. split; [exact Hg|].
    now apply saveStorageData_outcome in Hsave.
Qed.

(** What a [deleteLabel] that resolves has done, as a read sees it. *)
Lemma delete_label_outcome (w w' : World) (n : string) :
  deleteLabel w n = (Ok tt, w') ->
  get_fault w = None /\ get_fault w' = None
  /\ prompts_of w' = map (without n) (prompts_of w)
  /\ labels_of w'
     = List.filter (fun l => negb (labelled n l)) (labels_of w).
Proof.
  unfold deleteLabel.
  destruct (getStorageData w) as [data|e] eqn:Hdata; [|discriminate].
  destruct (getStorageData_outcome _ _ Hdata) as (Hg & Hp & Hl).
  rewrite Hp, Hl.
  change (fun l : Label => negb (String.eqb (label_name l) n))
    with (fun l => negb (labelled n l)).
  destruct (_ || _)%bool eqn:Hchanged.
  - destruct (saveStorageData w _) as [[[]|e] w1] eqn:Hsave; [|discriminate].
    intros [= <-]. apply saveStorageData_outcome in Hsave. subst w1.
    now repeat split.
  - intros [= <-]. split; [exact Hg|]. split; [exact Hg|].
    apply orb_false_iff in Hchanged as [Hlabels Hprompts]. split.
    + rewrite <- (List.map_id (prompts_of w)) at 1.
      apply map_ext_in. intros p Hp'. symmetry. apply without_absent.
      intros Hin. apply includes_In in Hin.
      assert (existsb (fun p => includes n (labels p)) (prompts_of w) = true)
        by (apply existsb_exists; now exists p).
      congruence.
    + apply Nat.ltb_ge in Hlabels. symmetry. now apply filter_nothing.
Qed.

Lemma delete_prompt_outcome (w w' : World) (n : string) :
  deletePrompt w n = (Ok tt, w') ->
  get_fault w = None /\ get_fault w' = None
  /\ prompts_of w'
     = List.filter (fun p => negb (named n p)) (prompts_of w)
  /\ labels_of w' = labels_of w.
Proof.
  unfold deletePrompt.
  destruct (getStorageData w) as [data|e] eqn:Hdata; [|discriminate].
  destruct (getStorageData_outcome _ _ Hdata) as (Hg & Hp & Hl).
  rewrite Hp.
  change (fun p : Prompt => negb (String.eqb (name p) n))
    with (fun p => negb (named n p)).
  destruct (_ <? _)%nat eqn:Hless.
  - destruct (saveStorageData w _) as [[[]|e] w1] eqn:Hsave; [|discriminate].
    intros [= <-]. apply saveStorageData_outcome in Hsave. subst w1.
    simpl. now rewrite Hl.
  - intros [= <-]. split; [exact Hg|]. split; [exact Hg|].
    split; [|reflexivity].
    apply Nat.ltb_ge in Hless. symmetry. now apply filter_nothing.
Qed.

Lemma save_prompt_outcome (w w' : World) (prompt : Prompt) :
  savePrompt w prompt = (Ok tt, w') ->
  get_fault w = None
  /\ w' = {| prompts_item :=
               Some (match findIndex (named (name prompt)) (prompts_of w) with
                     | Some i => <[i := prompt]> (prompts_of w)
                     | None => prompts_of w ++ [prompt]
                     end);
             labels_item := Some (labels_of w);
             get_fault := get_fault w; set_fault := set_fault w |}.
Proof.
  unfold savePrompt. destruct (blank (name prompt)); [discriminate|].
  destruct (getStorageData w) as [data|] eqn:Hdata; [|discriminate].
  destruct (getStorageData_outcome _ _ Hdata) as (Hg & Hp & Hl).
  destruct (saveStorageData w _) as [[[]|] w1] eqn:Hsave; [|discriminate].
  intros [= <-]. split; [exact Hg|].
  apply saveStorageData_outcome in Hsave. subst w1. simpl.
  now rewrite Hp, Hl.
Qed.

Lemma read_of_world (w : World) :
  get_fault w = None ->
  getAllPrompts w = Ok (prompts_of w) /\ getAllLabels w = Ok (labels_of w)
  /\ forall n, getPrompt w n = Ok (List.find (named n) (prompts_of w)).
Proof.
  intros H. unfold getPrompt, getAllPrompts, getAllLabels, getStorageData.
  rewrite H. now repeat split.
Qed.

Lemma upsert_again {A} (p : A -> bool) (x : A) (l : list A) :
  p x = true ->
  let l' := match findIndex p l with
            | Some i => <[i := x]> l
            | None => l ++ [x]
            end in
  match findIndex p l' with
  | Some i => <[i := x]> l'
  | None => l' ++ [x]
  end = l'.
Proof.
  intros Hx. induction l as [|y l IH]; simpl.
  - now rewrite Hx.
  - destruct (p y) eqn:Hy; simpl.
    + now rewrite Hx.
    + simpl in IH.
      destruct (findIndex p l) as [j|]; simpl; rewrite Hy;
        match goal with
        | |- context [findIndex p ?k] =>
            destruct (findIndex p k); simpl; simpl in IH; now f_equal
        end.
Qed.

Lemma map_insert {A B} (f : A -> B) (l : list A) (i : nat) (x : A) :
  map f (<[i := x]> l) = <[i := f x]> (map f l).
Proof.
  revert i. induction l as [|y l IH]; intros [|i]; simpl; try reflexivity.
  now rewrite IH.
Qed.

Lemma map_lookup {A B} (f : A -> B) (l : list A) (i : nat) (x : A) :
  l !! i = Some x -> map f l !! i = Some (f x).
Proof.
  revert i. induction l as [|y l IH]; intros [|i]; simpl; try discriminate.
  - now intros [= ->].
  - apply IH.
Qed.

Lemma In_insert {A} (l : list A) (i : nat) (x z : A) :
  In z (<[i := x]> l) -> z = x \/ In z l.
Proof.
  revert i. induction l as [|y l IH]; intros [|i]; simpl; try tauto.
  - intros [<- | H]; tauto.
  - intros [<- | H]; [tauto|]. destruct (IH i H); tauto.
Qed.

Lemma In_insert_other {A} (l : list A) (i : nat) (x y z : A) :
  l !! i = Some y -> z <> y -> In z l -> In z (<[i := x]> l).
Proof.
  revert i. induction l as [|a l IH]; intros [|i]; simpl; try tauto.
  - intros [= ->] Hne [<- | H]; [congruence | now right].
  - intros Hi Hne [<- | H]; [now left | right; now apply IH].
Qed.

Lemma In_insert_new {A} (l : list A) (i : nat) (x y : A) :
  l !! i = Some y -> In x (<[i := x]> l).
Proof.
  revert i. induction l as [|a l IH]; intros [|i]; simpl; try discriminate.
  - now left.
  - intros H. right. now apply IH.
Qed.

Lemma NoDup_insert_fresh {A} (l : list A) (i : nat) (x : A) :
  List.NoDup l -> ~ In x l -> List.NoDup (<[i := x]> l).
Proof.
  revert i. induction l as [|a l IH]; intros [|i] Hl Hx; simpl;
    try assumption; inversion Hl as [|? ? Ha Hl']; subst.
  - constructor; [|assumption]. intros H. apply Hx. now right.
  - constructor.
    + intros H. apply In_insert in H as [-> | H]; [|contradiction].
      apply Hx. now left.
    + apply IH; [assumption|]. intros H. apply Hx. now right.
Qed.

Lemma NoDup_map_filter {A B} (f : A -> B) (q : A -> bool) (l : list A) :
  List.NoDup (map f l) -> List.NoDup (map f (List.filter q l)).
Proof.
  induction l as [|a l IH]; simpl; [trivial|].
  intros H. inversion H as [|? ? Ha Hl]; subst.
  destruct (q a); simpl; [|now apply IH].
  constructor; [|now apply IH].
  intros Hin. apply Ha. apply in_map_iff in Hin as (y & Hy & Hin).
  apply in_map_iff. exists y. split; [exact Hy|].
  now apply filter_In in Hin as [Hin _].
Qed.

Lemma find_labelled_None (n : string) (ls : list Label) :
  List.find (labelled n) ls = None <-> ~ In n (map label_name ls).
Proof.
  split.
  - intros H Hin. apply in_map_iff in Hin as (x & Hx & Hin).
    apply find_None_Forall in H. rewrite List.Forall_forall in H.
    specialize (H x Hin). unfold labelled in H. rewrite Hx in H.
    now rewrite String.eqb_refl in H.
  - intros H. destruct (List.find (labelled n) ls) as [x|] eqn:Hx;
      [|reflexivity].
    apply find_some in Hx as [Hin Hname]. apply String.eqb_eq in Hname.
    exfalso. apply H. apply in_map_iff. now exists x.
Qed.

Lemma find_filter_other (n other : string) (ps : list Prompt) :
  other <> n ->
  List.find (named other) (List.filter (fun p => negb (named n p)) ps)
  = List.find (named other) ps.
Proof.
  intros Hother. induction ps as [|p ps IH]; simpl; [reflexivity|].
  destruct (named n p) eqn:Hn; simpl.
  - unfold named in *. apply String.eqb_eq in Hn.
    rewrite Hn. destruct (String.eqb_spec n other); [congruence|].
    exact IH.
  - destruct (named other p); [reflexivity | exact IH].
Qed.

Lemma find_upsert_other {A} (p q : A -> bool) (x : A) (l : list A) :
  (forall y, p y = true -> q y = false) -> q x = false ->
  List.find q (match findIndex p l with
               | Some i => <[i := x]> l
               | None => l ++ [x]
               end)
  = List.find q l.
Proof.
  intros Hpq Hx. induction l as [|y l IH]; simpl.
  - now rewrite Hx.
  - destruct (p y) eqn:Hy; simpl.
    + now rewrite Hx, (Hpq y Hy).
    + destruct (findIndex p l) as [i|]; simpl;
        destruct (q y); try reflexivity; exact IH.
Qed.

End StoreFacts.

Lemma rejected_write_keeps_store :
  (forall w prompt e w',
      Storage.savePrompt w prompt = (Throw e, w') -> w' = w)
  /\ (forall w n e w',
         Storage.deletePrompt w n = (Throw e, w') -> w' = w)
  /\ (forall w label oldName e w',
         Storage.saveLabel w label oldName = (Throw e, w') -> w' = w)
  /\ (forall w n e w',
         Storage.deleteLabel w n = (Throw e, w') -> w' = w).
Proof.
  split; [|split; [|split]].
  - intros w prompt e w'. unfold Storage.savePrompt.
    destruct (Storage.blank _); [now intros [= _ <-]|].
    destruct (Storage.getStorageData w); [|now intros [= _ <-]].
    destruct (Storage.saveStorageData w _) as [[[]|e1] w1] eqn:Hsave;
      [discriminate|].
    intros [= _ <-]. now apply saveStorageData_rejected in Hsave.
  - intros w n e w'. unfold Storage.deletePrompt.
    destruct (Storage.getStorageData w); [|now intros [= _ <-]].
    destruct (_ <? _)%nat; [|discriminate].
    destruct (Storage.saveStorageData w _) as [[[]|e1] w1] eqn:Hsave;
      [discriminate|].
    intros [= _ <-]. now apply saveStorageData_rejected in Hsave.
  - intros w label oldName e w'. unfold Storage.saveLabel.
    destruct (Storage.blank _); [now intros [= _ <-]|].
    assert (Hbody : forall r w1,
               Storage.saveLabel_body w label oldName = (r, w1) ->
               r = Ok tt \/ w1 = w).
    { intros r w1. unfold Storage.saveLabel_body.
      destruct (Storage.getStorageData w) as [data|];
        [|intros [= <- <-]; now right].
      assert (Hsave : forall data',
                 Storage.saveStorageData w data' = (r, w1) ->
                 r = Ok tt \/ w1 = w).
      { intros data'. unfold Storage.saveStorageData.
        destruct (Storage.set_fault w); intros [= <- <-]; auto. }
      assert (Hupsert : Storage.upsert_label w data label = (r, w1) ->
                        r = Ok tt \/ w1 = w).
      { unfold Storage.upsert_label.
        destruct (Storage.findIndex _ _); [apply Hsave|].
        destruct (List.find _ _); [intros [= <- <-]; now right | apply Hsave]. }
      destruct oldName as [o|]; [|exact Hupsert].
      destruct (negb _); [|exact Hupsert].
      unfold Storage.rename_label.
      destruct (Storage.findIndex _ _); [|intros [= <- <-]; now right].
      destruct (List.find _ _); [intros [= <- <-]; now right | apply Hsave]. }
    destruct (Storage.saveLabel_body w label oldName) as [[[]|e1] w1] eqn:Hb;
      [discriminate|].
    destruct (Hbody _ _ eq_refl) as [ | -> ]; [discriminate|].
    destruct (_ || _)%bool; now intros [= _ <-].
  - intros w n e w'. unfold Storage.deleteLabel.
    destruct (Storage.getStorageData w); [|now intros [= _ <-]].
    destruct (_ || _)%bool; [|discriminate].
    destruct (Storage.saveStorageData w _) as [[[]|e1] w1] eqn:Hsave;
      [discriminate|].
    intros [= _ <-]. now apply saveStorageData_rejected in Hsave.
Qed.

(** X14. A store operation that rejects has written nothing: the storage
    is as it was.  And when the storage refuses every write, saving a
    prompt under a name that is not blank rejects. *)
Theorem X14_rejected_store_write_changes_nothing :
  (forall w prompt e w',
      Storage.savePrompt w prompt = (Throw e, w') -> w' = w)
  /\ (forall w n e w',
         Storage.deletePrompt w n = (Throw e, w') -> w' = w)
  /\ (forall w label oldName e w',
         Storage.saveLabel w label oldName = (Throw e, w') -> w' = w)
  /\ (forall w n e w',
         Storage.deleteLabel w n = (Throw e, w') -> w' = w)
  /\ (forall w prompt fault,
         Storage.set_fault w = Some fault ->
         Storage.blank (Storage.name prompt) = false ->
         exists e, Storage.savePrompt w prompt = (Throw e, w)).
Proof.
  destruct rejected_write_keeps_store as (Hsp & Hdp & Hsl & Hdl).
  split; [exact Hsp|]. split; [exact Hdp|]. split; [exact Hsl|].
  split; [exact Hdl|].
  intros w prompt fault Hfault Hname. unfold Storage.savePrompt.
  rewrite Hname. destruct (Storage.getStorageData w); [|eauto].
  unfold Storage.saveStorageData. rewrite Hfault. eauto.
Qed.

Lemma X14_witness :
  exists e,
    Storage.savePrompt read_only_world
      {| Storage.name := "memo"; Storage.content := "A memo";
         Storage.labels := []; Storage.originalContent := None |}
    = (Throw e, read_only_world).
Proof.
  pose proof X14_rejected_store_write_changes_nothing
    as (_ & _ & _ & _ & Hfull).
  apply (Hfull read_only_world _
           (Storage.LastError "QUOTA_BYTES quota exceeded"));
    reflexivity.
Defined.

(** X15. [saveLabel] checks before it writes, and reports its own checks
    with their own messages: a blank name, the rename of a label that is
    not stored, and a rename onto the name of another stored label each
    reject with a fixed message and leave the storage as it was.  A fault
    of the storage on the read is reported under
    [Failed to save label "<name>": ]. *)
Theorem X15_label_checks_come_before_the_write :
  (forall w label oldName,
      Storage.blank (Storage.label_name label) = true ->
      Storage.saveLabel w label oldName
      = (Throw (Error "Label name cannot be empty"), w))
  /\ (forall w label oldName,
         Storage.blank (Storage.label_name label) = false ->
         Storage.get_fault w = None ->
         oldName <> Storage.label_name label ->
         ~ In oldName (label_names w) ->
         Storage.saveLabel w label (Some oldName)
         = (Throw (Error ("Cannot rename label " +:+ quoted oldName
                          +:+ ": label not found")), w))
  /\ (forall w label oldName,
         Storage.blank (Storage.label_name label) = false ->
         Storage.get_fault w = None ->
         oldName <> Storage.label_name label ->
         In oldName (label_names w) ->
         In (Storage.label_name label) (label_names w) ->
         Storage.saveLabel w label (Some oldName)
         = (Throw (Error ("Cannot rename label " +:+ quoted oldName
                          +:+ " to " +:+ quoted (Storage.label_name label)
                          +:+ ": a label with that name already exists")),
            w))
  /\ (forall w label oldName fault,
         Storage.blank (Storage.label_name label) = false ->
         Storage.get_fault w = Some fault ->
         Storage.saveLabel w label oldName
         = (Throw (Storage.wrap
                     ("Failed to save label "
                      +:+ quoted (Storage.label_name label))
                     (Storage.storage_get_fault fault)), w)).
Proof.
  split; [|split; [|split]].
  - intros w label oldName Hblank. unfold Storage.saveLabel.
    now rewrite Hblank.
  - intros w label oldName Hblank Hget Hne Habsent.
    unfold Storage.saveLabel, Storage.saveLabel_body, Storage.getStorageData.
    rewrite Hblank, Hget.
    destruct (String.eqb_spec oldName (Storage.label_name label));
      [contradiction|]. cbn [negb].
    unfold Storage.rename_label. cbn [Storage.stored_labels].
    change (fun l : Storage.Label => String.eqb (Storage.label_name l) oldName)
      with (labelled oldName).
    destruct (Storage.findIndex (labelled oldName) _) as [i|] eqn:Hi.
    + exfalso. apply findIndex_Some in Hi as (x & _ & _ & Hfind & _).
      apply find_labelled_None in Habsent.
      unfold labels_of in Habsent. congruence.
    + reflexivity.
  - intros w label oldName Hblank Hget Hne Hold Hnew.
    unfold Storage.saveLabel, Storage.saveLabel_body, Storage.getStorageData.
    rewrite Hblank, Hget.
    destruct (String.eqb_spec oldName (Storage.label_name label));
      [contradiction|]. cbn [negb].
    unfold Storage.rename_label. cbn [Storage.stored_labels].
    change (fun l : Storage.Label => String.eqb (Storage.label_name l) oldName)
      with (labelled oldName).
    destruct (Storage.findIndex (labelled oldName) _) as [i|] eqn:Hi.
    + destruct (List.find _ _) as [c|] eqn:Hc; [reflexivity|].
      exfalso. apply find_None_Forall in Hc.
      rewrite List.Forall_forall in Hc.
      apply in_map_iff in Hnew as (x & Hx & Hin).
      specialize (Hc x Hin). cbn beta in Hc.
      rewrite Hx, String.eqb_refl in Hc.
      destruct (String.eqb_spec (Storage.label_name label) oldName);
        [congruence | discriminate].
    + exfalso. apply findIndex_None in Hi as [_ Hi].
      apply find_labelled_None in Hi. contradiction.
  - intros w label oldName fault Hblank Hget.
    unfold Storage.saveLabel, Storage.saveLabel_body, Storage.getStorageData.
    rewrite Hblank, Hget. now destruct fault.
Qed.

Lemma X15_witness :
  Storage.saveLabel sample_world essays (Some "poetry")
  = (Throw (Error ("Cannot rename label " +:+ quoted "poetry"
                   +:+ ": label not found")), sample_world)
  /\ Storage.saveLabel sample_world writing (Some "travel")
     = (Throw (Error ("Cannot rename label " +:+ quoted "travel"
                      +:+ " to " +:+ quoted "writing"
                      +:+ ": a label with that name already exists")),
        sample_world).
Proof.
  pose proof X15_label_checks_come_before_the_write
    as (_ & Hmissing & Hconflict & _).
  split.
  - apply (Hmissing sample_world essays "poetry");
      [reflexivity | reflexivity | discriminate |].
    simpl. intros [H | [H | []]]; discriminate.
  - apply (Hconflict sample_world writing "travel");
      [reflexivity | reflexivity | discriminate | |]; simpl; auto.
Defined.

(** X16. After a [savePrompt] that resolves, the prompt is read back under
    its name; every prompt of another name is found as before; the labels
    are as before; the number of prompts grows by one when the name is new
    and stays when it replaces a stored one; and saving the same prompt
    once more changes nothing. *)
Theorem X16_save_prompt_touches_one_name (w w' : Storage.World)
  (prompt : Storage.Prompt) :
  Storage.savePrompt w prompt = (Ok tt, w') ->
  Storage.getPrompt w' (Storage.name prompt) = Ok (Some prompt)
  /\ (forall other,
         other <> Storage.name prompt ->
         Storage.getPrompt w' other = Storage.getPrompt w other)
  /\ Storage.getAllLabels w' = Storage.getAllLabels w
  /\ length (prompts_of w')
     = match List.find (named (Storage.name prompt)) (prompts_of w) with
       | Some _ => length (prompts_of w)
       | None => S (length (prompts_of w))
       end
  /\ Storage.savePrompt w' prompt = (Ok tt, w').
Proof.
  intros Hsave. split; [exact (saved_prompt_is_read_back _ _ _ Hsave)|].
  pose proof Hsave as Hblank. unfold Storage.savePrompt in Hblank.
  destruct (Storage.blank (Storage.name prompt)) eqn:Hb; [discriminate|].
  clear Hblank.
  destruct (save_prompt_outcome _ _ _ Hsave) as (Hget & ->).
  assert (Hget' : Storage.get_fault
                    {| Storage.prompts_item :=
                         Some (match Storage.findIndex
                                       (named (Storage.name prompt))
                                       (prompts_of w) with
                               | Some i => <[i := prompt]> (prompts_of w)
                               | None => prompts_of w ++ [prompt]
                               end);
                       Storage.labels_item := Some (labels_of w);
                       Storage.get_fault := Storage.get_fault w;
                       Storage.set_fault := Storage.set_fault w |} = None)
    by exact Hget.
  destruct (read_of_world _ Hget) as (_ & Hlabels & Hfind).
  destruct (read_of_world _ Hget') as (_ & Hlabels' & Hfind').
  split; [|split; [|split]].
  - intros other Hother. rewrite Hfind, Hfind'. f_equal.
    rewrite written_prompts.
    apply find_upsert_other.
    + intros y Hy. unfold named in *. apply String.eqb_eq in Hy.
      rewrite Hy. now apply String.eqb_neq.
    + unfold named. apply String.eqb_neq. congruence.
  - now rewrite Hlabels, Hlabels'.
  - rewrite written_prompts.
    destruct (Storage.findIndex _ _) as [i|] eqn:Hi.
    + apply findIndex_Some in Hi as (x & _ & _ & -> & _).
      apply length_insert.
    + apply findIndex_None in Hi as [_ ->].
      rewrite length_app. simpl. lia.
  - unfold Storage.savePrompt, Storage.getStorageData,
      Storage.saveStorageData.
    rewrite Hb. cbn [Storage.get_fault Storage.set_fault
                       Storage.prompts_item Storage.labels_item
                       Storage.prompts Storage.stored_labels default].
    rewrite Hget.
    apply saveStorageData_outcome_set in Hsave. rewrite Hsave.
    do 2 f_equal. f_equal.
    change (fun p : Storage.Prompt =>
              String.eqb (Storage.name p) (Storage.name prompt))
      with (named (Storage.name prompt)).
    apply (upsert_again (named (Storage.name prompt)) prompt (prompts_of w)).
    unfold named. apply String.eqb_refl.
Qed.

Lemma X16_witness :
  let memo := {| Storage.name := "memo"; Storage.content := "A memo";
                 Storage.labels := ["writing"];
                 Storage.originalContent := None |} in
  exists w',
    Storage.savePrompt sample_world memo = (Ok tt, w')
    /\ Storage.getPrompt w' "memo" = Ok (Some memo)
    /\ Storage.getPrompt w' "trip" = Storage.getPrompt sample_world "trip"
    /\ length (prompts_of w') = 4%nat.
Proof.
  intros memo. eexists. split; [reflexivity|].
  destruct (X16_save_prompt_touches_one_name sample_world _ memo eq_refl)
    as (Hread & Hother & _ & Hlength & _).
  split; [exact Hread|]. split; [|exact Hlength].
  apply Hother. discriminate.
Defined.

(** X17. After a [deletePrompt] that resolves, no prompt of that name is
    found, every prompt of another name is found as before, and the labels
    are as before.  When no prompt has that name, [deletePrompt] resolves
    without writing, even when the storage refuses every write. *)
Theorem X17_delete_prompt_touches_one_name :
  (forall w n w',
      Storage.deletePrompt w n = (Ok tt, w') ->
      Storage.getPrompt w' n = Ok None
      /\ (forall other,
             other <> n ->
             Storage.getPrompt w' other = Storage.getPrompt w other)
      /\ Storage.getAllLabels w' = Storage.getAllLabels w)
  /\ (forall w n,
         Storage.get_fault w = None ->
         Storage.getPrompt w n = Ok None ->
         Storage.deletePrompt w n = (Ok tt, w)).
Proof.
  split.
  - intros w n w' Hdelete.
    destruct (delete_prompt_outcome _ _ _ Hdelete)
      as (Hget & Hget' & Hprompts & Hlabels).
    destruct (read_of_world _ Hget) as (_ & Hl & Hfind).
    destruct (read_of_world _ Hget') as (_ & Hl' & Hfind').
    split; [|split].
    + rewrite Hfind', Hprompts. f_equal.
      destruct (List.find _ _) as [x|] eqn:Hx; [|reflexivity].
      apply find_some in Hx as [Hin Hnamed].
      apply filter_In in Hin as [_ Hin]. now rewrite Hnamed in Hin.
    + intros other Hother. rewrite Hfind, Hfind', Hprompts. f_equal.
      now apply find_filter_other.
    + now rewrite Hl, Hl', Hlabels.
  - intros w n Hget Habsent.
    destruct (read_of_world _ Hget) as (_ & _ & Hfind).
    rewrite Hfind in Habsent. injection Habsent as Habsent.
    apply find_None_Forall in Habsent.
    unfold Storage.deletePrompt, Storage.getStorageData. rewrite Hget.
    cbn [Storage.prompts].
    change (fun p : Storage.Prompt => negb (String.eqb (Storage.name p) n))
      with (fun p => negb (named n p)).
    fold (prompts_of w).
    assert (Hkept : List.filter (fun p => negb (named n p)) (prompts_of w)
                    = prompts_of w).
    { apply forallb_filter_id. apply forallb_forall.
      rewrite List.Forall_forall in Habsent.
      intros x Hx. now rewrite (Habsent x Hx). }
    rewrite Hkept, Nat.ltb_irrefl. reflexivity.
Qed.

Lemma X17_witness :
  Storage.deletePrompt read_only_world "memo" = (Ok tt, read_only_world)
  /\ exists w',
       Storage.deletePrompt sample_world "trip" = (Ok tt, w')
       /\ Storage.getPrompt w' "trip" = Ok None
       /\ Storage.getPrompt w' "note" = Storage.getPrompt sample_world "note".
Proof.
  pose proof X17_delete_prompt_touches_one_name as (Hdeleted & Habsent).
  split.
  - apply (Habsent read_only_world "memo"); reflexivity.
  - eexists. split; [reflexivity|].
    destruct (Hdeleted sample_world "trip" _ eq_refl) as (Hgone & Hother & _).
    split; [exact Hgone|]. apply Hother. discriminate.
Defined.

Section StoreInvariants.
Import Storage.

(** The three ways in which a [saveLabel] that resolves changes the store:
    it replaces the label of that name, it appends a label of a new name,
    or it renames. *)
Lemma save_label_shape (w w' : World) (label : Label)
  (oldName : option string) :
  saveLabel w label oldName = (Ok tt, w') ->
  get_fault w = None /\ get_fault w' = None
  /\ ((prompts_of w' = prompts_of w
       /\ exists i x,
            labels_of w !! i = Some x /\ label_name x = label_name label
            /\ List.find (labelled (label_name label)) (labels_of w) = Some x
            /\ Forall (fun z => labelled (label_name label) z = false)
                 (take i (labels_of w))
            /\ labels_of w' = <[i := label]> (labels_of w))
      \/ (prompts_of w' = prompts_of w
          /\ List.find (labelled (label_name label)) (labels_of w) = None
          /\ labels_of w' = labels_of w ++ [label])
      \/ (exists i x o,
            oldName = Some o /\ o <> label_name label
            /\ labels_of w !! i = Some x /\ label_name x = o
            /\ List.find (labelled o) (labels_of w) = Some x
            /\ List.find (labelled (label_name label)) (labels_of w) = None
            /\ prompts_of w'
               = map (rename_in o (label_name label)) (prompts_of w)
            /\ labels_of w' = <[i := label]> (labels_of w))).
Proof.
  intros Hsave.
  assert (Hupsert :
    oldName = None \/ oldName = Some (label_name label) ->
    get_fault w = None /\ get_fault w' = None
    /\ ((prompts_of w' = prompts_of w
         /\ exists i x,
              labels_of w !! i = Some x /\ label_name x = label_name label
              /\ List.find (labelled (label_name label)) (labels_of w)
                 = Some x
              /\ Forall (fun z => labelled (label_name label) z = false)
                   (take i (labels_of w))
              /\ labels_of w' = <[i := label]> (labels_of w))
        \/ (prompts_of w' = prompts_of w
            /\ List.find (labelled (label_name label)) (labels_of w) = None
            /\ labels_of w' = labels_of w ++ [label]))).
  { intros Hold. destruct (upsert_outcome _ _ _ _ Hold Hsave) as (Hget & ->).
    split; [exact Hget|]. split; [exact Hget|].
    rewrite written_prompts, written_labels.
    destruct (findIndex _ _) as [i|] eqn:Hi.
    - left. split; [reflexivity|].
      apply findIndex_Some in Hi as (x & Hx & Hname & Hfind & Hbefore).
      exists i, x. apply String.eqb_eq in Hname. now repeat split.
    - right. apply findIndex_None in Hi as [_ Hi]. now repeat split. }
  destruct oldName as [o|].
  - destruct (String.eqb_spec o (label_name label)) as [->|Hne].
    + destruct Hupsert as (? & ? & [?|?]); auto.
    + destruct (rename_outcome _ _ _ _ Hne Hsave)
        as (i & Hi & Hfresh & Hget & ->).
      split; [exact Hget|]. split; [exact Hget|]. right. right.
      rewrite written_prompts, written_labels.
      apply findIndex_Some in Hi as (x & Hx & Hname & Hfind & _).
      apply String.eqb_eq in Hname.
      exists i, x, o. now repeat split.
  - destruct Hupsert as (? & ? & [?|?]); auto.
Qed.

Lemma renamed_back (a b l : string) :
  l <> b -> renamed b a (renamed a b l) = l.
Proof.
  intros Hl. unfold renamed.
  destruct (String.eqb_spec l a) as [->|Hla].
  - now rewrite String.eqb_refl.
  - now destruct (String.eqb_spec l b).
Qed.

Lemma rename_in_back (a b : string) (p : Prompt) :
  ~ In b (labels p) -> rename_in b a (rename_in a b p) = p.
Proof.
  intros Hb. destruct p as [n c ls o]. unfold rename_in. simpl in *.
  f_equal. rewrite List.map_map.
  rewrite <- (List.map_id ls) at 2. apply map_ext_in.
  intros l Hl. apply renamed_back. congruence.
Qed.

Lemma findIndex_insert_fresh {A} (q : A -> bool) (l : list A) (i : nat)
  (x y : A) :
  List.find q l = None -> l !! i = Some y -> q x = true ->
  findIndex q (<[i := x]> l) = Some i.
Proof.
  revert i. induction l as [|a l IH]; intros [|i]; simpl; try discriminate.
  - intros _ _ ->. reflexivity.
  - destruct (q a); [discriminate|]. intros Hnone Hi Hx.
    now rewrite (IH i Hnone Hi Hx).
Qed.

Lemma find_insert_fresh {A} (q : A -> bool) (l : list A) (i : nat)
  (x y : A) :
  List.find q l = None -> l !! i = Some y -> q x = true ->
  List.find q (<[i := x]> l) = Some x.
Proof.
  revert i. induction l as [|a l IH]; intros [|i]; simpl; try discriminate.
  - intros _ _ ->. reflexivity.
  - destruct (q a); [discriminate|]. apply IH.
Qed.

Lemma find_insert_other {A} (q : A -> bool) (l : list A) (i : nat)
  (x y : A) :
  l !! i = Some y -> q y = false -> q x = false ->
  List.find q (<[i := x]> l) = List.find q l.
Proof.
  revert i. induction l as [|a l IH]; intros [|i]; simpl; try discriminate.
  - intros [= ->] -> ->. reflexivity.
  - intros Hi Hy Hx. destruct (q a); [reflexivity|]. now apply IH.
Qed.

Lemma find_insert_same {A} (q : A -> bool) (l : list A) (i : nat)
  (x y : A) :
  l !! i = Some y -> List.find q l = Some y -> q x = true ->
  Forall (fun z => q z = false) (take i l) ->
  List.find q (<[i := x]> l) = Some x.
Proof.
  revert i. induction l as [|a l IH]; intros [|i]; simpl; try discriminate.
  - intros _ _ ->. reflexivity.
  - intros Hi Hfind Hx Hbefore. inversion Hbefore as [|? ? Ha Hrest]; subst.
    rewrite Ha in *. now apply (IH i).
Qed.

Lemma find_app_new {A} (q : A -> bool) (l : list A) (x : A) :
  List.find q l = None ->
  List.find q (l ++ [x]) = if q x then Some x else None.
Proof.
  induction l as [|a l IH]; simpl; [reflexivity|].
  destruct (q a); [discriminate | exact IH].
Qed.

Lemma find_app_old {A} (q : A -> bool) (l : list A) (x : A) :
  q x = false -> List.find q (l ++ [x]) = List.find q l.
Proof.
  intros Hx. induction l as [|a l IH]; simpl; [now rewrite Hx|].
  destruct (q a); [reflexivity | exact IH].
Qed.

Lemma labelled_other (n other : string) (x : Label) :
  label_name x = n -> other <> n -> labelled other x = false.
Proof.
  intros <- Hne. unfold labelled. apply String.eqb_neq. congruence.
Qed.

Lemma find_filter_label (n other : string) (ls : list Label) :
  other <> n ->
  List.find (labelled other) (List.filter (fun l => negb (labelled n l)) ls)
  = List.find (labelled other) ls.
Proof.
  intros Hother. induction ls as [|l ls IH]; simpl; [reflexivity|].
  destruct (labelled n l) eqn:Hn; simpl.
  - unfold labelled in *. apply String.eqb_eq in Hn.
    rewrite Hn. destruct (String.eqb_spec n other); [congruence|].
    exact IH.
  - destruct (labelled other l); [reflexivity | exact IH].
Qed.

End StoreInvariants.

(** X18. The names of the stored labels stay unique: when no two stored
    labels share a name, none do after any store operation that
    resolves. *)
Theorem X18_label_names_stay_unique (w w' : Storage.World) :
  unique_labels w ->
  (exists label oldName, Storage.saveLabel w label oldName = (Ok tt, w'))
  \/ (exists n, Storage.deleteLabel w n = (Ok tt, w'))
  \/ (exists prompt, Storage.savePrompt w prompt = (Ok tt, w'))
  \/ (exists n, Storage.deletePrompt w n = (Ok tt, w')) ->
  unique_labels w'.
Proof.
  unfold unique_labels, label_names.
  intros Hunique [(label & oldName & H) | [(n & H) | [(p & H) | (n & H)]]].
  - destruct (save_label_shape _ _ _ _ H)
      as (_ & _ & [(_ & i & x & Hi & Hname & _ & _ & ->)
                  | [(_ & Hfresh & ->)
                    | (i & x & o & _ & _ & Hi & _ & _ & Hfresh & _ & ->)]]).
    + rewrite map_insert, <- Hname.
      now rewrite (list_insert_id _ _ _ (map_lookup _ _ _ _ Hi)).
    + rewrite List.map_app. simpl.
      apply find_labelled_None in Hfresh.
      apply NoDup_app. split; [assumption|]. split; [|apply NoDup_singleton].
      intros y Hy Hin. apply list_elem_of_singleton in Hin. subst y.
      apply Hfresh. now apply list_elem_of_In.
    + rewrite map_insert. apply NoDup_ListNoDup.
      apply NoDup_insert_fresh; [now apply NoDup_ListNoDup|].
      now apply find_labelled_None.
  - destruct (delete_label_outcome _ _ _ H) as (_ & _ & _ & ->).
    apply NoDup_ListNoDup. apply NoDup_map_filter.
    now apply NoDup_ListNoDup.
  - destruct (save_prompt_outcome _ _ _ H) as (_ & ->).
    now rewrite written_labels.
  - destruct (delete_prompt_outcome _ _ _ H) as (_ & _ & _ & ->).
    assumption.
Qed.

Lemma X18_witness :
  exists w',
    Storage.saveLabel sample_world essays (Some "writing") = (Ok tt, w')
    /\ unique_labels w'.
Proof.
  eexists. split; [reflexivity|].
  apply (X18_label_names_stay_unique sample_world).
  - unfold unique_labels. apply NoDup_ListNoDup. simpl.
    repeat constructor; simpl; intuition discriminate.
  - left. exists essays, (Some "writing"). reflexivity.
Defined.

(** X19. References stay resolved: when every label name carried by a
    stored prompt names a stored label, the same holds after a
    [saveLabel], a rename included, a [deleteLabel] or a [deletePrompt]
    that resolves, and after a [savePrompt] of a prompt whose labels are
    all stored. *)
Theorem X19_references_stay_resolved (w w' : Storage.World) :
  references_resolve w ->
  (exists label oldName, Storage.saveLabel w label oldName = (Ok tt, w'))
  \/ (exists n, Storage.deleteLabel w n = (Ok tt, w'))
  \/ (exists n, Storage.deletePrompt w n = (Ok tt, w'))
  \/ (exists prompt,
        Storage.savePrompt w prompt = (Ok tt, w')
        /\ forall l, In l (Storage.labels prompt) -> In l (label_names w)) ->
  references_resolve w'.
Proof.
  unfold references_resolve, label_names.
  intros Hres [(label & oldName & H) | [(n & H) | [(n & H) | (p & H & Hp)]]].
  - destruct (save_label_shape _ _ _ _ H)
      as (_ & _ & [(-> & i & x & Hi & Hname & _ & _ & ->)
                  | [(-> & Hfresh & ->)
                    | (i & x & o & _ & Hne & Hi & Hname & _ & _ & -> & ->)]]).
    + intros q l Hq Hl. rewrite map_insert, <- Hname.
      rewrite (list_insert_id _ _ _ (map_lookup _ _ _ _ Hi)). eauto.
    + intros q l Hq Hl. rewrite List.map_app. apply in_or_app. left. eauto.
    + intros q l Hq Hl. rewrite map_insert.
      apply in_map_iff in Hq as (q0 & <- & Hq0). simpl in Hl.
      apply in_map_iff in Hl as (l0 & <- & Hl0).
      pose proof (map_lookup Storage.label_name _ _ _ Hi) as Hi'.
      rewrite Hname in Hi'. unfold Storage.renamed.
      destruct (String.eqb_spec l0 o) as [->|Hl0o].
      * exact (In_insert_new _ _ _ _ Hi').
      * apply (In_insert_other _ _ _ _ _ Hi' Hl0o). eauto.
  - destruct (delete_label_outcome _ _ _ H) as (_ & _ & -> & ->).
    intros q l Hq Hl.
    apply in_map_iff in Hq as (q0 & <- & Hq0).
    rewrite without_labels in Hl. apply filter_In in Hl as [Hl Hne].
    specialize (Hres q0 l Hq0 Hl).
    apply in_map_iff in Hres as (x & Hx & Hin).
    apply in_map_iff. exists x. split; [exact Hx|].
    apply filter_In. split; [exact Hin|].
    unfold labelled. now rewrite Hx.
  - destruct (delete_prompt_outcome _ _ _ H) as (_ & _ & -> & ->).
    intros q l Hq Hl. apply filter_In in Hq as [Hq _]. eauto.
  - destruct (save_prompt_outcome _ _ _ H) as (_ & ->).
    rewrite written_prompts, written_labels.
    intros q l Hq Hl.
    assert (Hcases : q = p \/ In q (prompts_of w)).
    { destruct (Storage.findIndex _ _).
      - now apply In_insert in Hq.
      - apply in_app_or in Hq as [Hq | [<- | []]]; auto. }
    destruct Hcases as [-> | Hold]; eauto.
Qed.

Lemma X19_witness :
  exists w',
    Storage.deleteLabel sample_world "travel" = (Ok tt, w')
    /\ references_resolve w'.
Proof.
  eexists. split; [reflexivity|].
  apply (X19_references_stay_resolved sample_world).
  - unfold references_resolve. simpl. intros p l Hp Hl.
    repeat (destruct Hp as [<- | Hp]; [simpl in Hl; tauto|]).
    contradiction.
  - right. left. exists "travel". reflexivity.
Defined.

(** X20. Renaming a label and renaming it back restores the store: when
    the references are resolved, a rename of the label stored under [a] to
    the name [b], followed by a rename back that stores the first record
    again, leaves the prompts and the labels as they were at the start. *)
Theorem X20_rename_there_and_back (w w1 w2 : Storage.World)
  (la lb : Storage.Label) :
  references_resolve w ->
  Storage.label_name la <> Storage.label_name lb ->
  List.find (labelled (Storage.label_name la)) (labels_of w) = Some la ->
  Storage.saveLabel w lb (Some (Storage.label_name la)) = (Ok tt, w1) ->
  Storage.saveLabel w1 la (Some (Storage.label_name lb)) = (Ok tt, w2) ->
  Storage.getAllPrompts w2 = Storage.getAllPrompts w
  /\ Storage.getAllLabels w2 = Storage.getAllLabels w.
Proof.
  intros Hres Hne Hstored Hthere Hback.
  destruct (rename_outcome _ _ _ _ Hne Hthere)
    as (i & Hi & Hfresh & Hget & ->).
  assert (Hne' : Storage.label_name lb <> Storage.label_name la)
    by congruence.
  destruct (rename_outcome _ _ _ _ Hne' Hback)
    as (j & Hj & _ & Hget1 & ->).
  rewrite written_prompts, written_labels in *.
  apply findIndex_Some in Hi as (x & Hx & _ & Hfind & _).
  assert (x = la) by congruence. subst x.
  rewrite (findIndex_insert_fresh _ _ _ lb la Hfresh Hx) in Hj
    by (unfold labelled; apply String.eqb_refl).
  injection Hj as <-.
  cbn [Storage.get_fault] in Hget1.
  match goal with
  | |- Storage.getAllPrompts ?w2 = _ /\ _ =>
      assert (Hget2 : Storage.get_fault w2 = None) by exact Hget;
      destruct (read_of_world w2 Hget2) as (-> & -> & _)
  end.
  destruct (read_of_world _ Hget) as (-> & -> & _).
  rewrite written_prompts, written_labels. split; f_equal.
  - rewrite List.map_map.
    rewrite <- (List.map_id (prompts_of w)) at 2. apply map_ext_in.
    intros p Hp. apply rename_in_back. intros Hb.
    apply find_labelled_None in Hfresh. apply Hfresh.
    exact (Hres p _ Hp Hb).
  - rewrite list_insert_insert_eq. now apply list_insert_id.
Qed.

Lemma X20_witness :
  exists w1 w2,
    Storage.saveLabel sample_world essays (Some "writing") = (Ok tt, w1)
    /\ Storage.saveLabel w1 writing (Some "essays") = (Ok tt, w2)
    /\ Storage.getAllPrompts w2 = Storage.getAllPrompts sample_world
    /\ Storage.getAllLabels w2 = Storage.getAllLabels sample_world.
Proof.
  eexists. eexists. split; [reflexivity|]. split; [reflexivity|].
  eapply (X20_rename_there_and_back sample_world _ _ writing essays).
  - unfold references_resolve. simpl. intros p l Hp Hl.
    repeat (destruct Hp as [<- | Hp]; [simpl in Hl; tauto|]).
    contradiction.
  - discriminate.
  - reflexivity.
  - reflexivity.
  - reflexivity.
Defined.

(** X21. Labels are kept by name.  After a [saveLabel] that resolves, the
    label is the one found under its name, and every name other than the
    new and the old one finds what it found before; without a rename the
    prompts are untouched.  After a [deleteLabel] that resolves, no label
    of that name is found and every other name finds what it found
    before.  A [deleteLabel] of a name that no label has and no prompt
    carries resolves without writing. *)
Theorem X21_labels_are_kept_by_name :
  (forall w label oldName w',
      Storage.saveLabel w label oldName = (Ok tt, w') ->
      List.find (labelled (Storage.label_name label)) (labels_of w')
      = Some label
      /\ (forall other,
             other <> Storage.label_name label -> Some other <> oldName ->
             List.find (labelled other) (labels_of w')
             = List.find (labelled other) (labels_of w))
      /\ (oldName = None \/ oldName = Some (Storage.label_name label) ->
          Storage.getAllPrompts w' = Storage.getAllPrompts w))
  /\ (forall w n w',
         Storage.deleteLabel w n = (Ok tt, w') ->
         List.find (labelled n) (labels_of w') = None
         /\ forall other,
              other <> n ->
              List.find (labelled other) (labels_of w')
              = List.find (labelled other) (labels_of w))
  /\ (forall w n,
         Storage.get_fault w = None ->
         ~ In n (label_names w) ->
         (forall p, In p (prompts_of w) -> ~ In n (Storage.labels p)) ->
         Storage.deleteLabel w n = (Ok tt, w)).
Proof.
  split; [|split].
  - intros w label oldName w' Hsave.
    assert (Hlabel : labelled (Storage.label_name label) label = true)
      by (unfold labelled; apply String.eqb_refl).
    split; [|split].
    + destruct (save_label_shape _ _ _ _ Hsave)
        as (_ & _ & [(_ & i & x & Hi & _ & Hfind & Hbefore & ->)
                    | [(_ & Hfresh & ->)
                      | (i & x & o & _ & _ & Hi & _ & _ & Hfresh & _ & ->)]]).
      * exact (find_insert_same _ _ _ _ _ Hi Hfind Hlabel Hbefore).
      * rewrite (find_app_new _ _ _ Hfresh). now rewrite Hlabel.
      * exact (find_insert_fresh _ _ _ _ _ Hfresh Hi Hlabel).
    + intros other Hother Hold.
      assert (Hother' : labelled other label = false)
        by (now apply (labelled_other (Storage.label_name label))).
      destruct (save_label_shape _ _ _ _ Hsave)
        as (_ & _ & [(_ & i & x & Hi & Hname & _ & _ & ->)
                    | [(_ & _ & ->)
                      | (i & x & o & -> & _ & Hi & Hname & _ & _ & _ & ->)]]).
      * apply (find_insert_other _ _ _ _ _ Hi); [|exact Hother'].
        apply (labelled_other _ _ _ Hname Hother).
      * now apply find_app_old.
      * apply (find_insert_other _ _ _ _ _ Hi); [|exact Hother'].
        apply (labelled_other _ _ _ Hname). congruence.
    + intros Hold. destruct (upsert_outcome _ _ _ _ Hold Hsave) as (Hget & ->).
      match goal with
      | |- Storage.getAllPrompts ?w2 = _ =>
          assert (Hget2 : Storage.get_fault w2 = None) by exact Hget;
          destruct (read_of_world w2 Hget2) as (-> & _ & _)
      end.
      now destruct (read_of_world _ Hget) as (-> & _ & _).
  - intros w n w' Hdelete.
    destruct (delete_label_outcome _ _ _ Hdelete) as (_ & _ & _ & ->).
    split.
    + destruct (List.find _ _) as [x|] eqn:Hx; [|reflexivity].
      apply find_some in Hx as [Hin Hnamed].
      apply filter_In in Hin as [_ Hin]. now rewrite Hnamed in Hin.
    + intros other Hother. now apply find_filter_label.
  - intros w n Hget Hlabel Hprompts.
    unfold Storage.deleteLabel, Storage.getStorageData. rewrite Hget.
    cbn [Storage.prompts Storage.stored_labels].
    fold (prompts_of w). fold (labels_of w).
    change (fun l : Storage.Label => negb (String.eqb (Storage.label_name l) n))
      with (fun l => negb (labelled n l)).
    assert (Hkept : List.filter (fun l => negb (labelled n l)) (labels_of w)
                    = labels_of w).
    { apply forallb_filter_id. apply forallb_forall. intros x Hx.
      apply find_labelled_None in Hlabel. apply find_None_Forall in Hlabel.
      rewrite List.Forall_forall in Hlabel. now rewrite (Hlabel x Hx). }
    assert (Hnone : existsb (fun p => Storage.includes n (Storage.labels p))
                      (prompts_of w) = false).
    { destruct (existsb _ _) eqn:He; [|reflexivity].
      apply existsb_exists in He as (p & Hp & Hin).
      apply includes_In in Hin. now destruct (Hprompts p Hp). }
    now rewrite Hkept, Nat.ltb_irrefl, Hnone.
Qed.

Lemma X21_witness :
  Storage.deleteLabel read_only_world "poetry" = (Ok tt, read_only_world)
  /\ exists w',
       Storage.saveLabel sample_world essays None = (Ok tt, w')
       /\ List.find (labelled "essays") (labels_of w') = Some essays
       /\ Storage.getAllPrompts w' = Storage.getAllPrompts sample_world.
Proof.
  pose proof X21_labels_are_kept_by_name as (Hsaved & _ & Hnothing).
  split.
  - apply (Hnothing read_only_world "poetry"); [reflexivity | |].
    + simpl. intros [H | [H | []]]; discriminate.
    + simpl. intros p Hp.
      repeat (destruct Hp as [<- | Hp];
              [simpl; intuition discriminate|]).
      contradiction.
  - eexists. split; [reflexivity|].
    destruct (Hsaved sample_world essays None _ eq_refl)
      as (Hfound & _ & Hprompts).
    split; [exact Hfound|]. apply Hprompts. now left.
Defined.

(** ** The handlers of the service worker, beyond the claims *)

Section HandlerFacts.
Import Storage Background.

Lemma lists_of_world (w : World) :
  get_fault w = None ->
  handleGetPrompts w
  = {| store_success := true; store_error := None;
       Background.prompts := Some (prompts_of w); Background.labels := None |}
  /\ labels_and_prompts w
     = {| store_success := true; store_error := None;
          Background.prompts := Some (prompts_of w);
          Background.labels := Some (labels_of w) |}.
Proof.
  intros Hget. unfold handleGetPrompts, labels_and_prompts.
  destruct (read_of_world _ Hget) as (-> & -> & _). now split.
Qed.

Lemma In_upsert {A} (q : A -> bool) (x : A) (l : list A) :
  In x (match findIndex q l with
        | Some i => <[i := x]> l
        | None => l ++ [x]
        end).
Proof.
  destruct (findIndex q l) as [i|] eqn:Hi.
  - apply findIndex_Some in Hi as (y & Hy & _). exact (In_insert_new _ _ _ _ Hy).
  - apply in_or_app. right. now left.
Qed.

End HandlerFacts.

(** X22. The handlers of prompts and labels answer from the store as the
    change left it.  A response that reports success carries the lists read
    after the write: after [savePrompt] the list holds the prompt, after
    [deletePrompt] it holds no prompt of that name, after [saveLabel] the
    labels hold the label, and after [deleteLabel] no label has that name
    and no prompt carries it.  A response that reports failure carries a
    message and no list. *)
Theorem X22_store_handlers_answer_from_the_changed_store :
  (forall w prompt r w',
      Background.handleSavePrompt w prompt = (r, w') ->
      Background.store_success r = true ->
      Background.prompts r = Some (prompts_of w')
      /\ exists saved, prompt = Some saved /\ In saved (prompts_of w'))
  /\ (forall w n r w',
         Background.handleDeletePrompt w n = (r, w') ->
         Background.store_success r = true ->
         Background.prompts r = Some (prompts_of w')
         /\ exists deleted,
              n = Some deleted
              /\ forall p, In p (prompts_of w') ->
                           Storage.name p <> deleted)
  /\ (forall w label oldName r w',
         Background.handleSaveLabel w label oldName = (r, w') ->
         Background.store_success r = true ->
         Background.prompts r = Some (prompts_of w')
         /\ Background.labels r = Some (labels_of w')
         /\ exists saved, label = Some saved /\ In saved (labels_of w'))
  /\ (forall w n r w',
         Background.handleDeleteLabel w n = (r, w') ->
         Background.store_success r = true ->
         Background.prompts r = Some (prompts_of w')
         /\ Background.labels r = Some (labels_of w')
         /\ exists deleted,
              n = Some deleted
              /\ (forall l, In l (labels_of w') ->
                            Storage.label_name l <> deleted)
              /\ (forall p, In p (prompts_of w') ->
                            ~ In deleted (Storage.labels p)))
  /\ (forall w r w',
         (exists prompt, Background.handleSavePrompt w prompt = (r, w'))
         \/ (exists n, Background.handleDeletePrompt w n = (r, w'))
         \/ (exists label oldName,
               Background.handleSaveLabel w label oldName = (r, w'))
         \/ (exists n, Background.handleDeleteLabel w n = (r, w')) ->
         Background.store_success r = false ->
         exists message, r = Background.store_failure message).
Proof.
  split; [|split; [|split; [|split]]].
  - intros w [prompt|] r w'; unfold Background.handleSavePrompt;
      [|intros [= <- <-]; discriminate].
    destruct (Storage.blank _); [intros [= <- <-]; discriminate|].
    destruct (Storage.savePrompt w prompt) as [[[]|e] w1] eqn:Hsave;
      [|intros [= <- <-]; discriminate].
    destruct (save_prompt_outcome _ _ _ Hsave) as (Hget & Hw1).
    assert (Hget1 : Storage.get_fault w1 = None) by now subst w1.
    destruct (lists_of_world _ Hget1) as (-> & _).
    intros [= <- <-] _. split; [reflexivity|].
    exists prompt. split; [reflexivity|].
    rewrite Hw1, written_prompts. apply In_upsert.
  - intros w [n|] r w'; unfold Background.handleDeletePrompt;
      [|intros [= <- <-]; discriminate].
    destruct (Background.missing_name _); [intros [= <- <-]; discriminate|].
    destruct (Storage.deletePrompt w n) as [[[]|e] w1] eqn:Hdelete;
      [|intros [= <- <-]; discriminate].
    destruct (delete_prompt_outcome _ _ _ Hdelete) as (_ & Hget1 & Hp & _).
    destruct (lists_of_world _ Hget1) as (-> & _).
    intros [= <- <-] _. split; [reflexivity|].
    exists n. split; [reflexivity|].
    intros p Hin Hname. rewrite Hp in Hin.
    apply filter_In in Hin as [_ Hin]. unfold named in Hin.
    now rewrite Hname, String.eqb_refl in Hin.
  - intros w [label|] oldName r w'; unfold Background.handleSaveLabel;
      [|intros [= <- <-]; discriminate].
    destruct (Storage.blank _); [intros [= <- <-]; discriminate|].
    destruct (Storage.saveLabel w label oldName) as [[[]|e] w1] eqn:Hsave;
      [|intros [= <- <-]; discriminate].
    destruct (save_label_shape _ _ _ _ Hsave) as (_ & Hget1 & Hshape).
    destruct (lists_of_world _ Hget1) as (_ & ->).
    intros [= <- <-] _. split; [reflexivity|]. split; [reflexivity|].
    exists label. split; [reflexivity|].
    destruct Hshape as [(_ & i & x & Hi & _ & _ & _ & ->)
                       | [(_ & _ & ->)
                         | (i & x & o & _ & _ & Hi & _ & _ & _ & _ & ->)]].
    + exact (In_insert_new _ _ _ _ Hi).
    + apply in_or_app. right. now left.
    + exact (In_insert_new _ _ _ _ Hi).
  - intros w [n|] r w'; unfold Background.handleDeleteLabel;
      [|intros [= <- <-]; discriminate].
    destruct (Background.missing_name _); [intros [= <- <-]; discriminate|].
    destruct (Storage.deleteLabel w n) as [[[]|e] w1] eqn:Hdelete;
      [|intros [= <- <-]; discriminate].
    destruct (delete_label_outcome _ _ _ Hdelete) as (_ & Hget1 & Hp & Hl).
    destruct (lists_of_world _ Hget1) as (_ & ->).
    intros [= <- <-] _. split; [reflexivity|]. split; [reflexivity|].
    exists n. split; [reflexivity|]. split.
    + intros l Hin Hname. rewrite Hl in Hin.
      apply filter_In in Hin as [_ Hin]. unfold labelled in Hin.
      now rewrite Hname, String.eqb_refl in Hin.
    + intros p Hin. rewrite Hp in Hin.
      apply in_map_iff in Hin as (p0 & <- & _). apply without_gone.
  - intros w r w' [([prompt|] & H) | [([n|] & H)
                  | [([label|] & oldName & H) | ([n|] & H)]]] Hfailed.
    + unfold Background.handleSavePrompt in H.
      destruct (Storage.blank _); [injection H as <- <-; eauto|].
      destruct (Storage.savePrompt w prompt) as [[[]|e] w1] eqn:Hsave.
      * destruct (save_prompt_outcome _ _ _ Hsave) as (Hget & Hw1).
        assert (Hget1 : Storage.get_fault w1 = None) by now subst w1.
        destruct (lists_of_world _ Hget1) as (Hlist & _).
        rewrite Hlist in H. injection H as <- <-. discriminate.
      * injection H as <- <-. eauto.
    + injection H as <- <-. eauto.
    + unfold Background.handleDeletePrompt in H.
      destruct (Background.missing_name _); [injection H as <- <-; eauto|].
      destruct (Storage.deletePrompt w n) as [[[]|e] w1] eqn:Hdelete.
      * destruct (delete_prompt_outcome _ _ _ Hdelete) as (_ & Hget1 & _).
        destruct (lists_of_world _ Hget1) as (Hlist & _).
        rewrite Hlist in H. injection H as <- <-. discriminate.
      * injection H as <- <-. eauto.
    + injection H as <- <-. eauto.
    + unfold Background.handleSaveLabel in H.
      destruct (Storage.blank _); [injection H as <- <-; eauto|].
      destruct (Storage.saveLabel w label oldName) as [[[]|e] w1] eqn:Hsave.
      * destruct (save_label_shape _ _ _ _ Hsave) as (_ & Hget1 & _).
        destruct (lists_of_world _ Hget1) as (_ & Hlist).
        rewrite Hlist in H. injection H as <- <-. discriminate.
      * injection H as <- <-. eauto.
    + injection H as <- <-. eauto.
    + unfold Background.handleDeleteLabel in H.
      destruct (Background.missing_name _); [injection H as <- <-; eauto|].
      destruct (Storage.deleteLabel w n) as [[[]|e] w1] eqn:Hdelete.
      * destruct (delete_label_outcome _ _ _ Hdelete) as (_ & Hget1 & _).
        destruct (lists_of_world _ Hget1) as (_ & Hlist).
        rewrite Hlist in H. injection H as <- <-. discriminate.
      * injection H as <- <-. eauto.
    + injection H as <- <-. eauto.
Qed.

Lemma X22_witness :
  exists r w',
    Background.handleDeleteLabel sample_world (Some "travel") = (r, w')
    /\ Background.labels r = Some (labels_of w')
    /\ forall p, In p (prompts_of w') -> ~ In "travel" (Storage.labels p).
Proof.
  eexists. eexists. split; [reflexivity|].
  pose proof X22_store_handlers_answer_from_the_changed_store
    as (_ & _ & _ & Hdeleted & _).
  destruct (Hdeleted sample_world (Some "travel") _ _ eq_refl eq_refl)
    as (_ & Hlabels & deleted & [= <-] & _ & Hprompts).
  split; [exact Hlabels | exact Hprompts].
Defined.

Lemma filter_of_no_labels (prompt : Storage.Prompt)
  (ls : list Storage.Label) :
  Storage.labels prompt = [] ->
  List.filter
    (fun l => Storage.includes (Storage.label_name l) (Storage.labels prompt))
    ls = [].
Proof.
  intros ->. induction ls as [|l ls IH]; [reflexivity | exact IH].
Qed.

(** X23. [handleRefinePrompt] answers for a name that is not stored
    without consulting the model, and for a stored prompt it consults the
    model on the same three texts that the clarification chat sends for
    that prompt and the stored labels: the response depends on the
    refinement function only through its value on the content, the label
    context and the first label. *)
Theorem X23_refine_by_name_sends_what_the_chat_sends
  (w : Storage.World) (n : string) :
  Storage.blank n = false ->
  Storage.get_fault w = None ->
  match List.find (named n) (prompts_of w) with
  | None =>
      forall provider refine,
        Background.handleRefinePrompt w provider refine (Some n)
        = Background.refine_failure
            ("Prompt " +:+ quoted n +:+ " not found")
  | Some prompt =>
      let props := {| ClarificationChat.prompt := prompt;
                      ClarificationChat.labels := labels_of w |} in
      forall providerId refine refine',
        refine (Storage.content prompt) (ClarificationChat.labelContext props)
          (ClarificationChat.labelForGating props) providerId
        = refine' (Storage.content prompt)
            (ClarificationChat.labelContext props)
            (ClarificationChat.labelForGating props) providerId ->
        Background.handleRefinePrompt w (Ok providerId) refine (Some n)
        = Background.handleRefinePrompt w (Ok providerId) refine' (Some n)
  end.
Proof.
  intros Hblank Hget.
  destruct (read_of_world _ Hget) as (_ & Hlabels & Hfind).
  unfold Background.handleRefinePrompt, Background.missing_name.
  rewrite Hblank, Hfind, Hlabels.
  destruct (List.find (named n) (prompts_of w)) as [prompt|];
    [|reflexivity].
  cbv zeta. intros providerId refine refine' Hsame.
  set (props := {| ClarificationChat.prompt := prompt;
                   ClarificationChat.labels := labels_of w |}) in *.
  assert (Hcontext :
    match Storage.labels prompt with
    | [] => Ok ""
    | _ :: _ => Ok (Background.contextParts prompt (labels_of w))
    end = (Ok (ClarificationChat.labelContext props) : Result string)).
  { unfold ClarificationChat.labelContext, Background.contextParts.
    subst props. cbn [ClarificationChat.prompt ClarificationChat.labels].
    pose proof (filter_of_no_labels prompt (labels_of w)) as Hnone.
    destruct (Storage.labels prompt); [|reflexivity].
    now rewrite (Hnone eq_refl). }
  rewrite Hcontext.
  change (match Storage.labels prompt with
          | [] => ""
          | first :: _ => first
          end) with (ClarificationChat.labelForGating props).
  now rewrite Hsame.
Qed.

Lemma X23_witness :
  Background.handleRefinePrompt sample_world (Ok None)
    (fun _ _ _ _ => Ok (Background.Refined "A memo, refined" 2))
    (Some "memo")
  = Background.refine_failure
      ("Prompt " +:+ quoted "memo" +:+ " not found").
Proof.
  exact (X23_refine_by_name_sends_what_the_chat_sends sample_world "memo"
           eq_refl eq_refl (Ok None)
           (fun _ _ _ _ => Ok (Background.Refined "A memo, refined" 2))).
Defined.

(** X24. Refining from the editor never asks for clarification: whatever
    [handleRefinePrompt] answers, [handleRefineInEditor] does not reject
    with [ClarificationNeededError], because the answer carries
    [questions] and the shell reads [question].  When the model asks for
    clarification, the shell rejects with [No refined text returned] and
    shows that message; any other rejection is shown as well. *)
Theorem X24_editor_refinement_never_asks (w : Storage.World)
  (provider : Result jsval)
  (refine : string -> string -> string -> jsval
            -> Result Background.RefinePromptResult)
  (n : option string) (promptName : string) :
  let outcome :=
    SidePanelShell.handleRefineInEditor promptName
      (Ok (SidePanelShell.delivered
             (Background.handleRefinePrompt w provider refine n))) in
  (forall question,
      fst outcome <> Throw (SidePanelShell.ClarificationNeededError question))
  /\ (forall e, fst outcome = Throw e -> snd outcome = Some (err_message e))
  /\ (Storage.blank promptName = false ->
      Background.needsClarification
        (Background.handleRefinePrompt w provider refine n) = Some true ->
      outcome = (Throw (Error "No refined text returned"),
                 Some "No refined text returned")).
Proof.
  intros outcome. subst outcome.
  unfold SidePanelShell.handleRefineInEditor.
  cbn [SidePanelShell.delivered SidePanelShell.question
         SidePanelShell.truthy_text SidePanelShell.success
         SidePanelShell.error SidePanelShell.refinedText
         SidePanelShell.needsClarification].
  rewrite andb_false_r.
  set (response := Background.handleRefinePrompt w provider refine n).
  assert (Hclarify :
    Background.needsClarification response = Some true ->
    Background.refine_success response = true
    /\ Background.refine_refinedText response = None).
  { subst response. unfold Background.handleRefinePrompt.
    destruct n as [n|]; [|discriminate].
    destruct (Background.missing_name _); [discriminate|].
    destruct (Storage.getPrompt w n) as [[prompt|]|]; try discriminate.
    destruct (match Storage.labels prompt with
              | [] => Ok ""
              | _ :: _ => _
              end); [|discriminate].
    destruct provider as [providerId|]; [|discriminate].
    destruct (refine _ _ _ _) as [[]|]; try discriminate. now split. }
  split; [|split].
  - intros question.
    destruct (Storage.blank promptName); [discriminate|].
    destruct (negb _); [discriminate|].
    destruct (SidePanelShell.truthy_text _); discriminate.
  - intros e.
    destruct (Storage.blank promptName); [now intros [= <-]|].
    destruct (negb _); [now intros [= <-]|].
    destruct (SidePanelShell.truthy_text _);
      [discriminate | now intros [= <-]].
  - intros -> Hasked. destruct (Hclarify Hasked) as (-> & ->). reflexivity.
Qed.

Lemma X24_witness :
  let asks : string -> string -> string -> jsval
             -> Result Background.RefinePromptResult :=
    fun _ _ _ _ => Ok (Background.Clarify ["Which topic?"] ["topic"] 3) in
  SidePanelShell.handleRefineInEditor "post"
    (Ok (SidePanelShell.delivered
           (Background.handleRefinePrompt sample_world (Ok None) asks
              (Some "post"))))
  = (Throw (Error "No refined text returned"),
     Some "No refined text returned").
Proof.
  intros asks.
  apply (X24_editor_refinement_never_asks sample_world (Ok None) asks
           (Some "post") "post"); reflexivity.
Defined.

(** ** The clarification chat, beyond the claims *)

Section ChatInvariants.
Import Messaging ClarificationChat.

Lemma user_turns_app (a b : list ConversationMessage) :
  user_turns (a ++ b) = user_turns a ++ user_turns b.
Proof. unfold user_turns. now rewrite List.filter_app, List.map_app. Qed.

Lemma accepted_trim (s : string) :
  is_empty (trim s) = false -> accepted (trim s).
Proof. intros H. split; [apply trim_idempotent | exact H]. Qed.

Lemma steady_mount (p : Props) : steady (mount p).1.
Proof. repeat split; constructor. Qed.

Ltac steady_done :=
  unfold steady;
  cbn [answers conversation mounted pending isLoading isGeneratingQuestions];
  repeat match goal with |- _ /\ _ => split end;
  try assumption; try reflexivity; try discriminate;
  try (intros _; repeat match goal with |- _ /\ _ => split end;
       assumption || reflexivity).

Ltac nothing_happens Hst :=
  cbn [fst snd];
  split; [exact Hst | split; [reflexivity | intros _ []]].

Lemma steady_step (p : Props) (st : State) (ev : Event) :
  steady st ->
  steady (step p st ev).1
  /\ conversation st `prefix_of` conversation (step p st ev).1
  /\ (forall history,
         In history (transcripts (step p st ev).2) ->
         history = conversation (step p st ev).1).
Proof.
  intros Hst. pose proof Hst as (Hanswers & Haccepted & Hflags).
  unfold step.
  destruct (mounted st) eqn:Hmounted; cbn [negb]; [|nothing_happens Hst].
  specialize (Hflags eq_refl).
  destruct ev as [text| | |r|].
  - destruct (input_disabled st); [nothing_happens Hst|]. cbn [fst snd].
    split; [|split; [reflexivity | intros _ []]].
    unfold setCurrentAnswer. steady_done.
  - destruct (input_disabled st) eqn:Hdisabled; [nothing_happens Hst|].
    unfold input_disabled in Hdisabled.
    apply orb_false_iff in Hdisabled as [Hloading Hgenerating].
    unfold handleSend. rewrite Hloading, orb_false_r.
    destruct (is_empty (trim (currentAnswer st))) eqn:Hempty;
      [nothing_happens Hst|].
    assert (Hnew : answers st ++ [trim (currentAnswer st)]
                   = user_turns
                       (conversation st
                        ++ [{| role := user;
                               content := trim (currentAnswer st) |}])).
    { rewrite user_turns_app, <- Hanswers. reflexivity. }
    assert (Hall : Forall accepted
                     (answers st ++ [trim (currentAnswer st)])).
    { apply Forall_app. split; [assumption|].
      constructor; [now apply accepted_trim | constructor]. }
    destruct (more_questions st); cbn [fst snd].
    + split; [steady_done|].
      split; [now apply prefix_app_r | intros _ []].
    + split; [steady_done|]. split; [now apply prefix_app_r|].
      cbn [transcripts refine_request conversation].
      intros history [<- | []]. reflexivity.
  - destruct (answer_later_shown st) eqn:Hshown; [|nothing_happens Hst].
    unfold handleAnswerLater.
    destruct (isLoading st || isGeneratingQuestions st)%bool eqn:Hbusy;
      [nothing_happens Hst|].
    apply orb_false_iff in Hbusy as [Hloading Hgenerating].
    assert (Hsame : forall q,
               answers st
               = user_turns
                   (conversation st ++ [{| role := assistant;
                                           content := q |}])).
    { intros q. rewrite user_turns_app, <- Hanswers.
      cbn. now rewrite app_nil_r. }
    destruct (more_questions st); cbn [fst snd].
    + split; [steady_done; apply Hsame|].
      split; [now apply prefix_app_r | intros _ []].
    + split; [steady_done|]. split; [reflexivity|].
      cbn [transcripts refine_request conversation].
      intros history [<- | []]. reflexivity.
  - destruct (pending st) eqn:Hpending; try nothing_happens Hst.
    + destruct Hflags as (Hloading & Hgenerating & Hempty).
      unfold questions_settled, questions_failed.
      destruct r as [response|e]; cbn [fst snd].
      2:{ split; [steady_done | split; [reflexivity | intros _ []]]. }
      destruct (success response), (Messaging.questions response)
        as [[|first more]|]; cbn [fst snd];
        try (split; [steady_done | split; [reflexivity | intros _ []]]).
      * split; [steady_done|]. split; [reflexivity|].
        cbn [transcripts refine_request conversation].
        intros history [<- | []]. now rewrite Hempty.
      * split; [|split; [rewrite Hempty; apply prefix_nil | intros _ []]].
        rewrite Hempty in Hanswers. steady_done.
    + unfold direct_refine_settled.
      destruct r as [response|e]; [destruct (refined response)|];
        cbn [fst snd];
        (split; [steady_done | split; [reflexivity | intros _ []]]).
    + destruct Hflags as (Hloading & Hgenerating).
      unfold refine_settled.
      destruct r as [response|e]; [destruct (refined response)|];
        cbn [fst snd];
        (split; [steady_done | split; [reflexivity | intros _ []]]).
  - destruct (pending st) eqn:Hpending; try nothing_happens Hst.
    destruct Hflags as (Hloading & Hgenerating & ->).
    unfold timer_fired. cbn [fst snd].
    assert (Hsame : forall q,
               answers st
               = user_turns
                   (conversation st ++ [{| role := assistant;
                                           content := q |}])).
    { intros q. rewrite user_turns_app, <- Hanswers.
      cbn. now rewrite app_nil_r. }
    split; [steady_done; apply Hsame|].
    split; [now apply prefix_app_r | intros _ []].
Qed.

Lemma steady_run (p : Props) (st : State) (evs : list Event) :
  steady st ->
  steady (run p st evs).1
  /\ conversation st `prefix_of` conversation (run p st evs).1
  /\ Forall (fun history => Forall accepted (user_turns history))
       (transcripts (run p st evs).2).
Proof.
  revert st. induction evs as [|ev evs IH]; intros st Hst.
  - simpl. repeat split; [apply Hst.. | reflexivity | constructor].
  - rewrite run_cons.
    destruct (steady_step p st ev Hst) as (Hnext & Hprefix & Hsent).
    destruct (IH _ Hnext) as (Hlast & Hprefix' & Hsent').
    cbn [fst snd]. split; [exact Hlast|].
    split; [now transitivity (conversation (step p st ev).1)|].
    rewrite transcripts_app. apply Forall_app. split; [|exact Hsent'].
    apply List.Forall_forall. intros history Hin.
    rewrite (Hsent history Hin).
    destruct Hnext as (<- & Haccepted & _). exact Haccepted.
Qed.

End ChatInvariants.

(** X25. One thing at a time.  In every state that the chat reaches while
    it is mounted, the input is disabled exactly while a request or the
    timer is outstanding, and then typing, sending and deferring change
    nothing and send nothing. *)
Theorem X25_one_thing_at_a_time (p : ClarificationChat.Props)
  (evs : list ClarificationChat.Event) :
  ClarificationChat.mounted (reached p evs) = true ->
  (ClarificationChat.input_disabled (reached p evs) = true
   <-> ClarificationChat.pending (reached p evs) <> ClarificationChat.Idle)
  /\ (ClarificationChat.pending (reached p evs) <> ClarificationChat.Idle ->
      forall ev,
        by_user ev = true ->
        ClarificationChat.step p (reached p evs) ev = (reached p evs, [])).
Proof.
  intros Hmounted. unfold reached in *.
  destruct (steady_run p _ evs (steady_mount p)) as ((_ & _ & Hflags) & _).
  specialize (Hflags Hmounted).
  set (st := (ClarificationChat.run p (ClarificationChat.mount p).1 evs).1)
    in *.
  assert (Hdisabled :
    ClarificationChat.input_disabled st = true
    <-> ClarificationChat.pending st <> ClarificationChat.Idle).
  { unfold ClarificationChat.input_disabled.
    destruct (ClarificationChat.pending st);
      [destruct Hflags as (-> & ->)
      | destruct Hflags as (-> & -> & _)
      | destruct Hflags as (-> & -> & _)
      | destruct Hflags as (-> & -> & _)
      | destruct Hflags as (-> & ->)];
      simpl; split; congruence. }
  split; [exact Hdisabled|].
  intros Hpending ev Huser. apply Hdisabled in Hpending.
  unfold ClarificationChat.step. rewrite Hmounted. cbn [negb].
  destruct ev; try discriminate; try now rewrite Hpending.
  unfold ClarificationChat.answer_later_shown. rewrite Hpending.
  destruct (last _) as [m|]; [|reflexivity].
  now destruct (Messaging.role m).
Qed.

Lemma X25_witness :
  ClarificationChat.step blog_post (reached blog_post [])
    ClarificationChat.SendClicked
  = (reached blog_post [], []).
Proof.
  apply (X25_one_thing_at_a_time blog_post []);
    [reflexivity | discriminate | reflexivity].
Defined.

(** X26. What the chat records of the user is what was typed, trimmed,
    and never empty: in every state the chat reaches, the recorded answers
    are the texts of the user's turns of the conversation, in order, each
    equal to its own trimmed form and not empty; and the same holds of the
    user's turns of every history sent for the final prompt. *)
Theorem X26_user_turns_are_trimmed_answers (p : ClarificationChat.Props)
  (evs : list ClarificationChat.Event) :
  ClarificationChat.answers (reached p evs)
  = user_turns (ClarificationChat.conversation (reached p evs))
  /\ Forall accepted (ClarificationChat.answers (reached p evs))
  /\ Forall (fun history => Forall accepted (user_turns history))
       (ClarificationChat.transcripts
          (ClarificationChat.run p (ClarificationChat.mount p).1 evs).2).
Proof.
  destruct (steady_run p _ evs (steady_mount p))
    as ((Hanswers & Haccepted & _) & _ & Hsent).
  now repeat split.
Qed.

(** X27. The conversation only grows: what it holds after some events is
    a prefix of what it holds after any further events.  And the
    conversation that the timer's callback closed over is the conversation
    of the state when the timer fires. *)
Theorem X27_conversation_only_grows (p : ClarificationChat.Props)
  (evs : list ClarificationChat.Event) :
  (forall more,
      ClarificationChat.conversation (reached p evs)
        `prefix_of` ClarificationChat.conversation (reached p (evs ++ more)))
  /\ (forall nextIndex updatedConv,
         ClarificationChat.mounted (reached p evs) = true ->
         ClarificationChat.pending (reached p evs)
         = ClarificationChat.AwaitTimer nextIndex updatedConv ->
         updatedConv = ClarificationChat.conversation (reached p evs)).
Proof.
  unfold reached.
  destruct (steady_run p _ evs (steady_mount p)) as (Hsteady & _).
  split.
  - intros more. rewrite run_app. cbn [fst].
    now destruct (steady_run p _ more Hsteady) as (_ & Hprefix & _).
  - intros nextIndex updatedConv Hmounted Hpending.
    destruct Hsteady as (_ & _ & Hflags). specialize (Hflags Hmounted).
    rewrite Hpending in Hflags. now destruct Hflags as (_ & _ & ->).
Qed.

Lemma X27_witness :
  let evs :=
    [ClarificationChat.Settled
       (Ok (answered true (Some ["Which topic?"; "Which tone?"]) None None));
     ClarificationChat.Typed " cats "; ClarificationChat.SendClicked] in
  ClarificationChat.conversation (reached blog_post evs)
  = [ask "Which topic?"; say "cats"].
Proof.
  intros evs. symmetry.
  destruct (X27_conversation_only_grows blog_post evs) as (_ & Htimer).
  apply (Htimer 1%nat); reflexivity.
Defined.

(** ** The editor, beyond the claims *)

(** X28. Opening a prompt and saving it keeps the name and the content,
    and of the labels the first only; the archived text is kept unless it
    is the empty string.  A prompt with at most one label and an archived
    text that is not empty is saved as it was opened.  The first label is
    taken not to be the empty string. *)
Theorem X28_open_and_save_keeps_the_first_label (prompt : Storage.Prompt) :
  head (Storage.labels prompt) <> Some "" ->
  let saved := PromptEditor.savedPrompt (PromptEditor.init prompt) in
  Storage.name saved = Storage.name prompt
  /\ Storage.content saved = Storage.content prompt
  /\ Storage.labels saved = take 1 (Storage.labels prompt)
  /\ (Storage.originalContent prompt <> Some "" ->
      Storage.originalContent saved = Storage.originalContent prompt)
  /\ ((length (Storage.labels prompt) <= 1)%nat ->
      Storage.originalContent prompt <> Some "" ->
      saved = prompt).
Proof.
  intros Hfirst saved. subst saved.
  destruct prompt as [n c ls o].
  unfold PromptEditor.savedPrompt, PromptEditor.init.
  cbn [PromptEditor.ed_name PromptEditor.ed_content
         PromptEditor.selectedLabel
         PromptEditor.originalContentBeforeRefinement
         Storage.name Storage.content Storage.labels
         Storage.originalContent] in *.
  assert (Hlabels : match head ls with
                    | Some l => if truthy l then [l] else []
                    | None => []
                    end = take 1 ls).
  { destruct ls as [|[|ch l] rest]; try reflexivity. now destruct Hfirst. }
  assert (Harchived : o <> Some "" ->
                      (if PromptEditor.is_set o then o else None) = o).
  { intros Ho. destruct o as [[|]|]; try reflexivity. congruence. }
  repeat split; try assumption.
  intros Hone Ho. rewrite Hlabels, (Harchived Ho). f_equal.
  destruct ls as [|l [|]]; try reflexivity. simpl in Hone. lia.
Qed.

Lemma X28_witness :
  Storage.labels (PromptEditor.savedPrompt (PromptEditor.init refined_before))
  = ["travel"].
Proof.
  destruct (X28_open_and_save_keeps_the_first_label refined_before)
    as (_ & _ & Hlabels & _); [discriminate|].
  exact Hlabels.
Defined.

Section EditorInvariants.
Import PromptEditor.

Lemma chat_is_open_on_content (st : State) (ev : Event) :
  (showClarification st = true -> is_empty (trim (ed_content st)) = false) ->
  showClarification (step st ev).1 = true ->
  is_empty (trim (ed_content (step st ev).1)) = false.
Proof.
  intros Hst. unfold step.
  destruct ev as [text|text|l| |chat refined| | |].
  5:{ destruct (chats st !! chat) as [[seen|]|]; cbn [fst];
        [discriminate | exact Hst | exact Hst]. }
  all: destruct (showClarification st) eqn:Hchat;
    try (destruct (is_empty (trim (ed_content st))) eqn:Hblank);
    cbn [fst with_fields with_chats showClarification ed_content];
    try rewrite Hchat; try discriminate; try assumption; auto;
    intros _; specialize (Hst eq_refl); congruence.
Qed.

Lemma chat_is_open_on_content_run (evs : list Event) (st : State) :
  (showClarification st = true -> is_empty (trim (ed_content st)) = false) ->
  showClarification (run st evs).1 = true ->
  is_empty (trim (ed_content (run st evs).1)) = false.
Proof.
  revert st. induction evs as [|ev evs IH]; intros st Hst; [exact Hst|].
  rewrite editor_run_cons. cbn [fst]. apply IH.
  now apply chat_is_open_on_content.
Qed.

End EditorInvariants.

(** X29. The chat opens only on a content that is not blank, and the
    content stays as it is while the chat is shown: in every state that
    the editor reaches with the chat shown, the content, trimmed, is not
    empty, so the connection forwards it and the check of the handlers on
    [promptContent] lets it pass. *)
Theorem X29_the_chat_opens_on_content_that_passes_the_check
  (prompt : Storage.Prompt) (evs : list PromptEditor.Event) :
  let st := (PromptEditor.run (PromptEditor.init prompt) evs).1 in
  PromptEditor.showClarification st = true ->
  is_empty (trim (PromptEditor.ed_content st)) = false
  /\ Background.forwarded (PromptEditor.ed_content st)
     = Some (PromptEditor.ed_content st)
  /\ Background.missing_prompt
       (Background.forwarded (PromptEditor.ed_content st)) = false.
Proof.
  intros st Hchat.
  assert (Hcontent : is_empty (trim (PromptEditor.ed_content st)) = false).
  { apply chat_is_open_on_content_run; [discriminate | exact Hchat]. }
  assert (Hpresent :
    Background.missing_prompt (Some (PromptEditor.ed_content st)) = false).
  { unfold Background.missing_prompt. rewrite Hcontent.
    destruct (PromptEditor.ed_content st); [discriminate | reflexivity]. }
  split; [exact Hcontent|].
  rewrite (forwarded_present _ Hpresent). now split.
Qed.

Lemma X29_witness :
  let st :=
    (PromptEditor.run (PromptEditor.init refined_before)
       [PromptEditor.ContentEdited "Plan a trip to Lisbon";
        PromptEditor.RefineClicked; PromptEditor.ContentEdited ""]).1 in
  Background.forwarded (PromptEditor.ed_content st)
  = Some "Plan a trip to Lisbon".
Proof.
  intros st.
  destruct (X29_the_chat_opens_on_content_that_passes_the_check
              refined_before
              [PromptEditor.ContentEdited "Plan a trip to Lisbon";
               PromptEditor.RefineClicked; PromptEditor.ContentEdited ""]
              eq_refl)
    as (_ & Hforwarded & _).
  exact Hforwarded.
Defined.

(** X30. With one chat at a time the archive does what the comment in
    [onComplete] says.  In a state that the editor reaches with a chat
    shown, a completion of that chat archives the content when no archived
    text is held and the refined text differs from the content, and leaves
    the archive as it is otherwise; and once a non-empty archived text is
    held, it stays through all further events in which every completion
    comes from the chat shown at the time, and every prompt the Save
    button hands over carries it. *)
Theorem X30_timely_refinements_keep_the_archive (prompt : Storage.Prompt)
  (evs more : list PromptEditor.Event) :
  let st := (PromptEditor.run (PromptEditor.init prompt) evs).1 in
  let completed refined :=
    (PromptEditor.step st
       (PromptEditor.ChatCompleted (PromptEditor.shown_chat st) refined)).1 in
  (PromptEditor.showClarification st = true ->
   forall refined,
     PromptEditor.ed_content (completed refined) = refined
     /\ PromptEditor.showClarification (completed refined) = false
     /\ PromptEditor.originalContentBeforeRefinement (completed refined)
        = if (PromptEditor.is_set
                (PromptEditor.originalContentBeforeRefinement st)
              || String.eqb (trim refined)
                   (trim (PromptEditor.ed_content st)))%bool
          then PromptEditor.originalContentBeforeRefinement st
          else Some (PromptEditor.ed_content st))
  /\ (PromptEditor.showClarification st = true ->
      PromptEditor.ed_content st <> "")
  /\ (forall o,
         PromptEditor.originalContentBeforeRefinement st = Some o ->
         o <> "" ->
         PromptEditor.timely st more = true ->
         PromptEditor.originalContentBeforeRefinement
           (PromptEditor.run st more).1 = Some o
         /\ saves_keep o (PromptEditor.run st more).2).
Proof.
  intros st completed.
  assert (Hst : shown_is_current st)
    by (apply shown_run, shown_init).
  split; [|split].
  - intros Hchat refined. subst completed. cbn beta.
    rewrite (timely_completion st refined Hst Hchat).
    cbn [fst PromptEditor.with_chats PromptEditor.onComplete
           PromptEditor.closure_of PromptEditor.seen_content
           PromptEditor.seen_original PromptEditor.ed_content
           PromptEditor.showClarification
           PromptEditor.originalContentBeforeRefinement].
    split; [reflexivity|]. split; [reflexivity|].
    destruct (PromptEditor.is_set _), (String.eqb _ _); reflexivity.
  - intros Hchat Hempty.
    assert (Hblank : is_empty (trim (PromptEditor.ed_content st)) = false).
    { apply chat_is_open_on_content_run; [discriminate | exact Hchat]. }
    now rewrite Hempty in Hblank.
  - intros o Ho Hne Htimely. now apply run_keeps.
Qed.

Lemma X30_witness :
  PromptEditor.originalContentBeforeRefinement
    (PromptEditor.step
       (PromptEditor.run
          (PromptEditor.init (ClarificationChat.prompt blog_post))
          [PromptEditor.RefineClicked]).1
       (PromptEditor.ChatCompleted 0
          "Write a 600-word blog post about owls")).1
  = Some "Write a blog post"
  /\ (PromptEditor.run (PromptEditor.init refined_before)
        second_refinement).2
     = [PromptEditor.OnSave
          {| Storage.name := "trip";
             Storage.content := "Plan a three-day trip to Lisbon in May";
             Storage.labels := ["travel"];
             Storage.originalContent := Some "trip" |}]
  /\ saves_keep "trip"
       (PromptEditor.run (PromptEditor.init refined_before)
          second_refinement).2.
Proof.
  split; [|split; [reflexivity|]].
  - destruct (X30_timely_refinements_keep_the_archive
                (ClarificationChat.prompt blog_post)
                [PromptEditor.RefineClicked] [])
      as (Hcompleted & _ & _).
    destruct (Hcompleted eq_refl "Write a 600-word blog post about owls")
      as (_ & _ & Harchive).
    exact Harchive.
  - destruct (X30_timely_refinements_keep_the_archive refined_before []
                second_refinement)
      as (_ & _ & Hkept).
    apply (Hkept "trip"); [reflexivity | discriminate | reflexivity].
Defined.
